(** * Univid-Downloader: platform classification, analyze/download routes
      and the client-side video store.

    The development follows the TypeScript sources
      - [src/app/api/analyze/route.ts]
      - [src/app/api/download/route.ts]
      - [src/lib/store.ts], [src/components/url-input.tsx],
        [src/components/video-card.tsx].

    JavaScript strings are sequences of UTF-16 code units; they are modelled
    as [list N].  Regular expressions are embedded as a small syntax tree
    with a backtracking matcher that follows the order in which the
    ECMAScript matcher explores alternatives (leftmost start, left
    alternative first, greedy repetition). *)

From Stdlib Require Import String Ascii.
From Stdlib Require Import List Bool Arith NArith ZArith Lia Sorted.
Import ListNotations.

Set Implicit Arguments.

(* ------------------------------------------------------------------ *)
(** ** JavaScript strings *)

Module JsString.

Definition str := list N.

(** Code units of an ASCII literal of the source. *)
Definition js (s : string) : str :=
  map N_of_ascii (list_ascii_of_string s).
Arguments js : simpl never.

Fixpoint eqb (a b : str) : bool :=
  match a, b with
  | [], [] => true
  | x :: a', y :: b' => N.eqb x y && eqb a' b'
  | _, _ => false
  end.

(** [!s] is false exactly for the non-empty string. *)
Definition truthy (s : str) : bool :=
  match s with [] => false | _ :: _ => true end.

(** [a || b] on strings. *)
Definition or_else (a b : str) : str := if truthy a then a else b.

(** Line terminators: LF, CR, U+2028, U+2029. *)
Definition isLineTerminator (c : N) : bool :=
  (N.eqb c 10 || N.eqb c 13 || N.eqb c 8232 || N.eqb c 8233)%N.

(** The characters of [\s] (WhiteSpace and LineTerminator); also the
    characters removed by [String.prototype.trim]. *)
Definition isWhiteSpace (c : N) : bool :=
  ((9 <=? c) && (c <=? 13) || N.eqb c 32 || N.eqb c 160 || N.eqb c 5760
   || (8192 <=? c) && (c <=? 8202) || N.eqb c 8232 || N.eqb c 8233
   || N.eqb c 8239 || N.eqb c 8287 || N.eqb c 12288 || N.eqb c 65279)%N.

(** The characters of [\w]: [A-Za-z0-9_]. *)
Definition isWord (c : N) : bool :=
  ((48 <=? c) && (c <=? 57) || (65 <=? c) && (c <=? 90)
   || (97 <=? c) && (c <=? 122) || N.eqb c 95)%N.

(** Canonicalisation used by case-insensitive matching without the
    unicode flag.  A code unit of 128 or more never canonicalises to an
    ASCII code unit, and every pattern character of the sources is ASCII,
    so only the ASCII part of the mapping can be observed. *)
Definition canon (c : N) : N :=
  if ((97 <=? c) && (c <=? 122))%N then (c - 32)%N else c.

(** [s.trim()] is the empty string iff every code unit is white space. *)
Definition trim_nonempty (s : str) : bool :=
  existsb (fun c => negb (isWhiteSpace c)) s.

End JsString.
Import JsString.

(* ------------------------------------------------------------------ *)
(** ** Regular expressions *)

Module Regex.

Inductive citem :=
| CChar (c : N)          (* a literal class member *)
| CWord.                 (* \w *)

Inductive regex :=
| Eps
| Chr (c : N)                          (* a pattern character *)
| Dot                                  (* .  *)
| Cls (neg : bool) (items : list citem)   (* [...] and [^...] *)
| Seq (r1 r2 : regex)
| Alt (r1 r2 : regex)                  (* r1|r2 *)
| Star (r : regex).                    (* r*, greedy *)

(** r+ *)
Definition Plus (r : regex) : regex := Seq r (Star r).

(** A run of pattern characters. *)
Fixpoint Lit (l : str) : regex :=
  match l with
  | [] => Eps
  | c :: l' => Seq (Chr c) (Lit l')
  end.

(** Character comparison; [i] is the ignoreCase flag. *)
Definition ceq (i : bool) (p c : N) : bool :=
  if i then N.eqb (canon p) (canon c) else N.eqb p c.

Definition item_has (i : bool) (it : citem) (c : N) : bool :=
  match it with
  | CChar p => ceq i p c
  | CWord => isWord c
  end.

Definition cls_has (i : bool) (neg : bool) (items : list citem) (c : N) : bool :=
  xorb neg (existsb (fun it => item_has i it c) items).

Section Matcher.
Variable A : Type.

(** Greedy repetition; an iteration that consumes nothing is rejected,
    so [length s] iterations are always enough. *)
Fixpoint star_loop (body : str -> (str -> option A) -> option A)
         (fuel : nat) (s : str) (k : str -> option A) : option A :=
  match fuel with
  | O => k s
  | S n =>
      match body s (fun s' => if (length s' <? length s)%nat
                              then star_loop body n s' k else None) with
      | Some a => Some a
      | None => k s
      end
  end.

(** [mt i r s k]: match [r] at the front of [s], then continue with [k]
    on the rest; on failure of [k] backtrack into [r]. *)
Fixpoint mt (i : bool) (r : regex) (s : str) (k : str -> option A)
  {struct r} : option A :=
  match r with
  | Eps => k s
  | Chr p =>
      match s with
      | c :: s' => if ceq i p c then k s' else None
      | [] => None
      end
  | Dot =>
      match s with
      | c :: s' => if isLineTerminator c then None else k s'
      | [] => None
      end
  | Cls neg items =>
      match s with
      | c :: s' => if cls_has i neg items c then k s' else None
      | [] => None
      end
  | Seq r1 r2 => mt i r1 s (fun s' => mt i r2 s' k)
  | Alt r1 r2 =>
      match mt i r1 s k with
      | Some a => Some a
      | None => mt i r2 s k
      end
  | Star r1 => star_loop (fun s0 k0 => mt i r1 s0 k0) (length s) s k
  end.

(** Try every start index from the left ([lastIndex = 0], no sticky or
    global flag). *)
Fixpoint search (i : bool) (r : regex) (s : str) (k : str -> option A)
  : option A :=
  match mt i r s k with
  | Some a => Some a
  | None =>
      match s with
      | [] => None
      | _ :: s' => search i r s' k
      end
  end.
End Matcher.

(** [regex.test(s)] *)
Definition test (i : bool) (r : regex) (s : str) : bool :=
  match search i r s (fun _ => Some tt) with
  | Some _ => true
  | None => false
  end.

(** [s.match(/P(G)/)] for a pattern whose single capture group [G] ends
    the pattern: the result is [match[1]], the text consumed by [G]. *)
Definition match_group1 (i : bool) (pre grp : regex) (s : str) : option str :=
  search i pre s
    (fun s1 => mt i grp s1
       (fun s2 => Some (firstn (length s1 - length s2) s1))).

(** Words matched by a regular expression. *)
Inductive matches (i : bool) : regex -> str -> Prop :=
| m_eps : matches i Eps []
| m_chr p c : ceq i p c = true -> matches i (Chr p) [c]
| m_dot c : isLineTerminator c = false -> matches i Dot [c]
| m_cls neg items c :
    cls_has i neg items c = true -> matches i (Cls neg items) [c]
| m_seq r1 r2 w1 w2 :
    matches i r1 w1 -> matches i r2 w2 -> matches i (Seq r1 r2) (w1 ++ w2)
| m_alt_l r1 r2 w : matches i r1 w -> matches i (Alt r1 r2) w
| m_alt_r r1 r2 w : matches i r2 w -> matches i (Alt r1 r2) w
| m_star_nil r : matches i (Star r) []
| m_star_cons r w1 w2 :
    matches i r w1 -> matches i (Star r) w2 -> matches i (Star r) (w1 ++ w2).

End Regex.
Import Regex.

(* ------------------------------------------------------------------ *)
(** ** JavaScript library functions used by the routes *)

Module JsLib.

Definition opt_truthy (o : option str) : bool :=
  match o with Some s => truthy s | None => false end.

(** Characters left alone by [encodeURIComponent]:
    [A-Za-z0-9] and [- _ . ! ~ * ' ( )]. *)
Definition uriUnreserved (c : N) : bool :=
  ((48 <=? c) && (c <=? 57) || (65 <=? c) && (c <=? 90)
   || (97 <=? c) && (c <=? 122)
   || N.eqb c 45 || N.eqb c 95 || N.eqb c 46 || N.eqb c 33 || N.eqb c 126
   || N.eqb c 42 || N.eqb c 39 || N.eqb c 40 || N.eqb c 41)%N.

Definition hexDigit (d : N) : N :=
  if (d <? 10)%N then (48 + d)%N else (55 + d)%N.

Definition pctOctet (b : N) : str :=
  [37%N; hexDigit (b / 16); hexDigit (b mod 16)].

(** UTF-8 octets of a code point. *)
Definition utf8 (v : N) : list N :=
  if (v <? 128)%N then [v]
  else if (v <? 2048)%N then [(192 + v / 64)%N; (128 + v mod 64)%N]
  else if (v <? 65536)%N then
    [(224 + v / 4096)%N; (128 + (v / 64) mod 64)%N; (128 + v mod 64)%N]
  else
    [(240 + v / 262144)%N; (128 + (v / 4096) mod 64)%N;
     (128 + (v / 64) mod 64)%N; (128 + v mod 64)%N].

Definition pctCodePoint (v : N) : str := flat_map pctOctet (utf8 v).

(** [encodeURIComponent]; [None] is the URIError raised on a lone
    surrogate. *)
Fixpoint encodeURIComponent (s : str) : option str :=
  match s with
  | [] => Some []
  | c :: rest =>
      if uriUnreserved c then option_map (cons c) (encodeURIComponent rest)
      else if ((56320 <=? c) && (c <=? 57343))%N then None
      else if ((55296 <=? c) && (c <=? 56319))%N then
        match rest with
        | d :: rest' =>
            if ((56320 <=? d) && (d <=? 57343))%N then
              option_map
                (app (pctCodePoint ((c - 55296) * 1024 + (d - 56320) + 65536)%N))
                (encodeURIComponent rest')
            else None
        | [] => None
        end
      else option_map (app (pctCodePoint c)) (encodeURIComponent rest)
  end.

(** Value of a digit in the given radix. *)
Definition digitVal (radix : N) (c : N) : option N :=
  let v := if ((48 <=? c) && (c <=? 57))%N then Some (c - 48)%N
           else if ((97 <=? c) && (c <=? 122))%N then Some (c - 87)%N
           else if ((65 <=? c) && (c <=? 90))%N then Some (c - 55)%N
           else None in
  match v with
  | Some d => if (d <? radix)%N then Some d else None
  | None => None
  end.

Fixpoint digits (radix : N) (acc : option N) (s : str) : option N :=
  match s with
  | [] => acc
  | c :: s' =>
      match digitVal radix c with
      | Some d =>
          digits radix
            (Some (match acc with Some a => a * radix + d | None => d end)%N) s'
      | None => acc
      end
  end.

Fixpoint trimStart (s : str) : str :=
  match s with
  | c :: s' => if isWhiteSpace c then trimStart s' else s
  | [] => []
  end.

(** [parseInt(s)] without a radix; [None] is NaN.  The result is the
    mathematical integer of the digits.  Below 2^53 in size that is the
    number the engine returns; from 2^53 on the engine rounds it to a
    double (and may approximate a decimal of more than 20 digits), which is
    not modelled: what is proved of a value read by [parseInt] is proved
    for values below 2^53. *)
Definition parseInt (s : str) : option Z :=
  let s1 := trimStart s in
  let '(neg, s2) :=
    match s1 with
    | 45%N :: t => (true, t)
    | 43%N :: t => (false, t)
    | _ => (false, s1)
    end in
  let '(radix, s3) :=
    match s2 with
    | 48%N :: 120%N :: t => (16%N, t)
    | 48%N :: 88%N :: t => (16%N, t)
    | _ => (10%N, s2)
    end in
  match digits radix None s3 with
  | Some n => Some (if neg then (- Z.of_N n)%Z else Z.of_N n)
  | None => None
  end.

(** [Array.from(new Set(l))]: first occurrences, in insertion order. *)
Fixpoint dedup (seen : list str) (l : list str) : list str :=
  match l with
  | [] => []
  | x :: l' =>
      if existsb (JsString.eqb x) seen then dedup seen l'
      else x :: dedup (x :: seen) l'
  end.

(** The comparator [(a, b) => parseInt(b) - parseInt(a)]; a NaN result is
    treated as +0 by [Array.prototype.sort]. *)
Definition cmpQuality (a b : str) : Z :=
  match parseInt a, parseInt b with
  | Some na, Some nb => (nb - na)%Z
  | _, _ => 0%Z
  end.

(** [Array.prototype.sort] is stable; it is modelled by a stable
    insertion sort.  For a comparator that is a consistent ordering of the
    list the result is the one the language fixes.  Where it is not (labels
    that parse to NaN) the language leaves the order to the engine, which
    may order the same elements otherwise: what is proved of the order is
    proved for lists on which the comparator is consistent. *)
Fixpoint insertBy (cmp : str -> str -> Z) (x : str) (l : list str) : list str :=
  match l with
  | [] => [x]
  | y :: l' => if (cmp x y <=? 0)%Z then x :: y :: l'
               else y :: insertBy cmp x l'
  end.

Fixpoint sortBy (cmp : str -> str -> Z) (l : list str) : list str :=
  match l with
  | [] => []
  | x :: l' => insertBy cmp x (sortBy cmp l')
  end.

End JsLib.
Import JsLib.

(* ------------------------------------------------------------------ *)
(** ** Data, environment and effects of the server routes *)

Inductive Platform := youtube | tiktok | instagram | facebook | unknown.

Module Eff.

(** A computation either returns or throws an [Error] with a message. *)
Inductive Result (A : Type) :=
| Ok (a : A)
| Throw (message : str).
Arguments Throw {A} message.

(** The document returned by [response.json()].  The routes read the
    fields [title], [picture] and [links] (a list of [{quality, link}]);
    a field that is missing is [None]. *)
Record Link := { l_quality : option str; l_link : option str }.
Record Doc := {
  d_title : option str;
  d_picture : option str;
  d_links : option (list Link) }.

(** A body stream: the chunks it delivers and how it ends. *)
Inductive StreamEnd := Ended | Errored (message : str).
Record BodyStream := { chunks : list (list N); ending : StreamEnd }.

(** What [fetch] resolves to. *)
Record FetchResponse := {
  status : N;
  statusText : str;
  content_length : option str;       (* headers.get("content-length") *)
  json : Result Doc;                 (* response.json() *)
  body : BodyStream }.

Definition ok (r : FetchResponse) : bool :=
  ((200 <=? status r) && (status r <=? 299))%N.

(** ytdl-core: formats and video details of [ytdl.getInfo]. *)
Record Format := {
  itag : N;
  f_url : option str;                (* absent when no URL could be worked out *)
  qualityLabel : option str;         (* null for audio-only formats *)
  hasVideo : bool;
  hasAudio : bool }.
Record VideoDetails := {
  vd_title : str;
  vd_thumbnails : list str;          (* the url of each thumbnail *)
  vd_lengthSeconds : str }.
Record YtInfo := { formats : list Format; videoDetails : VideoDetails }.

(** [ytdl.filterFormats(formats, "videoandaudio")]; in the library
    [formats.filter(format => !!format.url && fn(format))] with
    [fn = format => format.hasVideo && format.hasAudio]. *)
Definition filterFormats_videoandaudio (fs : list Format) : list Format :=
  filter (fun f => opt_truthy (f_url f) && (hasVideo f && hasAudio f)) fs.

(** Observable actions of a handler, in the order they happen. *)
Inductive Event :=
| EvFetch (url : str) (headers : list (str * str))
| EvGetInfo (url : str)                      (* ytdl.getInfo(url) *)
| EvYtdl (url : str) (format : Format)       (* ytdl(url, { format }) *)
| EvConsole (label : str).                   (* console.log / console.error *)

Definition Trace := list Event.

(** The outside world of one request; an answer may depend on everything
    the handler did before. *)
Record World := {
  env_RAPIDAPI_KEY : option str;             (* process.env.RAPIDAPI_KEY *)
  fetch : Trace -> str -> list (str * str) -> Result FetchResponse;
  ytdl_getInfo : Trace -> str -> Result YtInfo;
  ytdl_download : Trace -> str -> Format -> BodyStream }.

Definition M (A : Type) : Type := Trace -> Result A * Trace.

Definition ret {A} (a : A) : M A := fun tr => (Ok a, tr).
Definition throw {A} (message : str) : M A := fun tr => (Throw message, tr).
Definition bind {A B} (m : M A) (f : A -> M B) : M B :=
  fun tr =>
    match m tr with
    | (Ok a, tr') => f a tr'
    | (Throw e, tr') => (Throw e, tr')
    end.
(** [try { m } catch (e) { h e }] *)
Definition try_catch {A} (m : M A) (h : str -> M A) : M A :=
  fun tr =>
    match m tr with
    | (Ok a, tr') => (Ok a, tr')
    | (Throw e, tr') => h e tr'
    end.
Definition emit (e : Event) : M unit := fun tr => (Ok tt, tr ++ [e]).
Definition lift {A} (r : Result A) : M A := fun tr => (r, tr).

End Eff.
Import Eff.

Declare Scope eff_scope.
Delimit Scope eff_scope with eff.
Notation "x <- m ;; k" := (bind m (fun x => k))
  (at level 61, m at next level, right associativity) : eff_scope.
Notation "m ;;; k" := (bind m (fun _ => k))
  (at level 61, right associativity) : eff_scope.
Open Scope eff_scope.

(* ------------------------------------------------------------------ *)
(** ** Code shared, word for word, by both route files *)

Module Route.

(** The four patterns of [detectPlatform], all with the [i] flag. *)
Definition re_youtube : regex := Alt (Lit (js "youtube.com")) (Lit (js "youtu.be")).
Definition re_tiktok : regex := Lit (js "tiktok.com").
Definition re_instagram : regex := Lit (js "instagram.com").
Definition re_facebook : regex := Alt (Lit (js "facebook.com")) (Lit (js "fb.watch")).

Definition detectPlatform (url : str) : Platform :=
  if test true re_youtube url then youtube
  else if test true re_tiktok url then tiktok
  else if test true re_instagram url then instagram
  else if test true re_facebook url then facebook
  else unknown.

Definition DEFAULT_KEY : str :=
  js "660e8df9ffmshda83470792f30bep12a0b5jsnc90613c2cfde".

(** [process.env.RAPIDAPI_KEY || "660e..."] *)
Definition RAPIDAPI_KEY (W : World) : str :=
  match env_RAPIDAPI_KEY W with
  | Some k => or_else k DEFAULT_KEY
  | None => DEFAULT_KEY
  end.

Definition RAPIDAPI_HOST : str := js "social-media-video-downloader.p.rapidapi.com".

Definition do_fetch (W : World) (url : str) (headers : list (str * str))
  : M FetchResponse :=
  fun tr => (fetch W tr url headers, tr ++ [EvFetch url headers]).

Definition fetchFromRapidAPI (W : World) (url : str) : M Doc :=
  if negb (truthy (RAPIDAPI_KEY W)) then
    throw (js "RAPIDAPI_KEY is not configured")
  else
    match encodeURIComponent url with
    | None => throw (js "URI malformed")
    | Some encodedUrl =>
        response <- do_fetch W
          (js "https://" ++ RAPIDAPI_HOST ++ js "/smvd/get/all?url=" ++ encodedUrl)
          [(js "x-rapidapi-key", RAPIDAPI_KEY W);
           (js "x-rapidapi-host", RAPIDAPI_HOST)] ;;
        if negb (ok response) then
          throw (js "RapidAPI error: " ++ statusText response)
        else lift (json response)
    end.

(** Values a JSON request body can hold in a field. *)
Inductive JsVal :=
| VUndefined | VNull | VBool (b : bool) | VNum (n : Z) | VStr (s : str)
| VObject.                                   (* any object or array *)

(** [await request.json()]: [null], or anything whose fields [url] and
    [quality] can be read. *)
Inductive ReqJson :=
| BodyNull
| BodyFields (url quality : JsVal).

(** The answers a route can give. *)
Record Metadata := {
  platform : Platform;
  title : str;
  thumbnail : str;
  duration : Z;
  qualities : list str }.

Inductive Response :=
| JsonMessage (status : N) (message : str)   (* NextResponse.json({ message }, { status }) *)
| JsonMetadata (result : Metadata)           (* NextResponse.json(result), status 200 *)
| Stream (headers : list (str * str)) (body : BodyStream).
                                             (* new Response(stream, { headers }), status 200 *)

Definition response_status (r : Response) : N :=
  match r with
  | JsonMessage st _ => st
  | JsonMetadata _ => 200
  | Stream _ _ => 200
  end.

(** HTTP whitespace: tab, line feed, carriage return, space. *)
Definition isHttpWhitespace (c : N) : bool :=
  (N.eqb c 9 || N.eqb c 10 || N.eqb c 13 || N.eqb c 32)%N.

Fixpoint dropHttpWhitespace (s : str) : str :=
  match s with
  | c :: s' => if isHttpWhitespace c then dropHttpWhitespace s' else s
  | [] => []
  end.

(** A header value is taken off both ends of its HTTP whitespace. *)
Definition normalizeHeaderValue (v : str) : str :=
  rev (dropHttpWhitespace (rev (dropHttpWhitespace v))).

(** What the [Headers] of a [Response] accept as a value: every code unit
    is a byte, and the normalized value holds no NUL, line feed or
    carriage return. *)
Definition headerValueOk (v : str) : bool :=
  forallb (fun c => (c <=? 255)%N) v &&
  forallb (fun c => negb (N.eqb c 0 || N.eqb c 10 || N.eqb c 13)%N)
          (normalizeHeaderValue v).

(** The message of the [TypeError] for a value that is not accepted.  Its
    text is the runtime's; the only handler that can meet it replaces it
    in its catch block. *)
Definition HEADER_REJECTED : str := js "Invalid header value".

(** [new Response(body, { headers })] with header names that are literals
    of the source. *)
Definition newResponse (headers : list (str * str)) (body : BodyStream)
  : M Response :=
  if forallb (fun h => headerValueOk (snd h)) headers
  then ret (Stream headers body)
  else throw HEADER_REJECTED.

End Route.
Import Route.

(* ------------------------------------------------------------------ *)
(** ** [src/app/api/analyze/route.ts] *)

Module Analyze.

(** [[^&\n?#]+], the capture group of both id patterns. *)
Definition idGroup : regex :=
  Plus (Cls true [CChar 38; CChar 10; CChar 63; CChar 35]).

(** [(?:youtube\.com\/watch\?v=|youtu\.be\/|youtube\.com\/embed\/|youtube\.com\/v\/)] *)
Definition idPrefix1 : regex :=
  Alt (Lit (js "youtube.com/watch?v="))
    (Alt (Lit (js "youtu.be/"))
       (Alt (Lit (js "youtube.com/embed/")) (Lit (js "youtube.com/v/")))).

(** [youtube\.com\/shorts\/] *)
Definition idPrefix2 : regex := Lit (js "youtube.com/shorts/").

Definition extractYouTubeId (url : str) : option str :=
  match match_group1 false idPrefix1 idGroup url with
  | Some id => Some id
  | None => match_group1 false idPrefix2 idGroup url
  end.

Definition do_getInfo (W : World) (url : str) : M YtInfo :=
  fun tr => (ytdl_getInfo W tr url, tr ++ [EvGetInfo url]).

Definition defaultQualities : list str :=
  [js "1080p"; js "720p"; js "480p"; js "360p"].

Definition oembedUrl (videoId : str) : str :=
  js "https://www.youtube.com/oembed?url=https://www.youtube.com/watch?v="
     ++ videoId ++ js "&format=json".

(** The labels collected into [qualitySet], in insertion order. *)
Definition qualityLabels (fs : list Format) : list str :=
  dedup []
    (flat_map (fun f => match qualityLabel f with
                        | Some l => if truthy l then [l] else []
                        | None => []
                        end) fs).

Definition analyzeYouTube (W : World) (url : str) : M Metadata :=
  match extractYouTubeId url with
  | None => throw (js "Invalid YouTube URL")
  | Some videoId =>
    if negb (truthy videoId) then throw (js "Invalid YouTube URL") else
    (* Method 1: oEmbed *)
    m1 <- try_catch
            (oembedResponse <- do_fetch W (oembedUrl videoId) [] ;;
             if ok oembedResponse then
               oembedData <- lift (json oembedResponse) ;;
               ret (Some {| platform := youtube;
                            title := match d_title oembedData with
                                     | Some t => or_else t (js "YouTube Video")
                                     | None => js "YouTube Video"
                                     end;
                            thumbnail := js "https://i.ytimg.com/vi/" ++ videoId
                                            ++ js "/maxresdefault.jpg";
                            duration := 0;
                            qualities := defaultQualities |})
             else ret None)
            (fun _ => emit (EvConsole (js "oEmbed failed, trying ytdl-core:")) ;;;
                      ret None) ;;
    match m1 with
    | Some result => ret result
    | None =>
      (* Method 2: ytdl-core *)
      m2 <- try_catch
              (info <- do_getInfo W url ;;
               let fs := filterFormats_videoandaudio (formats info) in
               let qs := sortBy cmpQuality (qualityLabels fs) in
               ret (Some {| platform := youtube;
                            title := vd_title (videoDetails info);
                            thumbnail := or_else
                              (last (vd_thumbnails (videoDetails info)) []) [];
                            duration := match parseInt (vd_lengthSeconds
                                                          (videoDetails info)) with
                                        | Some n => n
                                        | None => 0
                                        end;
                            qualities := match qs with
                                         | [] => [js "720p"; js "360p"]
                                         | _ :: _ => qs
                                         end |}))
              (fun _ => emit (EvConsole (js "ytdl-core also failed:")) ;;;
                        ret None) ;;
      match m2 with
      | Some result => ret result
      | None =>
        (* Method 3: basic info from the video id *)
        ret {| platform := youtube;
               title := js "YouTube Video";
               thumbnail := js "https://i.ytimg.com/vi/" ++ videoId
                               ++ js "/hqdefault.jpg";
               duration := 0;
               qualities := [js "720p"; js "360p"] |}
      end
    end
  end.

(** [let x = dflt; if (field) x = field] *)
Definition field_or (field : option str) (dflt : str) : str :=
  match field with
  | Some v => if truthy v then v else dflt
  | None => dflt
  end.

Definition analyzeTikTok (W : World) (url : str) : M Metadata :=
  try_catch
    (data <- fetchFromRapidAPI W url ;;
     let title := field_or (d_title data) (js "TikTok Video") in
     let thumbnail := field_or (d_picture data) [] in
     let videoUrl :=
       match d_links data with
       | Some (l0 :: _) => l_link l0
       | _ => Some []
       end in
     if negb (opt_truthy videoUrl) then
       emit (EvConsole (js "RapidAPI Response:")) ;;;
       throw (js "No video found")
     else
       ret {| platform := tiktok;
              title := or_else title (js "TikTok Video");
              thumbnail := thumbnail;
              duration := 0;
              qualities := [js "HD"; js "SD"] |})
    (fun _ => emit (EvConsole (js "TikTok analysis error:")) ;;;
              throw (js "Failed to analyze TikTok video")).

Definition analyzeInstagram (W : World) (url : str) : M Metadata :=
  try_catch
    (data <- fetchFromRapidAPI W url ;;
     let title := field_or (d_title data) (js "Instagram Video") in
     let thumbnail := field_or (d_picture data) [] in
     ret {| platform := instagram;
            title := or_else title (js "Instagram Video");
            thumbnail := thumbnail;
            duration := 0;
            qualities := [js "HD"; js "SD"] |})
    (fun _ => emit (EvConsole (js "Instagram analysis error:")) ;;;
              throw (js "Failed to analyze Instagram video")).

Definition analyzeFacebook (W : World) (url : str) : M Metadata :=
  try_catch
    (data <- fetchFromRapidAPI W url ;;
     let title := field_or (d_title data) (js "Facebook Video") in
     let thumbnail := field_or (d_picture data) [] in
     ret {| platform := facebook;
            title := or_else title (js "Facebook Video");
            thumbnail := thumbnail;
            duration := 0;
            qualities := [js "HD"; js "SD"] |})
    (fun _ => emit (EvConsole (js "Facebook analysis error:")) ;;;
              throw (js "Failed to analyze Facebook video")).

Definition POST (W : World) (request_json : Result ReqJson) : M Response :=
  try_catch
    (body <- lift request_json ;;
     match body with
     | BodyNull =>
         throw (js "Cannot destructure property 'url' of 'body' as it is null.")
     | BodyFields (VStr url) _ =>
         if negb (truthy url) then
           ret (JsonMessage 400 (js "URL is required"))
         else
           match detectPlatform url with
           | youtube => result <- analyzeYouTube W url ;; ret (JsonMetadata result)
           | tiktok => result <- analyzeTikTok W url ;; ret (JsonMetadata result)
           | instagram => result <- analyzeInstagram W url ;; ret (JsonMetadata result)
           | facebook => result <- analyzeFacebook W url ;; ret (JsonMetadata result)
           | unknown =>
               ret (JsonMessage 400
                      (js "Unsupported platform. Use YouTube, TikTok, Instagram, or Facebook."))
           end
     | BodyFields _ _ => ret (JsonMessage 400 (js "URL is required"))
     end)
    (fun message => emit (EvConsole (js "Analysis error:")) ;;;
                    ret (JsonMessage 500 message)).

End Analyze.

(* ------------------------------------------------------------------ *)
(** ** [src/app/api/download/route.ts] *)

Module Download.

Definition USER_AGENT : str :=
  js "Mozilla/5.0 (Windows NT 10.0; Win64; x64) AppleWebKit/537.36 (KHTML, like Gecko) Chrome/120.0.0.0 Safari/537.36".

(** [attachment; filename="<filename>"] *)
Definition contentDisposition (filename : str) : str :=
  js "attachment; filename=" ++ [34%N] ++ filename ++ [34%N].

(** The values of its three headers are always accepted by
    [new Response]: two are built from literals of the source and the
    third was read from the [Headers] of the upstream response. *)
Definition streamVideo (W : World) (videoUrl filename : str) : M Response :=
  videoResponse <- do_fetch W videoUrl [(js "User-Agent", USER_AGENT)] ;;
  if negb (ok videoResponse) then
    throw (js "Failed to download video stream")
  else
    ret (Stream
           [(js "Content-Type", js "video/mp4");
            (js "Content-Disposition", contentDisposition filename);
            (js "Content-Length",
              match content_length videoResponse with
              | Some l => or_else l []
              | None => []
              end)]
           (body videoResponse)).

(** [f.qualityLabel === quality] *)
Definition label_is (quality : JsVal) (f : Format) : bool :=
  match qualityLabel f, quality with
  | Some l, VStr q => JsString.eqb l q
  | None, VNull => true
  | _, _ => false
  end.

(** [formats.find(...)], then [formats[0]] when nothing was found. *)
Definition selectFormat (formats : list Format) (quality : JsVal) : option Format :=
  match find (label_is quality) formats with
  | Some f => Some f
  | None => nth_error formats 0
  end.

(** [ytdl(url, { format })]: the stream is handed back at once; whatever
    the transfer does later arrives as events of that stream. *)
Definition do_ytdl (W : World) (url : str) (format : Format) : M BodyStream :=
  fun tr => (Ok (ytdl_download W tr url format), tr ++ [EvYtdl url format]).

(** [title.replace(/[^\w\s-]/g, "").substring(0, 50)] followed by [.mp4] *)
Definition youtubeFilename (title : str) : str :=
  firstn 50 (filter (fun c => isWord c || isWhiteSpace c || N.eqb c 45) title)
    ++ js ".mp4".

Definition YOUTUBE_UNAVAILABLE : str :=
  js "YouTube download is currently unavailable on this server. YouTube blocks requests from cloud servers. Please try TikTok, Instagram, or Facebook videos instead.".

(** The [try] block of [downloadYouTube].  The title is cleaned with
    [\w], [\s] and [-]; what [\s] keeps of line feeds, carriage returns and
    white space above 255 makes [new Response] throw, inside the [try]. *)
Definition downloadYouTube_try (W : World) (url : str) (quality : JsVal)
  : M Response :=
  info <- Analyze.do_getInfo W url ;;
  let formats := filterFormats_videoandaudio (formats info) in
  match selectFormat formats quality with
  | None => throw (js "No suitable format found")
  | Some selectedFormat =>
      webStream <- do_ytdl W url selectedFormat ;;
      newResponse
        [(js "Content-Type", js "video/mp4");
         (js "Content-Disposition",
           contentDisposition (youtubeFilename (vd_title (videoDetails info))));
         (js "Transfer-Encoding", js "chunked")]
        webStream
  end.

Definition downloadYouTube (W : World) (url : str) (quality : JsVal) : M Response :=
  try_catch (downloadYouTube_try W url quality)
    (fun _ => emit (EvConsole (js "YouTube download error:")) ;;;
              throw YOUTUBE_UNAVAILABLE).

(** [data.links[0].link] guarded by [data.links && data.links.length > 0];
    the empty string otherwise. *)
Definition firstLink (data : Doc) : option str :=
  match d_links data with
  | Some (l0 :: _) => l_link l0
  | _ => Some []
  end.

(** The Facebook choice: the link of the first entry whose quality is
    ["hd"], else the first link. *)
Definition hdOrFirstLink (data : Doc) : option str :=
  match d_links data with
  | Some (l0 :: rest) =>
      match find (fun l => match l_quality l with
                           | Some q => JsString.eqb q (js "hd")
                           | None => false
                           end) (l0 :: rest) with
      | Some hdLink => l_link hdLink
      | None => l_link l0
      end
  | _ => Some []
  end.

(** The body of the three RapidAPI downloaders after the link is chosen. *)
Definition streamChosen (W : World) (videoUrl : option str) (filename : str)
  : M Response :=
  match videoUrl with
  | Some u =>
      if negb (truthy u) then throw (js "No video link found from RapidAPI")
      else streamVideo W u filename
  | None => throw (js "No video link found from RapidAPI")
  end.

(** The [try] blocks of the three RapidAPI downloaders. *)
Definition downloadTikTok_try (W : World) (url : str) : M Response :=
  data <- fetchFromRapidAPI W url ;;
  streamChosen W (firstLink data) (js "tiktok_video.mp4").

Definition downloadInstagram_try (W : World) (url : str) : M Response :=
  data <- fetchFromRapidAPI W url ;;
  streamChosen W (firstLink data) (js "instagram_video.mp4").

Definition downloadFacebook_try (W : World) (url : str) : M Response :=
  data <- fetchFromRapidAPI W url ;;
  streamChosen W (hdOrFirstLink data) (js "facebook_video.mp4").

Definition downloadTikTok (W : World) (url : str) : M Response :=
  try_catch (downloadTikTok_try W url)
    (fun _ => emit (EvConsole (js "TikTok download error:")) ;;;
              throw (js "Failed to download TikTok video via RapidAPI")).

Definition downloadInstagram (W : World) (url : str) : M Response :=
  try_catch (downloadInstagram_try W url)
    (fun _ => emit (EvConsole (js "Instagram download error:")) ;;;
              throw (js "Failed to download Instagram video via RapidAPI")).

Definition downloadFacebook (W : World) (url : str) : M Response :=
  try_catch (downloadFacebook_try W url)
    (fun _ => emit (EvConsole (js "Facebook download error:")) ;;;
              throw (js "Failed to download Facebook video via RapidAPI")).

Definition POST (W : World) (request_json : Result ReqJson) : M Response :=
  try_catch
    (body <- lift request_json ;;
     match body with
     | BodyNull =>
         throw (js "Cannot destructure property 'url' of 'body' as it is null.")
     | BodyFields (VStr url) q =>
         let quality := match q with VUndefined => VStr (js "720p") | _ => q end in
         if negb (truthy url) then
           ret (JsonMessage 400 (js "URL is required"))
         else
           match detectPlatform url with
           | youtube => downloadYouTube W url quality
           | tiktok => downloadTikTok W url
           | instagram => downloadInstagram W url
           | facebook => downloadFacebook W url
           | unknown => ret (JsonMessage 400 (js "Unsupported platform"))
           end
     | BodyFields _ _ => ret (JsonMessage 400 (js "URL is required"))
     end)
    (fun message => emit (EvConsole (js "Download error:")) ;;;
                    ret (JsonMessage 500 message)).

End Download.

(* ------------------------------------------------------------------ *)
(** ** [src/lib/store.ts] *)

Module Store.

Inductive Status :=
| pending | analyzing | ready | downloading | completed | error.

Definition Status_eqb (a b : Status) : bool :=
  match a, b with
  | pending, pending | analyzing, analyzing | ready, ready
  | downloading, downloading | completed, completed | error, error => true
  | _, _ => false
  end.

Record VideoInfo := {
  id : N;
  url : str;
  v_platform : Platform;
  v_title : str;
  v_thumbnail : str;
  v_duration : Z;
  v_qualities : list str;
  selectedQuality : option str;      (* undefined when no quality exists *)
  status : Status;
  progress : Z;
  v_error : option str }.

(** [Partial<VideoInfo>] as the components pass it to [updateVideo]. *)
Record Updates := {
  u_title : option str;
  u_thumbnail : option str;
  u_duration : option Z;
  u_qualities : option (list str);
  u_selectedQuality : option (option str);
  u_status : option Status;
  u_progress : option Z;
  u_error : option str }.

Definition over {A} (o : option A) (old : A) : A :=
  match o with Some x => x | None => old end.

(** [{ ...v, ...updates }] *)
Definition merge (v : VideoInfo) (u : Updates) : VideoInfo :=
  {| id := id v;
     url := url v;
     v_platform := v_platform v;
     v_title := over (u_title u) (v_title v);
     v_thumbnail := over (u_thumbnail u) (v_thumbnail v);
     v_duration := over (u_duration u) (v_duration v);
     v_qualities := over (u_qualities u) (v_qualities v);
     selectedQuality := over (u_selectedQuality u) (selectedQuality v);
     status := over (u_status u) (status v);
     progress := over (u_progress u) (progress v);
     v_error := match u_error u with Some e => Some e | None => v_error v end |}.

(** The patterns of the client-side [detectPlatform], in the order of the
    object literal, each with its flag. *)
Definition re_youtube : regex :=
  Alt (Seq (Lit (js "youtube.com/"))
           (Alt (Lit (js "watch?v=")) (Lit (js "shorts/"))))
      (Lit (js "youtu.be/")).
Definition re_tiktok : regex :=
  Alt (Seq (Lit (js "tiktok.com/@"))
           (Seq (Plus (Cls false [CWord; CChar 46; CChar 45]))
                (Lit (js "/video/"))))
      (Lit (js "vm.tiktok.com/")).
Definition re_instagram : regex :=
  Seq (Lit (js "instagram.com/"))
      (Seq (Alt (Lit (js "p")) (Alt (Lit (js "reel")) (Lit (js "reels"))))
           (Lit (js "/"))).
Definition re_facebook : regex :=
  Alt (Seq (Lit (js "facebook.com/")) (Seq (Star Dot) (Lit (js "/videos/"))))
      (Lit (js "fb.watch/")).

Definition patterns : list (Platform * (bool * regex)) :=
  [ (youtube, (true, re_youtube));
    (tiktok, (true, re_tiktok));
    (instagram, (true, re_instagram));
    (facebook, (true, re_facebook));
    (unknown, (false, Star Dot)) ].

Definition isUnknown (p : Platform) : bool :=
  match p with unknown => true | _ => false end.

(** [for (const [platform, regex] of Object.entries(patterns)) ...] *)
Fixpoint firstMatch (ps : list (Platform * (bool * regex))) (url : str) : Platform :=
  match ps with
  | [] => unknown
  | (p, (i, re)) :: ps' =>
      if negb (isUnknown p) && test i re url then p else firstMatch ps' url
  end.

Definition detectPlatform (url : str) : Platform := firstMatch patterns url.

Definition Videos := list VideoInfo.

(** [addVideo]; [uuid] is the value of [crypto.randomUUID()]. *)
Definition addVideo (uuid : N) (u : str) (videos : Videos) : Videos :=
  videos ++
    [ {| id := uuid; url := u; v_platform := detectPlatform u;
         v_title := []; v_thumbnail := []; v_duration := 0;
         v_qualities := []; selectedQuality := Some (js "720p");
         status := pending; progress := 0; v_error := None |} ].

Definition updateVideo (i : N) (u : Updates) (videos : Videos) : Videos :=
  map (fun v => if N.eqb (id v) i then merge v u else v) videos.

Definition removeVideo (i : N) (videos : Videos) : Videos :=
  filter (fun v => negb (N.eqb (id v) i)) videos.

Definition clearCompleted (videos : Videos) : Videos :=
  filter (fun v => negb (Status_eqb (status v) completed)) videos.

End Store.

(* ------------------------------------------------------------------ *)
(** ** [src/components/url-input.tsx] and [src/components/video-card.tsx]

    A handler runs to its first [await] without interruption and resumes
    when the awaited promise settles.  Each such piece is one action on the
    store; the handlers in flight are kept as tasks. *)

Module UI.
Import Store.

Inductive Task :=
| Added (id : N)             (* handleAnalyze, after addVideo *)
| AwaitAnalyze (id : N)      (* handleAnalyze, awaiting /api/analyze *)
| AwaitDownload (id : N).    (* handleDownload, awaiting /api/download *)

Definition task_id (t : Task) : N :=
  match t with Added i | AwaitAnalyze i | AwaitDownload i => i end.

Definition Task_eqb (a b : Task) : bool :=
  match a, b with
  | Added i, Added j | AwaitAnalyze i, AwaitAnalyze j
  | AwaitDownload i, AwaitDownload j => N.eqb i j
  | _, _ => false
  end.

Record State := {
  videos : Videos;
  tasks : list Task;
  issued : list N }.          (* the UUIDs handed out so far *)

Definition init : State := {| videos := []; tasks := []; issued := [] |}.

(** The JSON answer of /api/analyze as [handleAnalyze] reads it. *)
Record AnalyzeData := {
  a_title : str;
  a_thumbnail : str;
  a_duration : Z;
  a_qualities : list str }.

Inductive Action :=
| AnalyzeSubmit (url : str) (uuid : N)   (* handleAnalyze up to addVideo *)
| AnalyzeMark (id : N)                   (* updateVideo(videoId, { status: "analyzing" }) *)
| AnalyzeOk (id : N) (data : AnalyzeData)
| AnalyzeFail (id : N) (message : str)
| DownloadClick (id : N)                 (* handleDownload up to the fetch *)
| DownloadProgress (id : N) (percent : Z)
| DownloadOk (id : N)
| DownloadFail (id : N) (message : str)
| Remove (id : N)                        (* the X button *)
| ClearCompleted
| SelectQuality (id : N) (quality : str). (* handleQualityChange *)

Definition maxVideos : nat := 5.

Definition hasTask (t : Task) (s : State) : bool :=
  existsb (Task_eqb t) (tasks s).

Fixpoint dropTask (t : Task) (l : list Task) : list Task :=
  match l with
  | [] => []
  | x :: l' => if Task_eqb t x then l' else x :: dropTask t l'
  end.

Definition hasId (i : N) (v : VideoInfo) : bool := N.eqb (id v) i.

Definition findVideo (i : N) (s : State) : option VideoInfo :=
  find (hasId i) (videos s).

Definition status_of (i : N) (s : State) : option Status :=
  option_map status (findVideo i s).

(** The quality selector and the Download button of a card exist only
    while the video is ready. *)
Definition isReady (i : N) (s : State) : bool :=
  match status_of i s with Some ready => true | _ => false end.

Definition readyUpdates (data : AnalyzeData) : Updates :=
  {| u_title := Some (a_title data);
     u_thumbnail := Some (a_thumbnail data);
     u_duration := Some (a_duration data);
     u_qualities := Some (a_qualities data);
     u_selectedQuality :=
       Some (if existsb (JsString.eqb (js "720p")) (a_qualities data)
             then Some (js "720p") else nth_error (a_qualities data) 0);
     u_status := Some ready;
     u_progress := None; u_error := None |}.

Definition statusUpdate (st : Status) (p : option Z) (e : option str) : Updates :=
  {| u_title := None; u_thumbnail := None; u_duration := None;
     u_qualities := None; u_selectedQuality := None;
     u_status := Some st; u_progress := p; u_error := e |}.

(** One action; [None] when the action cannot happen in the state (no
    such handler in flight, no such button, a UUID handed out twice). *)
Definition perform (a : Action) (s : State) : option State :=
  match a with
  | AnalyzeSubmit u uuid =>
      if existsb (N.eqb uuid) (issued s) then None
      else if negb (trim_nonempty u) then Some s
      else if isUnknown (detectPlatform u) then Some s
      else if (maxVideos <=? length (videos s))%nat then Some s
      else if existsb (fun v => JsString.eqb (url v) u) (videos s) then Some s
      else Some {| videos := addVideo uuid u (videos s);
                   tasks := Added uuid :: tasks s;
                   issued := uuid :: issued s |}
  | AnalyzeMark i =>
      if hasTask (Added i) s then
        Some {| videos := updateVideo i (statusUpdate analyzing None None) (videos s);
                tasks := AwaitAnalyze i :: dropTask (Added i) (tasks s);
                issued := issued s |}
      else None
  | AnalyzeOk i data =>
      if hasTask (AwaitAnalyze i) s then
        Some {| videos := updateVideo i (readyUpdates data) (videos s);
                tasks := dropTask (AwaitAnalyze i) (tasks s);
                issued := issued s |}
      else None
  | AnalyzeFail i message =>
      if hasTask (AwaitAnalyze i) s then
        Some {| videos := updateVideo i (statusUpdate error None (Some message)) (videos s);
                tasks := dropTask (AwaitAnalyze i) (tasks s);
                issued := issued s |}
      else None
  | DownloadClick i =>
      if isReady i s then
        Some {| videos := updateVideo i (statusUpdate downloading (Some 0%Z) None) (videos s);
                tasks := AwaitDownload i :: tasks s;
                issued := issued s |}
      else None
  | DownloadProgress i percent =>
      if hasTask (AwaitDownload i) s then
        Some {| videos := updateVideo i
                            {| u_title := None; u_thumbnail := None;
                               u_duration := None; u_qualities := None;
                               u_selectedQuality := None; u_status := None;
                               u_progress := Some percent; u_error := None |}
                            (videos s);
                tasks := tasks s;
                issued := issued s |}
      else None
  | DownloadOk i =>
      if hasTask (AwaitDownload i) s then
        Some {| videos := updateVideo i (statusUpdate completed (Some 100%Z) None) (videos s);
                tasks := dropTask (AwaitDownload i) (tasks s);
                issued := issued s |}
      else None
  | DownloadFail i message =>
      if hasTask (AwaitDownload i) s then
        Some {| videos := updateVideo i (statusUpdate error None (Some message)) (videos s);
                tasks := dropTask (AwaitDownload i) (tasks s);
                issued := issued s |}
      else None
  | Remove i =>
      Some {| videos := removeVideo i (videos s);
              tasks := tasks s; issued := issued s |}
  | ClearCompleted =>
      Some {| videos := clearCompleted (videos s);
              tasks := tasks s; issued := issued s |}
  | SelectQuality i quality =>
      if isReady i s then
        Some {| videos := updateVideo i
                            {| u_title := None; u_thumbnail := None;
                               u_duration := None; u_qualities := None;
                               u_selectedQuality := Some (Some quality);
                               u_status := None;
                               u_progress := None; u_error := None |}
                            (videos s);
                tasks := tasks s;
                issued := issued s |}
      else None
  end.

(** The states an execution goes through, the start state first. *)
Fixpoint run (acts : list Action) (s : State) : option (list State) :=
  match acts with
  | [] => Some [s]
  | a :: acts' =>
      match perform a s with
      | Some s' => option_map (cons s) (run acts' s')
      | None => None
      end
  end.

(** The transitions of the status of one video. *)
Definition allowed (a b : Status) : bool :=
  match a, b with
  | pending, analyzing
  | analyzing, ready | analyzing, error
  | ready, downloading
  | downloading, completed | downloading, error => true
  | _, _ => Status_eqb a b
  end.

End UI.

(* ------------------------------------------------------------------ *)
(** ** Notions used to state the properties *)

Module Spec.

(** [url] contains the text [lit], the case of ASCII letters ignored. *)
Definition contains_ci (lit url : str) : Prop :=
  exists pre w suf, url = pre ++ w ++ suf /\ map canon w = map canon lit.

(** Where the qualities of a successful analysis come from. *)
Definition qualities_origin (W : World) (qs : list str) : Prop :=
  qs = Analyze.defaultQualities \/
  qs = [js "720p"; js "360p"] \/
  qs = [js "HD"; js "SD"] \/
  exists tr url info,
    ytdl_getInfo W tr url = Ok info /\
    qs = sortBy cmpQuality
           (Analyze.qualityLabels (filterFormats_videoandaudio (formats info))).


(** [f] is a combined audio+video format: one with video, with audio, and
    with a URL to fetch it from, which is what the library lists under
    ["videoandaudio"]. *)
Definition combined (f : Format) : Prop :=
  hasVideo f = true /\ hasAudio f = true /\
  exists u, f_url f = Some u /\ u <> [].


(** The YouTube download streams format [f]: after [getInfo] the handler
    asks ytdl-core for [f] and answers with that stream. *)
Definition streams_format (W : World) (url : str) (quality : JsVal)
           (tr : Trace) (f : Format) : Prop :=
  exists headers,
    Download.downloadYouTube W url quality tr
    = (Ok (Stream headers (ytdl_download W (tr ++ [EvGetInfo url]) url f)),
       (tr ++ [EvGetInfo url]) ++ [EvYtdl url f]).

(** A code unit that may stand inside a header value: a byte other than
    NUL, line feed and carriage return. *)
Definition headerByte (c : N) : bool :=
  ((c <=? 255) && negb (N.eqb c 0 || N.eqb c 10 || N.eqb c 13))%N.

(** The file name made from the title of [info] holds only such code
    units. *)
Definition nameAccepted (info : YtInfo) : bool :=
  forallb headerByte (Download.youtubeFilename (vd_title (videoDetails info))).

(** The YouTube download selects format [f]: after [getInfo] it is [f],
    and nothing else, that the handler asks ytdl-core for.  The answer is
    that stream when the file name made from the title can stand in a
    header; when it cannot, [new Response] throws and the download fails
    after the stream was opened, under the downloader's message. *)
Definition selects (W : World) (url : str) (quality : JsVal) (tr : Trace)
           (info : YtInfo) (f : Format) : Prop :=
  snd (Download.downloadYouTube_try W url quality tr)
    = (tr ++ [EvGetInfo url]) ++ [EvYtdl url f] /\
  (nameAccepted info = true -> streams_format W url quality tr f) /\
  (nameAccepted info = false ->
   Download.downloadYouTube W url quality tr
   = (Throw Download.YOUTUBE_UNAVAILABLE,
      ((tr ++ [EvGetInfo url]) ++ [EvYtdl url f])
        ++ [EvConsole (js "YouTube download error:")])).

(** [l] is tagged ["hd"]. *)
Definition is_hd (l : Link) : Prop := l_quality l = Some (js "hd").

(** [h] is the first entry of [links] tagged ["hd"]. *)
Definition first_hd (links : list Link) (h : Link) : Prop :=
  exists pre post, links = pre ++ h :: post /\ is_hd h /\
                   forall g, In g pre -> ~ is_hd g.

(** The link of the first entry of the list; nothing when the list is
    absent or empty. *)
Inductive first_pick (doc : Doc) : option str -> Prop :=
| fp_absent : d_links doc = None -> first_pick doc None
| fp_empty : d_links doc = Some [] -> first_pick doc None
| fp_first l0 rest : d_links doc = Some (l0 :: rest) -> first_pick doc (l_link l0).

(** The link of the first entry tagged ["hd"], else the link of the first
    entry; nothing when the list is absent or empty. *)
Inductive hd_pick (doc : Doc) : option str -> Prop :=
| hp_absent : d_links doc = None -> hd_pick doc None
| hp_empty : d_links doc = Some [] -> hd_pick doc None
| hp_hd links h :
    d_links doc = Some links -> first_hd links h -> hd_pick doc (l_link h)
| hp_first l0 rest :
    d_links doc = Some (l0 :: rest) ->
    (forall g, In g (l0 :: rest) -> ~ is_hd g) -> hd_pick doc (l_link l0).

(** A link that can be fetched: present and not the empty string. *)
Definition usable (o : option str) : Prop := exists u, o = Some u /\ u <> [].

Definition NO_LINK : str := js "No video link found from RapidAPI".

(** The URL and the headers of the aggregation request. *)
Definition apiRequest (W : World) (encoded : str) : Event :=
  EvFetch (js "https://" ++ RAPIDAPI_HOST ++ js "/smvd/get/all?url=" ++ encoded)
          [(js "x-rapidapi-key", RAPIDAPI_KEY W);
           (js "x-rapidapi-host", RAPIDAPI_HOST)].

(** Position of a platform's rule in the order the server tries them. *)
Definition rank (p : Platform) : nat :=
  match p with
  | youtube => 0 | tiktok => 1 | instagram => 2 | facebook => 3 | unknown => 4
  end.

(** The server-side pattern of a platform. *)
Definition server_rule (p : Platform) : regex :=
  match p with
  | youtube => Route.re_youtube
  | tiktok => Route.re_tiktok
  | instagram => Route.re_instagram
  | facebook => Route.re_facebook
  | unknown => Star Dot
  end.

(** Some part of [w] is a word of [r]. *)
Definition contains_word (i : bool) (r : regex) (w : str) : Prop :=
  exists a m b, w = a ++ m ++ b /\ matches i r m.

(** The status a video has while a handler is in flight for it. *)
Definition expected (t : UI.Task) : Store.Status :=
  match t with
  | UI.Added _ => Store.pending
  | UI.AwaitAnalyze _ => Store.analyzing
  | UI.AwaitDownload _ => Store.downloading
  end.

(** Facts that hold in every state the components can reach: every id in
    the store or in a task was handed out by [crypto.randomUUID()], no id
    occurs twice, and a video with a handler in flight has the status that
    handler left it in. *)
Record Inv (s : UI.State) : Prop := {
  inv_ids : forall v, In v (UI.videos s) -> In (Store.id v) (UI.issued s);
  inv_nodup : NoDup (map Store.id (UI.videos s));
  inv_tasks : forall t, In t (UI.tasks s) -> In (UI.task_id t) (UI.issued s);
  inv_tasks_nodup : NoDup (map UI.task_id (UI.tasks s));
  inv_expected : forall t st, In t (UI.tasks s) ->
                   UI.status_of (UI.task_id t) s = Some st -> st = expected t }.

(** What one action may do to the status of video [i]. *)
Definition step_ok (i : N) (s s' : UI.State) : Prop :=
  match UI.status_of i s, UI.status_of i s' with
  | Some a, Some b => UI.allowed a b = true
  | None, Some b => b = Store.pending /\ ~ In i (UI.issued s)
  | _, None => True
  end.

(** The statuses that follow a finished analysis. *)
Definition analysed (o : option Store.Status) : Prop :=
  o = Some Store.ready \/ o = Some Store.downloading \/
  o = Some Store.completed \/ o = Some Store.error.

(** The statuses from which no analysis can start again. *)
Definition past_download (o : option Store.Status) : Prop :=
  o = None \/ o = Some Store.downloading \/
  o = Some Store.completed \/ o = Some Store.error.

End Spec.
Import Spec.

(* ------------------------------------------------------------------ *)
(** ** Sample environments, used to run the handlers on concrete inputs *)

Module Samples.

Definition noBody : BodyStream := {| chunks := []; ending := Ended |}.

Definition jsonResponse (st : N) (text : str) (doc : Doc) : FetchResponse :=
  {| status := st; statusText := text; content_length := None;
     json := Ok doc; body := noBody |}.

Definition mediaResponse (st : N) (text : str) (bytes : list N) : FetchResponse :=
  {| status := st; statusText := text;
     content_length := Some (js "4");
     json := Throw (js "Unexpected token");
     body := {| chunks := [bytes]; ending := Ended |} |}.

Definition isFetch (e : Event) : bool :=
  match e with EvFetch _ _ => true | _ => false end.

(** A world whose n-th [fetch] gets the n-th scripted answer. *)
Definition scripted (key : option str) (answers : list (Result FetchResponse))
           (info : Result YtInfo) (media : BodyStream) : World :=
  {| env_RAPIDAPI_KEY := key;
     fetch := fun tr _ _ =>
                nth (length (filter isFetch tr)) answers
                    (Throw (js "fetch failed"));
     ytdl_getInfo := fun _ _ => info;
     ytdl_download := fun _ _ _ => media |}.

Definition offline : World :=
  scripted None [] (Throw (js "getInfo failed")) noBody.

Definition docOf (t : option str) (links : option (list Link)) : Doc :=
  {| d_title := t; d_picture := None; d_links := links |}.

Definition sdThenHd : list Link :=
  [ {| l_quality := Some (js "sd"); l_link := Some (js "https://cdn.example/sd.mp4") |};
    {| l_quality := Some (js "hd"); l_link := Some (js "https://cdn.example/hd.mp4") |} ].

Definition fmt (tag : N) (label : str) : Format :=
  {| itag := tag; f_url := Some (js "https://media.example/videoplayback");
     qualityLabel := Some label; hasVideo := true; hasAudio := true |}.

Definition sampleInfo : YtInfo :=
  {| formats := [ fmt 22 (js "720p"); fmt 18 (js "360p");
                  {| itag := 140;
                     f_url := Some (js "https://media.example/audio");
                     qualityLabel := None;
                     hasVideo := false; hasAudio := true |} ];
     videoDetails := {| vd_title := js "Sample: clip!";
                        vd_thumbnails := [js "https://i.ytimg.com/vi/x/1.jpg"];
                        vd_lengthSeconds := js "212" |} |}.

Definition watchUrl : str := js "https://www.youtube.com/watch?v=dQw4w9WgXcQ".

Definition watchRequest : Result ReqJson :=
  Ok (BodyFields (VStr watchUrl) VUndefined).

(** oEmbed unreachable, ytdl-core answers. *)
Definition ytdlOnly : World := scripted None [] (Ok sampleInfo) noBody.

(** oEmbed answers with the given title. *)
Definition oembedWorld (t : option str) : World :=
  scripted None [Ok (jsonResponse 200 (js "OK") (docOf t None))]
           (Throw (js "getInfo failed")) noBody.

Definition fetchedUrls (tr : Trace) : list str :=
  flat_map (fun e => match e with EvFetch u _ => [u] | _ => [] end) tr.

Definition tiktokUrl : str := js "https://vm.tiktok.com/ABC123".
Definition facebookUrl : str := js "https://fb.watch/abc/".

Definition apiUrlOf (encoded : str) : str :=
  js "https://social-media-video-downloader.p.rapidapi.com/smvd/get/all?url="
     ++ encoded.

Definition someBytes : list N := [0; 0; 0; 32]%N.

(** The aggregation API lists an sd link before an hd link; every media
    fetch succeeds. *)
Definition sdThenHdWorld : World :=
  scripted None
    [ Ok (jsonResponse 200 (js "OK") (docOf None (Some sdThenHd)));
      Ok (mediaResponse 200 (js "OK") someBytes) ]
    (Throw (js "getInfo failed")) noBody.

(** The entry tagged hd has an empty link. *)
Definition hdEmpty : list Link :=
  [ {| l_quality := Some (js "hd"); l_link := Some [] |};
    {| l_quality := Some (js "sd"); l_link := Some (js "https://cdn.example/sd.mp4") |} ].

Definition hdEmptyWorld : World :=
  scripted None
    [ Ok (jsonResponse 200 (js "OK") (docOf None (Some hdEmpty)));
      Ok (mediaResponse 200 (js "OK") someBytes) ]
    (Throw (js "getInfo failed")) noBody.

(** The media fetch is refused with 403. *)
Definition forbiddenWorld : World :=
  scripted None
    [ Ok (jsonResponse 200 (js "OK") (docOf None (Some sdThenHd)));
      Ok (mediaResponse 403 (js "Forbidden") []) ]
    (Throw (js "getInfo failed")) noBody.

(** ytdl-core lists the formats; the media transfer it starts is refused. *)
Definition ytdlForbidden : World :=
  scripted None [] (Ok sampleInfo)
           {| chunks := []; ending := Errored (js "Status code: 403") |}.

(** One video, analysed and then downloaded. *)
Definition sampleActions : list UI.Action :=
  [ UI.AnalyzeSubmit watchUrl 1;
    UI.AnalyzeMark 1;
    UI.AnalyzeOk 1 {| UI.a_title := js "Sample"; UI.a_thumbnail := [];
                      UI.a_duration := 0;
                      UI.a_qualities := [js "720p"; js "360p"] |};
    UI.DownloadClick 1;
    UI.DownloadProgress 1 50;
    UI.DownloadOk 1 ].

Definition sampleStates : list UI.State :=
  match UI.run sampleActions UI.init with
  | Some states => states
  | None => []
  end.

(** ytdl-core answers with the formats of [sampleInfo] under the given
    title. *)
Definition titledInfo (t : str) : YtInfo :=
  {| formats := formats sampleInfo;
     videoDetails := {| vd_title := t;
                        vd_thumbnails := [];
                        vd_lengthSeconds := js "212" |} |}.
Definition titledWorld (t : str) : World :=
  scripted None [] (Ok (titledInfo t)) noBody.
Definition lineBreakTitle : str := js "Line1" ++ [10%N] ++ js "Line2".
Definition wideSpaceTitle : str := js "A" ++ [12288%N] ++ js "B".

(** Formats labelled 720p that are not combined (no audio; no URL) before
    one that is. *)
Definition mixedInfo : YtInfo :=
  {| formats := [ {| itag := 136;
                     f_url := Some (js "https://media.example/video-only");
                     qualityLabel := Some (js "720p");
                     hasVideo := true; hasAudio := false |};
                  {| itag := 22; f_url := None;
                     qualityLabel := Some (js "720p");
                     hasVideo := true; hasAudio := true |};
                  fmt 18 (js "360p") ];
     videoDetails := videoDetails sampleInfo |}.
Definition mixedWorld : World := scripted None [] (Ok mixedInfo) noBody.

(** A state of that execution and the video in its queue. *)
Definition blankVideo : Store.VideoInfo :=
  {| Store.id := 0; Store.url := []; Store.v_platform := unknown;
     Store.v_title := []; Store.v_thumbnail := []; Store.v_duration := 0;
     Store.v_qualities := []; Store.selectedQuality := None;
     Store.status := Store.pending; Store.progress := 0;
     Store.v_error := None |}.
Definition queuedState : UI.State := nth 4 sampleStates UI.init.
Definition queuedVideo : Store.VideoInfo :=
  nth 0 (UI.videos queuedState) blankVideo.

End Samples.

(* ------------------------------------------------------------------ *)
(** ** Helpers of the client: [formatDuration] of [src/lib/store.ts] and
    the file name chosen by [handleDownload] of
    [src/components/video-card.tsx] *)

Module Client.

(** [n.toString()] for a non-negative integer [n]; the number of binary
    digits bounds the number of decimal digits. *)
Fixpoint decimal (fuel : nat) (n : N) : str :=
  match fuel with
  | O => []
  | S f =>
      if (n <? 10)%N then [(48 + n)%N]
      else decimal f (n / 10)%N ++ [(48 + n mod 10)%N]
  end.

Definition toString (n : N) : str := decimal (S (N.size_nat n)) n.

(** [s.padStart(2, "0")] *)
Definition padStart2 (s : str) : str :=
  repeat 48%N (2 - length s) ++ s.

(** [formatDuration]; the card calls it only when [video.duration > 0],
    and it is modelled on the non-negative integers. *)
Definition formatDuration (seconds : N) : str :=
  let mins := (seconds / 60)%N in
  let secs := (seconds mod 60)%N in
  toString mins ++ js ":" ++ padStart2 (toString secs).

(** [s.match(/P(G)Q/)] with one capture group between [P] and [Q]: the
    result is [match[1]]. *)
Definition match_group1_mid (i : bool) (pre grp post : regex) (s : str)
  : option str :=
  search i pre s
    (fun s1 => mt i grp s1
       (fun s2 => mt i post s2
          (fun _ => Some (firstn (length s1 - length s2) s1)))).

(** The pieces of [/filename="?(.+)"?/]. *)
Definition optQuote : regex := Alt (Chr 34) Eps.
Definition filenamePre : regex := Seq (Lit (js "filename=")) optQuote.
Definition filenameGroup : regex := Plus Dot.

(** The file name [handleDownload] saves under: [match[1]] of the
    content-disposition header when there is a header and it matches,
    else the title (or "video") followed by ".mp4". *)
Definition downloadFilename (contentDisposition : option str) (title : str) : str :=
  let filename := or_else title (js "video") ++ js ".mp4" in
  match contentDisposition with
  | Some h =>
      if truthy h then
        match match_group1_mid false filenamePre filenameGroup optQuote h with
        | Some m1 => m1
        | None => filename
        end
      else filename
  | None => filename
  end.

End Client.

(* ------------------------------------------------------------------ *)
(** ** Further notions used to state properties *)

Module Notions.

(** A character the id patterns stop at: [&], line feed, [?], [#]. *)
Definition idStop (c : N) : bool :=
  (N.eqb c 38 || N.eqb c 10 || N.eqb c 63 || N.eqb c 35)%N.

(** The five texts an id may follow. *)
Definition idLead (w : str) : Prop :=
  w = js "youtube.com/watch?v=" \/ w = js "youtu.be/" \/
  w = js "youtube.com/embed/" \/ w = js "youtube.com/v/" \/
  w = js "youtube.com/shorts/".

(** The oEmbed attempt of [analyzeYouTube] yields nothing, and leaves the
    trace [tr1]: the fetch is rejected, or answers with a non-success
    status, or its body does not parse. *)
Inductive oembed_fails (W : World) (tr : Trace) (videoId : str) : Trace -> Prop :=
| of_rejected e :
    fetch W tr (Analyze.oembedUrl videoId) [] = Throw e ->
    oembed_fails W tr videoId
      (tr ++ [EvFetch (Analyze.oembedUrl videoId) [];
              EvConsole (js "oEmbed failed, trying ytdl-core:")])
| of_status resp :
    fetch W tr (Analyze.oembedUrl videoId) [] = Ok resp -> ok resp = false ->
    oembed_fails W tr videoId (tr ++ [EvFetch (Analyze.oembedUrl videoId) []])
| of_body resp e :
    fetch W tr (Analyze.oembedUrl videoId) [] = Ok resp -> ok resp = true ->
    json resp = Throw e ->
    oembed_fails W tr videoId
      (tr ++ [EvFetch (Analyze.oembedUrl videoId) [];
              EvConsole (js "oEmbed failed, trying ytdl-core:")]).

(** Calls that leave the server. *)
Definition isNetwork (e : Event) : bool :=
  match e with
  | EvFetch _ _ | EvGetInfo _ | EvYtdl _ _ => true
  | EvConsole _ => false
  end.

Definition networkCalls (tr : Trace) : nat := length (filter isNetwork tr).

Definition isStream (r : Response) : bool :=
  match r with Stream _ _ => true | _ => false end.

(** The message each route reports for a platform whose extractor failed. *)
Definition analyzeFailure (p : Platform) : str :=
  match p with
  | tiktok => js "Failed to analyze TikTok video"
  | instagram => js "Failed to analyze Instagram video"
  | facebook => js "Failed to analyze Facebook video"
  | _ => []
  end.

Definition downloadFailure (p : Platform) : str :=
  match p with
  | youtube => Download.YOUTUBE_UNAVAILABLE
  | tiktok => js "Failed to download TikTok video via RapidAPI"
  | instagram => js "Failed to download Instagram video via RapidAPI"
  | facebook => js "Failed to download Facebook video via RapidAPI"
  | unknown => []
  end.

(** The numeric value of a quality label, as the sort comparator reads
    it. *)
Definition labelValue (l : str) : Z :=
  match parseInt l with Some n => n | None => 0%Z end.

(** [a] may come before [b] in a list sorted from the highest value. *)
Definition descending (a b : str) : Prop := (labelValue b <= labelValue a)%Z.

(** The file name of a download, as the server sets it. *)
Definition downloadName (p : Platform) : str :=
  match p with
  | tiktok => js "tiktok_video.mp4"
  | instagram => js "instagram_video.mp4"
  | facebook => js "facebook_video.mp4"
  | _ => []
  end.

(** [q] is a non-empty quality label of a combined audio+video format. *)
Definition offered (info : YtInfo) (q : str) : Prop :=
  q <> [] /\
  exists f, In f (formats info) /\ combined f /\ qualityLabel f = Some q.

(** An integer that a number holds exactly. *)
Definition safe (z : Z) : Prop := (Z.abs z < 2 ^ 53)%Z.

(** [s] reads, by [parseInt], as an integer that a number holds exactly. *)
Definition reads_safe (s : str) : Prop :=
  exists n, parseInt s = Some n /\ safe n.

(** The answer of a RapidAPI analyzer that returns. *)
Definition rapidMetadata (p : Platform) (m : Metadata) : Prop :=
  platform m = p /\ title m <> [] /\ duration m = 0%Z /\
  qualities m = [js "HD"; js "SD"].

(** The title and the thumbnail of [m] are read from the document:
    its [title] when that is not empty, else [dflt]; its [picture], else
    the empty string. *)
Definition reads (doc : Doc) (dflt : str) (m : Metadata) : Prop :=
  (forall t, d_title doc = Some t -> t <> [] -> title m = t) /\
  (d_title doc = None \/ d_title doc = Some [] -> title m = dflt) /\
  (forall t, d_picture doc = Some t -> thumbnail m = t) /\
  (d_picture doc = None -> thumbnail m = []).

(** The link a RapidAPI downloader settles on, by platform. *)
Definition chosenLink (p : Platform) (doc : Doc) : option str :=
  match p with
  | tiktok | instagram => Download.firstLink doc
  | facebook => Download.hdOrFirstLink doc
  | _ => None
  end.

Definition viaRapidAPI (p : Platform) : Prop :=
  p = tiktok \/ p = instagram \/ p = facebook.

(** Whatever the trace before, [m] only adds events to it: events that
    [allowed] accepts, at most [n] of them network calls. *)
Definition within (allowed : Event -> bool) (n : nat) (A : Type) (m : M A) : Prop :=
  forall tr, exists evs,
    snd (m tr) = tr ++ evs /\ forallb allowed evs = true /\ networkCalls evs <= n.

Definition notYtdl (e : Event) : bool :=
  match e with EvYtdl _ _ => false | _ => true end.

Definition anyEvent (e : Event) : bool := true.

(** What the guards of [handleAnalyze] keep true of the queue: at most
    [maxVideos] videos, no URL twice, and every video with a URL that is
    not blank and that the client-side classifier knows. *)
Record Queue (s : UI.State) : Prop := {
  q_bound : length (UI.videos s) <= UI.maxVideos;
  q_urls : NoDup (map Store.url (UI.videos s));
  q_known : forall v, In v (UI.videos s) ->
              trim_nonempty (Store.url v) = true /\
              Store.v_platform v = Store.detectPlatform (Store.url v) /\
              Store.v_platform v <> unknown }.

(** What a card can show of a video, by its status: the fields are still
    those of [addVideo] until the analysis has answered, a message is
    stored exactly when the video failed, and a completed download stands
    at 100 percent. *)
Definition card (v : Store.VideoInfo) : Prop :=
  (Store.status v = Store.error <-> Store.v_error v <> None) /\
  (Store.status v = Store.completed -> Store.progress v = 100%Z) /\
  (Store.status v = Store.pending \/ Store.status v = Store.analyzing ->
     Store.v_title v = [] /\ Store.v_thumbnail v = [] /\
     Store.v_qualities v = [] /\ Store.progress v = 0%Z /\
     Store.selectedQuality v = Some (js "720p")).

Definition Cards (s : UI.State) : Prop :=
  forall v, In v (UI.videos s) -> card v.

(** Two strings that differ at most in the case of ASCII letters. *)
Definition same_ci (a b : str) : Prop := map canon a = map canon b.

(** A code unit: 16 bits. *)
Definition codeUnit (c : N) : Prop := (c < 65536)%N.

Definition isSurrogate (c : N) : bool := ((55296 <=? c) && (c <=? 57343))%N.

(** The characters an escaped URI component consists of. *)
Definition escaped (c : N) : Prop := uriUnreserved c = true \/ c = 37%N.

(** The start of every request to the aggregation API. *)
Definition apiBase : str :=
  js "https://" ++ RAPIDAPI_HOST ++ js "/smvd/get/all?url=".

(** The characters [downloadYouTube] keeps of a title. *)
Definition kept (c : N) : bool := isWord c || isWhiteSpace c || N.eqb c 45.

(** A non-negative integer that a number holds exactly, and that
    [toString] writes without an exponent. *)
Definition safeInteger (n : N) : Prop := (n < 2 ^ 53)%N.

(** The last [n] code units of [s]. *)
Definition lastn (n : nat) (s : str) : str := skipn (length s - n) s.

End Notions.
Import Notions.

(* ================================================================== *)
(** * Properties *)

(* ------------------------------------------------------------------ *)
(** ** The matcher against the words of a regular expression *)

Module RegexFacts.

Lemma str_eqb_eq a b : JsString.eqb a b = true <-> a = b.
Proof.
  revert b; induction a as [|x a IH]; intros [|y b]; simpl;
    try (split; [discriminate | congruence]); [tauto|].
  rewrite andb_true_iff, N.eqb_eq, IH. split.
  - intros [-> ->]; reflexivity.
  - intros H; injection H; auto.
Qed.

Lemma str_eqb_refl a : JsString.eqb a a = true.
Proof. apply str_eqb_eq; reflexivity. Qed.

Section Sound.
Variables (A : Type) (i : bool).

Lemma star_loop_sound (r : regex)
      (body : str -> (str -> option A) -> option A) :
  (forall s k a, body s k = Some a ->
     exists w s', s = w ++ s' /\ matches i r w /\ k s' = Some a) ->
  forall n s k a, star_loop body n s k = Some a ->
     exists w s', s = w ++ s' /\ matches i (Star r) w /\ k s' = Some a.
Proof.
  intros Hbody n; induction n as [|n IH]; intros s k a H; simpl in H.
  - exists [], s; repeat split; [constructor | assumption].
  - destruct (body s _) as [b|] eqn:Eb.
    + injection H as ->.
      apply Hbody in Eb. destruct Eb as (w1 & s1 & -> & Hm & Hk).
      destruct (length s1 <? length (w1 ++ s1))%nat; [|discriminate].
      apply IH in Hk. destruct Hk as (w2 & s2 & -> & Hm2 & Hk).
      exists (w1 ++ w2), s2. rewrite app_assoc. repeat split; auto.
      now constructor.
    + exists [], s; repeat split; [constructor | assumption].
Qed.

Lemma mt_sound (r : regex) :
  forall s (k : str -> option A) a, mt i r s k = Some a ->
    exists w s', s = w ++ s' /\ matches i r w /\ k s' = Some a.
Proof.
  induction r as [|p| |neg items|r1 IH1 r2 IH2|r1 IH1 r2 IH2|r1 IH1];
    intros s k a H; simpl in H.
  - exists [], s; repeat split; [constructor | assumption].
  - destruct s as [|c s']; [discriminate|].
    destruct (ceq i p c) eqn:E; [|discriminate].
    exists [c], s'; repeat split; auto. now constructor.
  - destruct s as [|c s']; [discriminate|].
    destruct (isLineTerminator c) eqn:E; [discriminate|].
    exists [c], s'; repeat split; auto. now constructor.
  - destruct s as [|c s']; [discriminate|].
    destruct (cls_has i neg items c) eqn:E; [|discriminate].
    exists [c], s'; repeat split; auto. now constructor.
  - apply IH1 in H. destruct H as (w1 & s1 & -> & Hm1 & H).
    apply IH2 in H. destruct H as (w2 & s2 & -> & Hm2 & H).
    exists (w1 ++ w2), s2. rewrite app_assoc. repeat split; auto.
    now constructor.
  - destruct (mt i r1 s k) as [b|] eqn:E1.
    + injection H as ->. apply IH1 in E1.
      destruct E1 as (w & s' & -> & Hm & Hk).
      exists w, s'; repeat split; auto. now apply m_alt_l.
    + apply IH2 in H. destruct H as (w & s' & -> & Hm & Hk).
      exists w, s'; repeat split; auto. now apply m_alt_r.
  - eapply star_loop_sound; [|exact H]. intros; now apply IH1.
Qed.

Lemma star_loop_complete (r : regex) (k : str -> option A) (s' : str) :
  (forall w s0 (k0 : str -> option A),
      matches i r w -> k0 s0 <> None -> mt i r (w ++ s0) k0 <> None) ->
  k s' <> None ->
  forall r0 w, matches i r0 w -> r0 = Star r ->
  forall n, (length (w ++ s') <= n)%nat ->
    star_loop (fun s0 k0 => mt i r s0 k0) n (w ++ s') k <> None.
Proof.
  intros Hr Hk r0 w Hm.
  induction Hm as [ | | | | | | | r' | r' w1 w2 Hm1 _ Hm2 IH2];
    intros Heq; try discriminate; injection Heq as ->; intros n Hn.
  - simpl. destruct n; simpl; [assumption|].
    destruct (mt i r s' _); [discriminate | assumption].
  - specialize (IH2 eq_refl).
    destruct w1 as [|c w1]; [now apply IH2|].
    destruct n as [|n]; [simpl in Hn; lia|].
    rewrite <- app_assoc in *.
    remember ((c :: w1) ++ w2 ++ s') as s eqn:Es.
    simpl star_loop.
    pose proof (Hr (c :: w1) (w2 ++ s')
      (fun s0 => if (length s0 <? length s)%nat
                 then star_loop (fun s1 k1 => mt i r s1 k1) n s0 k
                 else None) Hm1) as Hc.
    rewrite <- Es in Hc.
    destruct (mt i r s _); [discriminate|].
    exfalso; apply Hc; [|reflexivity].
    assert (Hlt : (length (w2 ++ s') <? length s)%nat = true).
    { apply Nat.ltb_lt. subst s. simpl. rewrite !length_app. lia. }
    rewrite Hlt. apply IH2.
    subst s. simpl in Hn. rewrite !length_app in *. lia.
Qed.

Lemma mt_complete (r : regex) :
  forall w s' (k : str -> option A),
    matches i r w -> k s' <> None -> mt i r (w ++ s') k <> None.
Proof.
  induction r as [|p| |neg items|r1 IH1 r2 IH2|r1 IH1 r2 IH2|r1 IH1];
    intros w s' k Hm Hk.
  - inversion Hm; subst; simpl; assumption.
  - inversion Hm; subst; simpl.
    match goal with H : ceq _ _ _ = true |- _ => rewrite H end; assumption.
  - inversion Hm; subst; simpl.
    match goal with H : isLineTerminator _ = false |- _ => rewrite H end;
      assumption.
  - inversion Hm; subst; simpl.
    match goal with H : cls_has _ _ _ _ = true |- _ => rewrite H end;
      assumption.
  - inversion Hm; subst; simpl. rewrite <- app_assoc.
    apply IH1; [assumption|]. now apply IH2.
  - inversion Hm; subst; simpl.
    + destruct (mt i r1 (w ++ s') k) eqn:E; [discriminate|].
      exfalso; revert E; now apply IH1.
    + destruct (mt i r1 (w ++ s') k) eqn:E; [discriminate|].
      now apply IH2.
  - simpl. eapply star_loop_complete; eauto.
Qed.

Lemma search_sound (r : regex) :
  forall s (k : str -> option A) a, search i r s k = Some a ->
    exists pre w s', s = pre ++ w ++ s' /\ matches i r w /\ k s' = Some a.
Proof.
  induction s as [|c s IH]; intros k a H; simpl in H.
  - destruct (mt i r [] k) eqn:E; [|discriminate]. injection H as ->.
    apply mt_sound in E. destruct E as (w & s' & Hs & Hm & Hk).
    exists [], w, s'; auto.
  - destruct (mt i r (c :: s) k) eqn:E.
    + injection H as ->.
      apply mt_sound in E. destruct E as (w & s' & Hs & Hm & Hk).
      exists [], w, s'; auto.
    + apply IH in H. destruct H as (pre & w & s' & -> & Hm & Hk).
      exists (c :: pre), w, s'; auto.
Qed.

Lemma search_complete (r : regex) :
  forall pre w s' (k : str -> option A),
    matches i r w -> k s' <> None -> search i r (pre ++ w ++ s') k <> None.
Proof.
  induction pre as [|c pre IH]; intros w s' k Hm Hk.
  - simpl app. pose proof (@mt_complete r w s' k Hm Hk) as Hc.
    destruct (w ++ s'); simpl; destruct (mt i r _ k); congruence.
  - simpl. destruct (mt i r _ k); [discriminate|]. now apply IH.
Qed.
End Sound.

(** [test] holds exactly when some substring is a word of the pattern. *)
Lemma test_spec i r s :
  test i r s = true <->
  exists pre w suf, s = pre ++ w ++ suf /\ matches i r w.
Proof.
  unfold test. split.
  - destruct (search i r s _) eqn:E; [|discriminate]. intros _.
    apply search_sound in E. destruct E as (pre & w & s' & -> & Hm & _).
    eauto.
  - intros (pre & w & suf & -> & Hm).
    destruct (search i r _ _) eqn:E; [reflexivity|].
    exfalso; revert E. apply search_complete; [assumption | discriminate].
Qed.

(** A literal matches the words equal to it up to the case of ASCII
    letters (flag [i]), or equal to it. *)
Lemma matches_Lit_ci l : forall w,
  matches true (Lit l) w <-> map canon w = map canon l.
Proof.
  induction l as [|p l IH]; intros w; simpl.
  - split.
    + intros H; inversion H; reflexivity.
    + destruct w; [constructor | discriminate].
  - split.
    + intros H; inversion H as [ | | | |r1 r2 w1 w2 H1 H2| | | | ]; subst.
      inversion H1; subst. simpl.
      match goal with H : ceq true _ _ = true |- _ =>
        unfold ceq in H; apply N.eqb_eq in H; rewrite H end.
      f_equal. now apply IH.
    + destruct w as [|c w]; [discriminate|]. simpl. intros H.
      injection H as Hc Hw.
      change (c :: w) with ([c] ++ w). constructor.
      * constructor. unfold ceq. apply N.eqb_eq. congruence.
      * now apply IH.
Qed.

Lemma matches_Lit_cs l : forall w, matches false (Lit l) w <-> w = l.
Proof.
  induction l as [|p l IH]; intros w; simpl.
  - split.
    + intros H; inversion H; reflexivity.
    + intros ->; constructor.
  - split.
    + intros H; inversion H as [ | | | |r1 r2 w1 w2 H1 H2| | | | ]; subst.
      inversion H1; subst. simpl.
      match goal with H : ceq false _ _ = true |- _ =>
        unfold ceq in H; apply N.eqb_eq in H; rewrite H end.
      f_equal. now apply IH.
    + intros ->. change (p :: l) with ([p] ++ l). constructor.
      * constructor. unfold ceq. apply N.eqb_refl.
      * now apply IH.
Qed.

Lemma matches_Alt_inv i r1 r2 w :
  matches i (Alt r1 r2) w -> matches i r1 w \/ matches i r2 w.
Proof. intros H; inversion H; subst; auto. Qed.

Lemma matches_Seq_inv i r1 r2 w :
  matches i (Seq r1 r2) w ->
  exists w1 w2, w = w1 ++ w2 /\ matches i r1 w1 /\ matches i r2 w2.
Proof. intros H; inversion H; subst; eauto. Qed.

End RegexFacts.
Import RegexFacts.

(* ------------------------------------------------------------------ *)
(** ** The server-side classifier *)

Module ClassifierFacts.

Lemma test_Lit_ci l url : test true (Lit l) url = true <-> contains_ci l url.
Proof.
  rewrite test_spec. unfold contains_ci. split.
  - intros (pre & w & suf & -> & Hm). apply matches_Lit_ci in Hm. eauto.
  - intros (pre & w & suf & -> & Hm). apply matches_Lit_ci in Hm. eauto.
Qed.

Lemma test_Alt i r1 r2 url :
  test i (Alt r1 r2) url = true <-> test i r1 url = true \/ test i r2 url = true.
Proof.
  rewrite !test_spec. split.
  - intros (pre & w & suf & -> & Hm). inversion Hm; subst; eauto 6.
  - intros [(pre & w & suf & -> & Hm) | (pre & w & suf & -> & Hm)];
      exists pre, w, suf; split; auto; [now apply m_alt_l | now apply m_alt_r].
Qed.

Lemma test_false_iff i r url (P : Prop) :
  (test i r url = true <-> P) -> (test i r url = false <-> ~ P).
Proof.
  intros H. destruct (test i r url); split; intros; try discriminate;
    try tauto. intros HP. apply H in HP. discriminate.
Qed.

Lemma youtube_rule url :
  test true Route.re_youtube url = true <->
  contains_ci (js "youtube.com") url \/ contains_ci (js "youtu.be") url.
Proof. unfold Route.re_youtube. now rewrite test_Alt, !test_Lit_ci. Qed.

Lemma tiktok_rule url :
  test true Route.re_tiktok url = true <-> contains_ci (js "tiktok.com") url.
Proof. apply test_Lit_ci. Qed.

Lemma instagram_rule url :
  test true Route.re_instagram url = true <-> contains_ci (js "instagram.com") url.
Proof. apply test_Lit_ci. Qed.

Lemma facebook_rule url :
  test true Route.re_facebook url = true <->
  contains_ci (js "facebook.com") url \/ contains_ci (js "fb.watch") url.
Proof. unfold Route.re_facebook. now rewrite test_Alt, !test_Lit_ci. Qed.

Lemma detect_youtube url :
  test true Route.re_youtube url = true -> Route.detectPlatform url = youtube.
Proof. unfold Route.detectPlatform. now intros ->. Qed.

End ClassifierFacts.
Import ClassifierFacts.

(** C1.  The classifier of the two route files is a total function of the
    URL alone, and it applies its rules in order: [youtube] when the URL
    contains youtube.com or youtu.be, otherwise [tiktok] when it contains
    tiktok.com, otherwise [instagram] when it contains instagram.com,
    otherwise [facebook] when it contains facebook.com or fb.watch,
    otherwise [unknown]; letter case is ignored throughout. *)
Theorem C1_detectPlatform_rule_order : forall url : str,
  let Y := contains_ci (js "youtube.com") url \/ contains_ci (js "youtu.be") url in
  let T := contains_ci (js "tiktok.com") url in
  let I := contains_ci (js "instagram.com") url in
  let F := contains_ci (js "facebook.com") url \/ contains_ci (js "fb.watch") url in
  (Route.detectPlatform url = youtube <-> Y) /\
  (Route.detectPlatform url = tiktok <-> ~ Y /\ T) /\
  (Route.detectPlatform url = instagram <-> ~ Y /\ ~ T /\ I) /\
  (Route.detectPlatform url = facebook <-> ~ Y /\ ~ T /\ ~ I /\ F) /\
  (Route.detectPlatform url = unknown <-> ~ Y /\ ~ T /\ ~ I /\ ~ F).
Proof.
  intros url Y T I F.
  pose proof (youtube_rule url) as HY. pose proof (tiktok_rule url) as HT.
  pose proof (instagram_rule url) as HI. pose proof (facebook_rule url) as HF.
  fold Y in HY. fold T in HT. fold I in HI. fold F in HF.
  pose proof (@test_false_iff _ _ _ _ HY) as HY'. pose proof (@test_false_iff _ _ _ _ HT) as HT'.
  pose proof (@test_false_iff _ _ _ _ HI) as HI'. pose proof (@test_false_iff _ _ _ _ HF) as HF'.
  unfold Route.detectPlatform.
  destruct (test true Route.re_youtube url);
    destruct (test true Route.re_tiktok url);
    destruct (test true Route.re_instagram url);
    destruct (test true Route.re_facebook url);
    repeat split; intros; try discriminate; try tauto;
    try (exfalso; intuition congruence).
Qed.

Example detectPlatform_youtube_watch :
  Route.detectPlatform (js "https://www.YouTube.com/watch?v=dQw4w9WgXcQ") = youtube.
Proof. vm_compute. reflexivity. Qed.

Example detectPlatform_tiktok_short :
  Route.detectPlatform (js "https://vm.tiktok.com/ABC123") = tiktok.
Proof. vm_compute. reflexivity. Qed.

Example detectPlatform_example_com :
  Route.detectPlatform (js "https://example.com/video") = unknown.
Proof. vm_compute. reflexivity. Qed.

Example detectPlatform_first_rule_wins :
  Route.detectPlatform (js "https://fb.watch/x?ref=tiktok.com") = tiktok.
Proof. vm_compute. reflexivity. Qed.

(* ------------------------------------------------------------------ *)
(** ** The two routes *)

Module RouteFacts.

Lemma truthy_nonempty (s : str) : truthy s = true <-> s <> [].
Proof. destruct s; simpl; split; congruence. Qed.

(** Unfold the monad and split on everything a run scrutinises. *)
Ltac unfold_eff :=
  unfold bind, try_catch, ret, throw, lift, emit, do_fetch,
    Analyze.do_getInfo, Download.do_ytdl in *.

Ltac split_run :=
  repeat (simpl in *;
          match goal with
          | H : (_, _) = (_, _) |- _ => inversion H; subst; clear H
          | H : context [match ?x with _ => _ end] |- _ => destruct x eqn:?
          | H : context [if ?x then _ else _] |- _ => destruct x eqn:?
          end);
  simpl in *; try discriminate.

End RouteFacts.
Import RouteFacts.

(** C2.  A request whose URL is classified as [unknown] is answered by
    both routes with status 400 and a message, and the handler does
    nothing else: its trace is unchanged, so no extractor ran and no
    network call was made. *)
Theorem C2_unknown_is_400_without_effects :
  forall (W : World) (url : str) (q : JsVal) (tr : Trace),
    Route.detectPlatform url = unknown ->
    (exists message, message <> [] /\
       Analyze.POST W (Ok (BodyFields (VStr url) q)) tr
       = (Ok (JsonMessage 400 message), tr)) /\
    (exists message, message <> [] /\
       Download.POST W (Ok (BodyFields (VStr url) q)) tr
       = (Ok (JsonMessage 400 message), tr)).
Proof.
  intros W url q tr H.
  unfold Analyze.POST, Download.POST. unfold_eff. rewrite H.
  destruct (truthy url); simpl; split; eexists; (split; [|reflexivity]);
    discriminate.
Qed.

Lemma C2_witness :
  Route.detectPlatform (js "https://example.com/video") = unknown /\
  (exists message, message <> [] /\
     Analyze.POST Samples.offline
       (Ok (BodyFields (VStr (js "https://example.com/video")) VUndefined)) []
     = (Ok (JsonMessage 400 message), [])) /\
  (exists message, message <> [] /\
     Download.POST Samples.offline
       (Ok (BodyFields (VStr (js "https://example.com/video")) VUndefined)) []
     = (Ok (JsonMessage 400 message), [])).
Proof.
  split; [vm_compute; reflexivity|].
  apply (C2_unknown_is_400_without_effects Samples.offline
           (js "https://example.com/video") VUndefined []).
  vm_compute; reflexivity.
Defined.

Module AnalyzeFacts.

Lemma analyzeYouTube_qualities W url tr m tr' :
  Analyze.analyzeYouTube W url tr = (Ok m, tr') ->
  qualities m <> [] /\ qualities_origin W (qualities m).
Proof.
  unfold Analyze.analyzeYouTube, qualities_origin. unfold_eff. intros H.
  split_run; try (destruct (sortBy _ _) eqn:Es);
    (split; [discriminate|]); auto 6.
  all: right; right; right; do 3 eexists; split; [eassumption|];
    now rewrite Es.
Qed.

Lemma analyzeTikTok_qualities W url tr m tr' :
  Analyze.analyzeTikTok W url tr = (Ok m, tr') ->
  qualities m = [js "HD"; js "SD"].
Proof.
  unfold Analyze.analyzeTikTok, fetchFromRapidAPI. unfold_eff. intros H.
  split_run; reflexivity.
Qed.

Lemma analyzeInstagram_qualities W url tr m tr' :
  Analyze.analyzeInstagram W url tr = (Ok m, tr') ->
  qualities m = [js "HD"; js "SD"].
Proof.
  unfold Analyze.analyzeInstagram, fetchFromRapidAPI. unfold_eff. intros H.
  split_run; reflexivity.
Qed.

Lemma analyzeFacebook_qualities W url tr m tr' :
  Analyze.analyzeFacebook W url tr = (Ok m, tr') ->
  qualities m = [js "HD"; js "SD"].
Proof.
  unfold Analyze.analyzeFacebook, fetchFromRapidAPI. unfold_eff. intros H.
  split_run; reflexivity.
Qed.

End AnalyzeFacts.
Import AnalyzeFacts.

(** C3.  Whenever the analyze route answers with metadata (status 200),
    the [qualities] of the answer are not empty: they are one of the fixed
    default lists, or the non-empty list of labels that ytdl-core
    reported. *)
Theorem C3_analyze_qualities_nonempty :
  forall (W : World) (request_json : Result ReqJson) (tr tr' : Trace)
         (result : Metadata),
    Analyze.POST W request_json tr = (Ok (JsonMetadata result), tr') ->
    qualities result <> [] /\ qualities_origin W (qualities result).
Proof.
  intros W req tr tr' result H.
  unfold Analyze.POST in H. unfold try_catch, bind, lift, ret, throw, emit in H.
  destruct req as [[|u q]|]; simpl in H; try discriminate.
  destruct u; try discriminate.
  destruct (truthy s); simpl in H; try discriminate.
  destruct (detectPlatform s); simpl in H.
  - destruct (Analyze.analyzeYouTube W s tr) as [[m|e] t] eqn:E;
      simpl in H; try discriminate.
    injection H as -> ->. eapply analyzeYouTube_qualities; eassumption.
  - destruct (Analyze.analyzeTikTok W s tr) as [[m|e] t] eqn:E;
      simpl in H; try discriminate.
    injection H as -> ->. apply analyzeTikTok_qualities in E.
    rewrite E. split; [discriminate|]. unfold qualities_origin; auto.
  - destruct (Analyze.analyzeInstagram W s tr) as [[m|e] t] eqn:E;
      simpl in H; try discriminate.
    injection H as -> ->. apply analyzeInstagram_qualities in E.
    rewrite E. split; [discriminate|]. unfold qualities_origin; auto.
  - destruct (Analyze.analyzeFacebook W s tr) as [[m|e] t] eqn:E;
      simpl in H; try discriminate.
    injection H as -> ->. apply analyzeFacebook_qualities in E.
    rewrite E. split; [discriminate|]. unfold qualities_origin; auto.
  - discriminate.
Qed.

Lemma C3_witness :
  exists result tr',
    Analyze.POST Samples.ytdlOnly Samples.watchRequest []
    = (Ok (JsonMetadata result), tr') /\
    qualities result <> [] /\ qualities_origin Samples.ytdlOnly (qualities result).
Proof.
  eexists; eexists.
  assert (H : Analyze.POST Samples.ytdlOnly Samples.watchRequest []
              = (Ok (JsonMetadata _), _)) by (vm_compute; reflexivity).
  split; [exact H|].
  exact (C3_analyze_qualities_nonempty _ _ _ H).
Defined.

Module ExtractFacts.

(** [match[1]] is a word of the group, right after a word of the prefix. *)
Lemma match_group1_sound i pre grp s id :
  match_group1 i pre grp s = Some id ->
  exists a w b, s = a ++ w ++ id ++ b /\ matches i pre w /\ matches i grp id.
Proof.
  unfold match_group1. intros H.
  apply search_sound in H. destruct H as (a & w & s1 & -> & Hw & H).
  apply mt_sound in H. destruct H as (w2 & s2 & -> & Hg & H).
  injection H as <-.
  rewrite length_app, Nat.add_sub, firstn_app, Nat.sub_diag, firstn_all.
  simpl. rewrite app_nil_r. eauto 7.
Qed.

Lemma idGroup_nonempty i w : matches i Analyze.idGroup w -> w <> [].
Proof.
  unfold Analyze.idGroup, Plus. intros H.
  inversion H as [ | | | |r1 r2 w1 w2 H1 H2| | | | ]; subst.
  inversion H1; subst. discriminate.
Qed.

Lemma contains_ci_inside l x a b : contains_ci l (a ++ (l ++ x) ++ b).
Proof.
  exists a, l, (x ++ b). split; [|reflexivity].
  now rewrite <- !app_assoc.
Qed.

Lemma extractYouTubeId_some url id :
  Analyze.extractYouTubeId url = Some id ->
  id <> [] /\ Route.detectPlatform url = youtube.
Proof.
  unfold Analyze.extractYouTubeId. intros H.
  assert (Hm : exists pre a w b, url = a ++ w ++ id ++ b /\
                 matches false pre w /\ matches false Analyze.idGroup id /\
                 (pre = Analyze.idPrefix1 \/ pre = Analyze.idPrefix2)).
  { destruct (match_group1 false Analyze.idPrefix1 Analyze.idGroup url) eqn:E.
    - injection H as ->. apply match_group1_sound in E.
      destruct E as (a & w & b & ? & ? & ?). eauto 10.
    - apply match_group1_sound in H.
      destruct H as (a & w & b & ? & ? & ?). eauto 10. }
  destruct Hm as (pre & a & w & b & -> & Hw & Hid & Hpre).
  split; [eapply idGroup_nonempty; eassumption|].
  apply detect_youtube, youtube_rule.
  destruct Hpre as [-> | ->].
  - unfold Analyze.idPrefix1 in Hw.
    apply matches_Alt_inv in Hw. destruct Hw as [Hw|Hw].
    { apply matches_Lit_cs in Hw; subst w. left.
      apply (contains_ci_inside (js "youtube.com") (js "/watch?v=")). }
    apply matches_Alt_inv in Hw. destruct Hw as [Hw|Hw].
    { apply matches_Lit_cs in Hw; subst w. right.
      apply (contains_ci_inside (js "youtu.be") (js "/")). }
    apply matches_Alt_inv in Hw. destruct Hw as [Hw|Hw].
    { apply matches_Lit_cs in Hw; subst w. left.
      apply (contains_ci_inside (js "youtube.com") (js "/embed/")). }
    { apply matches_Lit_cs in Hw; subst w. left.
      apply (contains_ci_inside (js "youtube.com") (js "/v/")). }
  - unfold Analyze.idPrefix2 in Hw.
    apply matches_Lit_cs in Hw; subst w. left.
    apply (contains_ci_inside (js "youtube.com") (js "/shorts/")).
Qed.

End ExtractFacts.
Import ExtractFacts.

(** C4 (as amended).  For a URL from which a video id is extracted, when the
    oEmbed call succeeds (the fetch resolves with a success status and its
    body parses), the analyze route answers after that single call with:
    the title of the oEmbed response when it has a non-empty one and
    ["YouTube Video"] otherwise; the thumbnail
    [https://i.ytimg.com/vi/<id>/maxresdefault.jpg]; duration 0; and the
    qualities 1080p, 720p, 480p, 360p. *)
Theorem C4_youtube_oembed_metadata :
  forall (W : World) (url : str) (q : JsVal) (videoId : str) (tr : Trace)
         (resp : FetchResponse) (doc : Doc),
    Analyze.extractYouTubeId url = Some videoId ->
    fetch W tr (Analyze.oembedUrl videoId) [] = Ok resp ->
    ok resp = true ->
    json resp = Ok doc ->
    exists m,
      Analyze.POST W (Ok (BodyFields (VStr url) q)) tr
      = (Ok (JsonMetadata m), tr ++ [EvFetch (Analyze.oembedUrl videoId) []]) /\
      platform m = youtube /\
      (forall t, d_title doc = Some t -> t <> [] -> title m = t) /\
      (d_title doc = None \/ d_title doc = Some [] -> title m = js "YouTube Video") /\
      thumbnail m = js "https://i.ytimg.com/vi/" ++ videoId ++ js "/maxresdefault.jpg" /\
      duration m = 0%Z /\
      qualities m = [js "1080p"; js "720p"; js "480p"; js "360p"].
Proof.
  intros W url q videoId tr resp doc Hid Hfetch Hok Hjson.
  destruct (extractYouTubeId_some _ Hid) as [Hne Hyt].
  assert (Hurl : truthy url = true).
  { destruct url; [|reflexivity]. vm_compute in Hid. discriminate. }
  apply truthy_nonempty in Hne.
  eexists. split.
  - unfold Analyze.POST, Analyze.analyzeYouTube. unfold_eff.
    simpl. rewrite Hurl. simpl. rewrite Hyt, Hid, Hne. simpl.
    rewrite Hfetch, Hok. simpl. rewrite Hjson. simpl. reflexivity.
  - simpl. repeat split; try reflexivity.
    + intros t -> Ht. apply truthy_nonempty in Ht.
      unfold or_else. now rewrite Ht.
    + intros [-> | ->]; reflexivity.
Qed.

Lemma C4_witness :
  exists m,
    Analyze.POST (Samples.oembedWorld (Some (js "Never Gonna Give You Up")))
                 Samples.watchRequest []
    = (Ok (JsonMetadata m),
       [] ++ [EvFetch (Analyze.oembedUrl (js "dQw4w9WgXcQ")) []]) /\
    platform m = youtube /\
    (forall t, Some (js "Never Gonna Give You Up") = Some t -> t <> [] -> title m = t) /\
    (Some (js "Never Gonna Give You Up") = None \/
     Some (js "Never Gonna Give You Up") = Some [] -> title m = js "YouTube Video") /\
    thumbnail m = js "https://i.ytimg.com/vi/" ++ js "dQw4w9WgXcQ" ++ js "/maxresdefault.jpg" /\
    duration m = 0%Z /\
    qualities m = [js "1080p"; js "720p"; js "480p"; js "360p"].
Proof.
  apply (@C4_youtube_oembed_metadata
           (Samples.oembedWorld (Some (js "Never Gonna Give You Up")))
           Samples.watchUrl VUndefined (js "dQw4w9WgXcQ") []
           (Samples.jsonResponse 200 (js "OK")
              (Samples.docOf (Some (js "Never Gonna Give You Up")) None))
           (Samples.docOf (Some (js "Never Gonna Give You Up")) None));
    vm_compute; reflexivity.
Defined.

(** The claim as first stated fails when the oEmbed answer carries an empty
    title: the oEmbed call succeeds, yet the title of the result is not the
    title of the oEmbed response. *)
Lemma C4_counterexample :
  Analyze.extractYouTubeId Samples.watchUrl = Some (js "dQw4w9WgXcQ") /\
  (exists resp doc,
     fetch (Samples.oembedWorld (Some [])) []
           (Analyze.oembedUrl (js "dQw4w9WgXcQ")) [] = Ok resp /\
     ok resp = true /\ json resp = Ok doc /\ d_title doc = Some []) /\
  exists m tr',
    Analyze.POST (Samples.oembedWorld (Some [])) Samples.watchRequest []
    = (Ok (JsonMetadata m), tr') /\
    title m = js "YouTube Video" /\ title m <> [].
Proof.
  split; [vm_compute; reflexivity|]. split.
  - do 2 eexists. repeat split; vm_compute; reflexivity.
  - do 2 eexists. split; [vm_compute; reflexivity|].
    split; [vm_compute; reflexivity | vm_compute; discriminate].
Qed.

Module DownloadFacts.


(** The test of the library's filter. *)
Lemma combined_test f :
  opt_truthy (f_url f) && (hasVideo f && hasAudio f) = true <-> combined f.
Proof.
  unfold combined, opt_truthy. split.
  - intros H. apply andb_true_iff in H. destruct H as [Hu H].
    apply andb_true_iff in H. destruct H as [Hv Ha].
    destruct (f_url f) as [u|]; [|discriminate].
    split; [assumption|]. split; [assumption|].
    exists u. split; [reflexivity | now apply truthy_nonempty].
  - intros (Hv & Ha & u & Hu & Hne). apply truthy_nonempty in Hne.
    now rewrite Hu, Hv, Ha, Hne.
Qed.

Lemma combined_In fs g :
  In g (filterFormats_videoandaudio fs) <-> In g fs /\ combined g.
Proof.
  unfold filterFormats_videoandaudio. rewrite filter_In.
  now rewrite combined_test.
Qed.








Lemma selectFormat_none fs quality :
  Download.selectFormat fs quality = None <-> fs = [].
Proof.
  unfold Download.selectFormat. split.
  - destruct (find _ fs); [discriminate|]. destruct fs; [auto | discriminate].
  - intros ->; reflexivity.
Qed.

Lemma selectFormat_In fs quality f :
  Download.selectFormat fs quality = Some f -> In f fs.
Proof.
  unfold Download.selectFormat. destruct (find _ fs) eqn:Ef.
  - intros H. injection H as ->. now apply find_some in Ef.
  - destruct fs; [discriminate|]. intros H. injection H as ->. now left.
Qed.

Lemma forallb_and (p q : N -> bool) l :
  forallb p l && forallb q l = forallb (fun c => p c && q c) l.
Proof.
  induction l as [|c l IH]; simpl; [reflexivity|]. rewrite <- IH.
  destruct (p c), (q c), (forallb p l), (forallb q l); reflexivity.
Qed.

(** A value in the form [attachment; filename="..."] has no white space
    at either end to take off. *)
Lemma normalize_quoted name :
  normalizeHeaderValue (Download.contentDisposition name)
  = Download.contentDisposition name.
Proof.
  unfold normalizeHeaderValue, Download.contentDisposition.
  change (js "attachment; filename=")
    with (97%N :: js "ttachment; filename=").
  cbn [app dropHttpWhitespace]. change (isHttpWhitespace 97) with false.
  cbv iota.
  replace (97%N :: js "ttachment; filename=" ++ 34%N :: name ++ [34%N])
    with ((97%N :: js "ttachment; filename=" ++ 34%N :: name) ++ [34%N])
    by (cbn [app]; now rewrite <- app_assoc).
  rewrite rev_unit. cbn [dropHttpWhitespace].
  change (isHttpWhitespace 34) with false. cbv iota.
  now rewrite <- rev_unit, rev_involutive.
Qed.

Lemma headerValueOk_quoted name :
  headerValueOk (Download.contentDisposition name) = forallb headerByte name.
Proof.
  unfold headerValueOk. rewrite normalize_quoted, forallb_and.
  fold headerByte. unfold Download.contentDisposition.
  rewrite !forallb_app.
  change (forallb (fun c => headerByte c) (js "attachment; filename=")) with true.
  change (forallb (fun c => headerByte c) [34%N]) with true.
  now rewrite andb_true_r.
Qed.

Lemma headerByte_false c :
  (c = 10 \/ c = 13 \/ 255 < c)%N -> headerByte c = false.
Proof.
  unfold headerByte. intros [-> | [-> | H]]; try reflexivity.
  apply N.leb_gt in H. now rewrite H.
Qed.

Lemma forallb_false_In (p : N -> bool) l c :
  In c l -> p c = false -> forallb p l = false.
Proof.
  intros Hin Hc. destruct (forallb p l) eqn:E; [|reflexivity].
  rewrite forallb_forall in E. rewrite (E c Hin) in Hc. discriminate.
Qed.

(** Of the three header values of a YouTube download only the file name
    can be refused, and it is refused for the code units it holds. *)
Lemma youtube_headers_ok info :
  forallb (fun h : str * str => headerValueOk (snd h))
    [(js "Content-Type", js "video/mp4");
     (js "Content-Disposition",
       Download.contentDisposition
         (Download.youtubeFilename (vd_title (videoDetails info))));
     (js "Transfer-Encoding", js "chunked")]
  = nameAccepted info.
Proof.
  cbn [forallb snd].
  change (headerValueOk (js "video/mp4")) with true.
  change (headerValueOk (js "chunked")) with true.
  rewrite headerValueOk_quoted. unfold nameAccepted. now rewrite andb_true_r.
Qed.

(** What [downloadYouTube] does once [getInfo] has answered. *)
Lemma downloadYouTube_run W url quality tr info :
  ytdl_getInfo W tr url = Ok info ->
  match Download.selectFormat
          (filterFormats_videoandaudio (formats info)) quality with
  | Some f => selects W url quality tr info f
  | None =>
      Download.downloadYouTube_try W url quality tr
      = (Throw (js "No suitable format found"), tr ++ [EvGetInfo url]) /\
      Download.downloadYouTube W url quality tr
      = (Throw Download.YOUTUBE_UNAVAILABLE,
         (tr ++ [EvGetInfo url]) ++ [EvConsole (js "YouTube download error:")])
  end.
Proof.
  intros Hinfo. unfold selects, streams_format, Download.downloadYouTube,
    Download.downloadYouTube_try.
  unfold_eff. rewrite Hinfo. cbv beta iota zeta.
  destruct (Download.selectFormat _ quality) as [f|].
  - unfold newResponse. rewrite youtube_headers_ok.
    destruct (nameAccepted info); unfold ret, throw; cbn [snd fst].
    + split; [reflexivity|]. split; [|discriminate].
      intros _. eexists; reflexivity.
    + split; [reflexivity|]. split; [discriminate|].
      intros _. reflexivity.
  - split; reflexivity.
Qed.


End DownloadFacts.
Import DownloadFacts.



Module LinkFacts.

Lemma streamChosen_usable W u f tr :
  u <> [] -> Download.streamChosen W (Some u) f tr = Download.streamVideo W u f tr.
Proof.
  intros Hu. apply truthy_nonempty in Hu. unfold Download.streamChosen.
  now rewrite Hu.
Qed.

Lemma streamChosen_unusable W o f tr :
  ~ usable o -> Download.streamChosen W o f tr = (Throw NO_LINK, tr).
Proof.
  intros Hn. unfold Download.streamChosen.
  destruct o as [[|c u]|]; try reflexivity.
  exfalso. apply Hn. exists (c :: u). split; [reflexivity | discriminate].
Qed.

Lemma streamVideo_trace W u f tr :
  snd (Download.streamVideo W u f tr)
  = tr ++ [EvFetch u [(js "User-Agent", Download.USER_AGENT)]].
Proof.
  unfold Download.streamVideo. unfold_eff.
  destruct (fetch W tr u _); simpl; [|reflexivity].
  destruct (negb (ok a)); reflexivity.
Qed.

Lemma streamVideo_not_silent W u f tr r :
  Download.streamVideo W u f tr <> (r, tr).
Proof.
  intros H. pose proof (streamVideo_trace W u f tr) as Ht.
  rewrite H in Ht. simpl in Ht.
  apply (f_equal (@length Event)) in Ht. rewrite length_app in Ht.
  simpl in Ht. lia.
Qed.

Lemma firstLink_pick doc pick :
  first_pick doc pick ->
  (usable pick -> Download.firstLink doc = pick) /\
  (~ usable pick -> ~ usable (Download.firstLink doc)).
Proof.
  unfold Download.firstLink.
  intros [H | H | l0 rest H]; rewrite H; split; auto.
  - intros (u & Hu & _); discriminate.
  - intros _ (u & Hu & Hne). injection Hu as <-. now apply Hne.
  - intros (u & Hu & _); discriminate.
  - intros _ (u & Hu & Hne). injection Hu as <-. now apply Hne.
Qed.

Lemma find_first_hd links h :
  first_hd links h ->
  find (fun l => match l_quality l with
                 | Some q => JsString.eqb q (js "hd")
                 | None => false
                 end) links = Some h.
Proof.
  intros (pre & post & -> & Hh & Hpre).
  induction pre as [|g pre IH]; simpl.
  - unfold is_hd in Hh. rewrite Hh. now rewrite str_eqb_refl.
  - destruct (l_quality g) as [q|] eqn:Eq.
    + destruct (JsString.eqb q (js "hd")) eqn:E.
      * apply str_eqb_eq in E. subst q. exfalso.
        apply (Hpre g); simpl; auto.
      * apply IH. intros g' Hg'. apply Hpre; simpl; auto.
    + apply IH. intros g' Hg'. apply Hpre; simpl; auto.
Qed.

Lemma find_no_hd links :
  (forall g, In g links -> ~ is_hd g) ->
  find (fun l => match l_quality l with
                 | Some q => JsString.eqb q (js "hd")
                 | None => false
                 end) links = None.
Proof.
  intros H. destruct (find _ links) as [g|] eqn:E; [|reflexivity].
  apply find_some in E. destruct E as [Hin Hq]. exfalso.
  apply (H g Hin). unfold is_hd.
  destruct (l_quality g); [|discriminate].
  apply str_eqb_eq in Hq. now subst.
Qed.

Lemma hdOrFirstLink_pick doc pick :
  hd_pick doc pick ->
  (usable pick -> Download.hdOrFirstLink doc = pick) /\
  (~ usable pick -> ~ usable (Download.hdOrFirstLink doc)).
Proof.
  unfold Download.hdOrFirstLink.
  intros [H | H | links h H Hh | l0 rest H Hno]; rewrite H.
  - split; [intros (u & Hu & _); discriminate|].
    intros _ (u & Hu & Hne). injection Hu as <-. now apply Hne.
  - split; [intros (u & Hu & _); discriminate|].
    intros _ (u & Hu & Hne). injection Hu as <-. now apply Hne.
  - pose proof (find_first_hd Hh) as Hf.
    destruct links as [|l0 rest].
    { destruct Hh as ([|? ?] & ? & ? & _); discriminate. }
    rewrite Hf. split; auto.
  - rewrite (find_no_hd _ Hno). split; auto.
Qed.

(** After the API answered, each [try] block streams whatever its choice
    function returned. *)
Lemma downloaders_after_api W url tr doc tr1 :
  fetchFromRapidAPI W url tr = (Ok doc, tr1) ->
  Download.downloadTikTok_try W url tr
    = Download.streamChosen W (Download.firstLink doc) (js "tiktok_video.mp4") tr1 /\
  Download.downloadInstagram_try W url tr
    = Download.streamChosen W (Download.firstLink doc) (js "instagram_video.mp4") tr1 /\
  Download.downloadFacebook_try W url tr
    = Download.streamChosen W (Download.hdOrFirstLink doc) (js "facebook_video.mp4") tr1.
Proof.
  intros H. unfold Download.downloadTikTok_try, Download.downloadInstagram_try,
    Download.downloadFacebook_try, bind. now rewrite H.
Qed.

(** How a [try] block ends, from the link it chose. *)
Lemma chosen_outcome W o f tr pick :
  (usable pick -> o = pick) -> (~ usable pick -> ~ usable o) ->
  (forall u, pick = Some u -> u <> [] ->
     Download.streamChosen W o f tr = Download.streamVideo W u f tr) /\
  (~ usable pick <-> Download.streamChosen W o f tr = (Throw NO_LINK, tr)).
Proof.
  intros Hu Hn. split; [|split].
  - intros u -> Hne. rewrite Hu by (exists u; auto).
    now apply streamChosen_usable.
  - intros H. apply streamChosen_unusable. auto.
  - intros H (u & -> & Hne). rewrite Hu in H by (exists u; auto).
    rewrite streamChosen_usable in H by assumption.
    now apply streamVideo_not_silent in H.
Qed.

End LinkFacts.
Import LinkFacts.

(** C6 (as amended).  Once the aggregation API has answered with a
    document: the TikTok and the Instagram download take the link of the
    first entry of the list; the Facebook download takes the link of the
    first entry tagged [hd] when there is one, else the link of the first
    entry; the link taken is then fetched by [streamVideo].  The error
    ["No video link found from RapidAPI"] is raised exactly when no usable
    link was taken: the list is absent or empty, or the link taken is
    missing or empty. *)
Theorem C6_aggregation_link_choice :
  forall (W : World) (url : str) (tr tr1 : Trace) (doc : Doc),
    fetchFromRapidAPI W url tr = (Ok doc, tr1) ->
    (forall pick, first_pick doc pick ->
       (forall u, pick = Some u -> u <> [] ->
          Download.downloadTikTok_try W url tr
          = Download.streamVideo W u (js "tiktok_video.mp4") tr1) /\
       (~ usable pick <->
          Download.downloadTikTok_try W url tr = (Throw NO_LINK, tr1)) /\
       (forall u, pick = Some u -> u <> [] ->
          Download.downloadInstagram_try W url tr
          = Download.streamVideo W u (js "instagram_video.mp4") tr1) /\
       (~ usable pick <->
          Download.downloadInstagram_try W url tr = (Throw NO_LINK, tr1))) /\
    (forall pick, hd_pick doc pick ->
       (forall u, pick = Some u -> u <> [] ->
          Download.downloadFacebook_try W url tr
          = Download.streamVideo W u (js "facebook_video.mp4") tr1) /\
       (~ usable pick <->
          Download.downloadFacebook_try W url tr = (Throw NO_LINK, tr1))).
Proof.
  intros W url tr tr1 doc Hapi.
  destruct (downloaders_after_api _ _ _ Hapi) as (Ht & Hi & Hf).
  rewrite Ht, Hi, Hf. split.
  - intros pick Hp. destruct (firstLink_pick Hp) as [Hu Hn].
    destruct (@chosen_outcome W _ (js "tiktok_video.mp4") tr1 pick Hu Hn).
    destruct (@chosen_outcome W _ (js "instagram_video.mp4") tr1 pick Hu Hn).
    auto.
  - intros pick Hp. destruct (hdOrFirstLink_pick Hp) as [Hu Hn].
    exact (@chosen_outcome W _ (js "facebook_video.mp4") tr1 pick Hu Hn).
Qed.

Lemma C6_witness :
  exists doc tr1,
    fetchFromRapidAPI Samples.sdThenHdWorld Samples.facebookUrl [] = (Ok doc, tr1) /\
    Download.downloadFacebook_try Samples.sdThenHdWorld Samples.facebookUrl []
    = Download.streamVideo Samples.sdThenHdWorld (js "https://cdn.example/hd.mp4")
                           (js "facebook_video.mp4") tr1.
Proof.
  do 2 eexists.
  assert (H : fetchFromRapidAPI Samples.sdThenHdWorld Samples.facebookUrl []
              = (Ok (Samples.docOf None (Some Samples.sdThenHd)), _))
    by (vm_compute; reflexivity).
  split; [exact H|].
  refine (proj1 (proj2 (C6_aggregation_link_choice _ _ _ H)
                   (Some (js "https://cdn.example/hd.mp4")) _) _ eq_refl _).
  - apply (@hp_hd _ Samples.sdThenHd
             {| l_quality := Some (js "hd");
                l_link := Some (js "https://cdn.example/hd.mp4") |});
      [reflexivity|].
    exists [ {| l_quality := Some (js "sd");
                l_link := Some (js "https://cdn.example/sd.mp4") |} ], [].
    split; [reflexivity|]. split; [reflexivity|].
    intros g [<-|[]] Hg. vm_compute in Hg. discriminate.
  - vm_compute. discriminate.
Defined.

(** The claim as first stated fails twice.  With a list holding an sd link
    and then an hd link, the TikTok download fetches the sd link, the first
    of the list.  With a non-empty list whose hd entry has an empty link,
    the Facebook download raises the no-link error. *)
Lemma C6_counterexample :
  (exists doc tr1 r tr',
     fetchFromRapidAPI Samples.sdThenHdWorld Samples.tiktokUrl [] = (Ok doc, tr1) /\
     d_links doc = Some Samples.sdThenHd /\
     Download.downloadTikTok Samples.sdThenHdWorld Samples.tiktokUrl [] = (Ok r, tr') /\
     Samples.fetchedUrls tr'
     = [ Samples.apiUrlOf (js "https%3A%2F%2Fvm.tiktok.com%2FABC123");
         js "https://cdn.example/sd.mp4" ]) /\
  (exists doc tr1,
     fetchFromRapidAPI Samples.hdEmptyWorld Samples.facebookUrl [] = (Ok doc, tr1) /\
     d_links doc = Some Samples.hdEmpty /\ Samples.hdEmpty <> [] /\
     Download.downloadFacebook_try Samples.hdEmptyWorld Samples.facebookUrl []
     = (Throw NO_LINK, tr1)).
Proof.
  split.
  - do 4 eexists. repeat split; vm_compute; reflexivity.
  - do 2 eexists. split; [vm_compute; reflexivity|].
    split; [vm_compute; reflexivity|].
    split; [discriminate | vm_compute; reflexivity].
Qed.

Module RelayFacts.

Lemma detect_known_truthy url :
  Route.detectPlatform url <> unknown -> truthy url = true.
Proof. destruct url; [intros H; now destruct H | reflexivity]. Qed.

Lemma streamVideo_refused W u f tr resp :
  fetch W tr u [(js "User-Agent", Download.USER_AGENT)] = Ok resp ->
  ok resp = false ->
  Download.streamVideo W u f tr
  = (Throw (js "Failed to download video stream"),
     tr ++ [EvFetch u [(js "User-Agent", Download.USER_AGENT)]]).
Proof.
  intros Hf Hok. unfold Download.streamVideo. unfold_eff.
  now rewrite Hf, Hok.
Qed.

Lemma RAPIDAPI_KEY_truthy W : truthy (RAPIDAPI_KEY W) = true.
Proof.
  unfold RAPIDAPI_KEY, or_else. destruct (env_RAPIDAPI_KEY W) as [k|].
  - destruct (truthy k) eqn:E; [exact E | reflexivity].
  - reflexivity.
Qed.

Lemma fetchFromRapidAPI_trace W url tr encoded :
  encodeURIComponent url = Some encoded ->
  snd (fetchFromRapidAPI W url tr) = tr ++ [apiRequest W encoded].
Proof.
  intros He. unfold fetchFromRapidAPI. rewrite RAPIDAPI_KEY_truthy, He.
  unfold_eff. simpl. unfold apiRequest.
  destruct (fetch W tr _ _); simpl; [|reflexivity].
  destruct (negb (ok a)); simpl; [reflexivity|].
  destruct (json a); reflexivity.
Qed.

End RelayFacts.
Import RelayFacts.

(** C7 (as amended).  For a TikTok, Instagram or Facebook download, when
    the fetch of the chosen media link answers with a non-success status,
    [streamVideo] throws ["Failed to download video stream"] right after
    that fetch, the downloader's catch block replaces the message by its
    own, and the route answers with a 500 JSON error; no streaming response
    is built, so no body byte is sent. *)
Theorem C7_upstream_failure_reported :
  forall (W : World) (url : str) (q : JsVal) (tr tr1 : Trace) (doc : Doc)
         (u : str) (resp : FetchResponse),
    fetchFromRapidAPI W url tr = (Ok doc, tr1) ->
    u <> [] ->
    fetch W tr1 u [(js "User-Agent", Download.USER_AGENT)] = Ok resp ->
    ok resp = false ->
    let tr2 := tr1 ++ [EvFetch u [(js "User-Agent", Download.USER_AGENT)]] in
    (forall filename,
       Download.streamVideo W u filename tr1
       = (Throw (js "Failed to download video stream"), tr2)) /\
    (Route.detectPlatform url = tiktok -> Download.firstLink doc = Some u ->
     Download.POST W (Ok (BodyFields (VStr url) q)) tr
     = (Ok (JsonMessage 500 (js "Failed to download TikTok video via RapidAPI")),
        tr2 ++ [EvConsole (js "TikTok download error:");
                EvConsole (js "Download error:")])) /\
    (Route.detectPlatform url = instagram -> Download.firstLink doc = Some u ->
     Download.POST W (Ok (BodyFields (VStr url) q)) tr
     = (Ok (JsonMessage 500 (js "Failed to download Instagram video via RapidAPI")),
        tr2 ++ [EvConsole (js "Instagram download error:");
                EvConsole (js "Download error:")])) /\
    (Route.detectPlatform url = facebook -> Download.hdOrFirstLink doc = Some u ->
     Download.POST W (Ok (BodyFields (VStr url) q)) tr
     = (Ok (JsonMessage 500 (js "Failed to download Facebook video via RapidAPI")),
        tr2 ++ [EvConsole (js "Facebook download error:");
                EvConsole (js "Download error:")])).
Proof.
  intros W url q tr tr1 doc u resp Hapi Hu Hf Hok tr2.
  pose proof (fun f => @streamVideo_refused W u f tr1 resp Hf Hok) as Hsv.
  destruct (downloaders_after_api _ _ _ Hapi) as (Ht & Hi & Hfb).
  split; [exact Hsv|].
  repeat split; intros Hp Hl;
    (assert (Hurl : truthy url = true)
       by (apply detect_known_truthy; rewrite Hp; discriminate));
    unfold Download.POST, Download.downloadTikTok, Download.downloadInstagram,
      Download.downloadFacebook;
    unfold try_catch at 1; unfold bind at 1; unfold lift; simpl;
    rewrite Hurl, Hp; simpl; unfold try_catch;
    rewrite ?Ht, ?Hi, ?Hfb, Hl, (streamChosen_usable _ _ _ Hu), Hsv;
    unfold_eff; simpl; unfold tr2; rewrite <- !app_assoc; reflexivity.
Qed.

Lemma C7_witness :
  Download.POST Samples.forbiddenWorld
    (Ok (BodyFields (VStr Samples.tiktokUrl) VUndefined)) []
  = (Ok (JsonMessage 500 (js "Failed to download TikTok video via RapidAPI")),
     ([apiRequest Samples.forbiddenWorld (js "https%3A%2F%2Fvm.tiktok.com%2FABC123")]
      ++ [EvFetch (js "https://cdn.example/sd.mp4")
                  [(js "User-Agent", Download.USER_AGENT)]])
     ++ [EvConsole (js "TikTok download error:"); EvConsole (js "Download error:")]).
Proof.
  refine (proj1 (proj2
    (@C7_upstream_failure_reported Samples.forbiddenWorld Samples.tiktokUrl
       VUndefined [] _ (Samples.docOf None (Some Samples.sdThenHd))
       (js "https://cdn.example/sd.mp4")
       (Samples.mediaResponse 403 (js "Forbidden") []) _ _ _ _)) _ _);
    try (vm_compute; reflexivity).
  vm_compute; discriminate.
Defined.

(** The claim as first stated fails for a YouTube download: the handler
    hands the ytdl-core stream to the client in a 200 response without
    waiting for the media transfer, so a transfer refused with 403 ends the
    body stream with an error instead of producing a 500 JSON error. *)
Lemma C7_counterexample :
  exists headers tr',
    Download.POST Samples.ytdlForbidden Samples.watchRequest []
    = (Ok (Stream headers
             {| chunks := []; ending := Errored (js "Status code: 403") |}), tr') /\
    (forall f, ytdl_download Samples.ytdlForbidden
                 [EvGetInfo Samples.watchUrl] Samples.watchUrl f
               = {| chunks := []; ending := Errored (js "Status code: 403") |}) /\
    response_status
      (Stream headers {| chunks := []; ending := Errored (js "Status code: 403") |})
    = 200%N.
Proof.
  do 2 eexists. split; [vm_compute; reflexivity|].
  split; [intros f; reflexivity | reflexivity].
Qed.

Module KeyFacts.

(** Whatever the environment holds, the key is a non-empty string: the
    value of the environment when it is set and not empty, the built-in
    key otherwise.  The guard of [fetchFromRapidAPI] is therefore never
    taken: the request is sent with that key (or the URL cannot be
    encoded). *)
Lemma configured_key_guard_unreachable (W : World) :
  truthy (RAPIDAPI_KEY W) = true /\
  (env_RAPIDAPI_KEY W = None \/ env_RAPIDAPI_KEY W = Some [] ->
   RAPIDAPI_KEY W = DEFAULT_KEY) /\
  (forall k, env_RAPIDAPI_KEY W = Some k -> k <> [] -> RAPIDAPI_KEY W = k) /\
  (forall url tr encoded,
     encodeURIComponent url = Some encoded ->
     snd (fetchFromRapidAPI W url tr) = tr ++ [apiRequest W encoded]) /\
  (forall url tr,
     encodeURIComponent url = None ->
     fetchFromRapidAPI W url tr = (Throw (js "URI malformed"), tr)) /\
  (forall url tr,
     fetchFromRapidAPI W url tr
     <> (Throw (js "RAPIDAPI_KEY is not configured"), tr)).
Proof.
  split; [apply RAPIDAPI_KEY_truthy|].
  split; [|split; [|split; [|split]]].
  - unfold RAPIDAPI_KEY. intros [-> | ->]; reflexivity.
  - unfold RAPIDAPI_KEY, or_else. intros k -> Hk.
    apply truthy_nonempty in Hk. now rewrite Hk.
  - intros; now apply fetchFromRapidAPI_trace.
  - intros url tr He. unfold fetchFromRapidAPI.
    now rewrite RAPIDAPI_KEY_truthy, He.
  - intros url tr H. destruct (encodeURIComponent url) as [encoded|] eqn:He.
    + pose proof (@fetchFromRapidAPI_trace W url tr encoded He) as Ht.
      rewrite H in Ht. simpl in Ht.
      apply (f_equal (@length Event)) in Ht. rewrite length_app in Ht.
      simpl in Ht. lia.
    + unfold fetchFromRapidAPI in H.
      rewrite RAPIDAPI_KEY_truthy, He in H. simpl in H.
      unfold throw in H. injection H as H. vm_compute in H. discriminate.
Qed.

End KeyFacts.

(** C8 (defect of the code).  With no key in the environment, the
    aggregation fetch run on a TikTok URL does not raise
    ["RAPIDAPI_KEY is not configured"]: the key falls back to the built-in
    one, the guard is passed, and the request is sent with that key (here
    the network then refuses it). *)
Theorem C8_absent_key_request_sent :
  env_RAPIDAPI_KEY Samples.offline = None /\
  negb (truthy (RAPIDAPI_KEY Samples.offline)) = false /\
  fetchFromRapidAPI Samples.offline Samples.tiktokUrl []
  = (Throw (js "fetch failed"),
     [EvFetch (Samples.apiUrlOf (js "https%3A%2F%2Fvm.tiktok.com%2FABC123"))
              [(js "x-rapidapi-key", DEFAULT_KEY);
               (js "x-rapidapi-host", RAPIDAPI_HOST)]]) /\
  fst (fetchFromRapidAPI Samples.offline Samples.tiktokUrl [])
  <> Throw (js "RAPIDAPI_KEY is not configured").
Proof.
  split; [reflexivity|]. split; [reflexivity|].
  split; [vm_compute; reflexivity|].
  vm_compute. discriminate.
Qed.

(* ------------------------------------------------------------------ *)
(** ** The client-side classifier against the server-side one *)

Module RefineFacts.

Lemma cw_app_l i r w1 w2 : contains_word i r w1 -> contains_word i r (w1 ++ w2).
Proof.
  intros (a & m & b & -> & Hm). exists a, m, (b ++ w2).
  split; [now rewrite <- !app_assoc | assumption].
Qed.

Lemma cw_app_r i r w1 w2 : contains_word i r w2 -> contains_word i r (w1 ++ w2).
Proof.
  intros (a & m & b & -> & Hm). exists (w1 ++ a), m, b.
  split; [now rewrite <- !app_assoc | assumption].
Qed.

Lemma cw_alt_l i r1 r2 w : contains_word i r1 w -> contains_word i (Alt r1 r2) w.
Proof. intros (a & m & b & -> & Hm). exists a, m, b. split; auto. now apply m_alt_l. Qed.

Lemma cw_alt_r i r1 r2 w : contains_word i r2 w -> contains_word i (Alt r1 r2) w.
Proof. intros (a & m & b & -> & Hm). exists a, m, b. split; auto. now apply m_alt_r. Qed.

(** A word of the literal [a ++ l ++ b] contains a word of the literal [l]. *)
Lemma cw_lit a l b w :
  matches true (Lit (a ++ l ++ b)) w -> contains_word true (Lit l) w.
Proof.
  intros H. apply matches_Lit_ci in H. rewrite !map_app in H.
  apply map_eq_app in H. destruct H as (wa & w' & -> & Ha & H).
  apply map_eq_app in H. destruct H as (wl & wb & -> & Hl & Hb).
  exists wa, wl, wb. split; [reflexivity|]. now apply matches_Lit_ci.
Qed.

Lemma test_contains i r url : test i r url = true <-> contains_word i r url.
Proof. apply test_spec. Qed.

(** If every word of [r1] contains a word of [r2], then [r2] is found
    wherever [r1] is. *)
Lemma test_mono i r1 r2 :
  (forall w, matches i r1 w -> contains_word i r2 w) ->
  forall url, test i r1 url = true -> test i r2 url = true.
Proof.
  intros H url Ht. apply test_contains in Ht. apply test_contains.
  destruct Ht as (a & m & b & -> & Hm).
  apply cw_app_r, cw_app_l. now apply H.
Qed.

Lemma youtube_refines url :
  test true Store.re_youtube url = true -> test true Route.re_youtube url = true.
Proof.
  apply test_mono. intros w Hw. unfold Store.re_youtube in Hw.
  apply matches_Alt_inv in Hw. destruct Hw as [Hw|Hw].
  - apply matches_Seq_inv in Hw. destruct Hw as (w1 & w2 & -> & H1 & _).
    apply cw_app_l, cw_alt_l.
    apply (@cw_lit [] (js "youtube.com") (js "/")). exact H1.
  - apply cw_alt_r. apply (@cw_lit [] (js "youtu.be") (js "/")). exact Hw.
Qed.

Lemma tiktok_refines url :
  test true Store.re_tiktok url = true -> test true Route.re_tiktok url = true.
Proof.
  apply test_mono. intros w Hw. unfold Store.re_tiktok in Hw.
  apply matches_Alt_inv in Hw. destruct Hw as [Hw|Hw].
  - apply matches_Seq_inv in Hw. destruct Hw as (w1 & w2 & -> & H1 & _).
    apply cw_app_l.
    apply (@cw_lit [] (js "tiktok.com") (js "/@")). exact H1.
  - apply (@cw_lit (js "vm.") (js "tiktok.com") (js "/")). exact Hw.
Qed.

Lemma instagram_refines url :
  test true Store.re_instagram url = true ->
  test true Route.re_instagram url = true.
Proof.
  apply test_mono. intros w Hw. unfold Store.re_instagram in Hw.
  apply matches_Seq_inv in Hw. destruct Hw as (w1 & w2 & -> & H1 & _).
  apply cw_app_l.
  apply (@cw_lit [] (js "instagram.com") (js "/")). exact H1.
Qed.

Lemma facebook_refines url :
  test true Store.re_facebook url = true ->
  test true Route.re_facebook url = true.
Proof.
  apply test_mono. intros w Hw. unfold Store.re_facebook in Hw.
  apply matches_Alt_inv in Hw. destruct Hw as [Hw|Hw].
  - apply matches_Seq_inv in Hw. destruct Hw as (w1 & w2 & -> & H1 & _).
    apply cw_app_l, cw_alt_l.
    apply (@cw_lit [] (js "facebook.com") (js "/")). exact H1.
  - apply cw_alt_r. apply (@cw_lit [] (js "fb.watch") (js "/")). exact Hw.
Qed.

Lemma client_detect_unfold url :
  Store.detectPlatform url =
  if test true Store.re_youtube url then youtube
  else if test true Store.re_tiktok url then tiktok
  else if test true Store.re_instagram url then instagram
  else if test true Store.re_facebook url then facebook
  else unknown.
Proof.
  unfold Store.detectPlatform, Store.patterns.
  cbn [Store.firstMatch Store.isUnknown negb andb].
  destruct (test true Store.re_youtube url); [reflexivity|].
  destruct (test true Store.re_tiktok url); [reflexivity|].
  destruct (test true Store.re_instagram url); [reflexivity|].
  destruct (test true Store.re_facebook url); reflexivity.
Qed.

(** The server answers with the first of its rules that matches. *)
Lemma server_rank_le url p :
  p <> unknown -> test true (server_rule p) url = true ->
  Route.detectPlatform url <> unknown /\
  rank (Route.detectPlatform url) <= rank p.
Proof.
  intros Hp Ht. unfold Route.detectPlatform.
  destruct p; simpl in Ht; try (now destruct Hp); rewrite ?Ht;
    destruct (test true Route.re_youtube url) eqn:E1; simpl;
    try (split; [discriminate | lia]); try discriminate;
    rewrite ?Ht;
    destruct (test true Route.re_tiktok url) eqn:E2; simpl;
    try (split; [discriminate | lia]); try discriminate;
    rewrite ?Ht;
    destruct (test true Route.re_instagram url) eqn:E3; simpl;
    try (split; [discriminate | lia]); try discriminate;
    rewrite ?Ht; simpl; try (split; [discriminate | lia]).
Qed.

End RefineFacts.
Import RefineFacts.

(** C10 (as amended).  When the client-side classifier returns a platform
    other than [unknown], the server-side pattern of that platform matches
    the URL too; so the server-side classifier returns that platform or one
    whose rule it tries earlier, never [unknown], and it returns [youtube]
    whenever the client does.  The converse fails: the server classifies
    some URLs that are [unknown] to the client. *)
Theorem C10_client_classification_against_server :
  (forall (url : str) (p : Platform),
     Store.detectPlatform url = p -> p <> unknown ->
     test true (server_rule p) url = true /\
     Route.detectPlatform url <> unknown /\
     rank (Route.detectPlatform url) <= rank p /\
     (p = youtube -> Route.detectPlatform url = youtube)) /\
  (exists url : str,
     Route.detectPlatform url = youtube /\ Store.detectPlatform url = unknown).
Proof.
  split.
  - intros url p Hc Hp.
    assert (Ht : test true (server_rule p) url = true).
    { rewrite client_detect_unfold in Hc.
      destruct (test true Store.re_youtube url) eqn:E1.
      { subst p. now apply youtube_refines. }
      destruct (test true Store.re_tiktok url) eqn:E2.
      { subst p. now apply tiktok_refines. }
      destruct (test true Store.re_instagram url) eqn:E3.
      { subst p. now apply instagram_refines. }
      destruct (test true Store.re_facebook url) eqn:E4.
      { subst p. now apply facebook_refines. }
      subst p. now destruct Hp. }
    destruct (server_rank_le url Hp Ht) as [Hne Hle].
    repeat split; auto.
    intros ->. now apply detect_youtube.
  - exists (js "https://youtube.com/embed/abc").
    split; vm_compute; reflexivity.
Qed.

Lemma C10_witness :
  Store.detectPlatform Samples.tiktokUrl = tiktok /\
  test true (server_rule tiktok) Samples.tiktokUrl = true /\
  Route.detectPlatform Samples.tiktokUrl <> unknown /\
  rank (Route.detectPlatform Samples.tiktokUrl) <= rank tiktok /\
  (tiktok = youtube -> Route.detectPlatform Samples.tiktokUrl = youtube).
Proof.
  split; [vm_compute; reflexivity|].
  apply (proj1 C10_client_classification_against_server Samples.tiktokUrl tiktok).
  - vm_compute; reflexivity.
  - discriminate.
Defined.

(** The claim as first stated fails: the client classifies this URL as
    [tiktok], the server as [youtube]. *)
Lemma C10_counterexample :
  Store.detectPlatform (js "https://vm.tiktok.com/youtube.com") = tiktok /\
  tiktok <> unknown /\
  Route.detectPlatform (js "https://vm.tiktok.com/youtube.com") = youtube /\
  youtube <> tiktok.
Proof.
  split; [vm_compute; reflexivity|]. split; [discriminate|].
  split; [vm_compute; reflexivity | discriminate].
Qed.

(* ------------------------------------------------------------------ *)
(** ** The status of a video in the client *)

Module UIFacts.
Import Store UI.

Lemma merge_id v u : id (merge v u) = id v.
Proof. reflexivity. Qed.

Lemma updateVideo_ids j u vs : map id (updateVideo j u vs) = map id vs.
Proof.
  unfold updateVideo. rewrite map_map. apply map_ext.
  intros v. now destruct (N.eqb (id v) j).
Qed.

Lemma find_updateVideo i j u vs :
  find (hasId i) (updateVideo j u vs)
  = option_map (fun v => if N.eqb (id v) j then merge v u else v)
               (find (hasId i) vs).
Proof.
  induction vs as [|v vs IH]; simpl; [reflexivity|].
  unfold hasId at 1 3.
  destruct (N.eqb (id v) j) eqn:Ej; simpl; rewrite ?merge_id;
    destruct (N.eqb (id v) i) eqn:Ei; simpl; rewrite ?Ej; auto.
Qed.

Lemma find_hasId i vs v : find (hasId i) vs = Some v -> id v = i /\ In v vs.
Proof.
  intros H. apply find_some in H. destruct H as [Hin H].
  apply N.eqb_eq in H. auto.
Qed.

(** The status of [i] after [updateVideo j u]. *)
Lemma status_updateVideo i j u s tk iss :
  status_of i {| videos := updateVideo j u (videos s); tasks := tk; issued := iss |}
  = if N.eqb i j
    then option_map (fun st => over (u_status u) st) (status_of i s)
    else status_of i s.
Proof.
  unfold status_of, findVideo. simpl.
  rewrite find_updateVideo.
  destruct (find (hasId i) (videos s)) as [v|] eqn:E; simpl.
  - apply find_hasId in E. destruct E as [-> _].
    now destruct (N.eqb i j).
  - now destruct (N.eqb i j).
Qed.

Lemma nodup_filter_ids (q : VideoInfo -> bool) vs :
  NoDup (map id vs) -> NoDup (map id (filter q vs)).
Proof.
  induction vs as [|v vs IH]; simpl; [auto|].
  intros H. apply NoDup_cons_iff in H. destruct H as [Hn Hd].
  destruct (q v); simpl; [|auto].
  constructor; [|auto]. intros Hin. apply Hn.
  apply in_map_iff in Hin. destruct Hin as (x & Hx & Hin).
  apply filter_In in Hin. rewrite <- Hx. apply in_map. tauto.
Qed.

(** With distinct ids, what is found after filtering was found before. *)
Lemma find_filter_nodup (q : VideoInfo -> bool) i vs v :
  NoDup (map id vs) ->
  find (hasId i) (filter q vs) = Some v -> find (hasId i) vs = Some v.
Proof.
  induction vs as [|x vs IH]; simpl; [discriminate|].
  intros H Hf. apply NoDup_cons_iff in H. destruct H as [Hn Hd].
  destruct (q x); simpl in Hf.
  - destruct (hasId i x); [assumption | auto].
  - specialize (IH Hd Hf). destruct (hasId i x) eqn:Ex; [|assumption].
    exfalso. apply Hn. apply N.eqb_eq in Ex. rewrite Ex.
    apply find_hasId in IH. destruct IH as [<- Hin]. now apply in_map.
Qed.

Lemma status_filter (q : VideoInfo -> bool) i s tk iss st :
  NoDup (map id (videos s)) ->
  status_of i {| videos := filter q (videos s); tasks := tk; issued := iss |}
    = Some st ->
  status_of i s = Some st.
Proof.
  unfold status_of, findVideo. simpl. intros Hd H.
  destruct (find (hasId i) (filter q (videos s))) as [v|] eqn:E;
    [|discriminate].
  apply find_filter_nodup in E; [|assumption]. now rewrite E.
Qed.

Lemma status_addVideo i uuid u s tk iss :
  status_of i {| videos := addVideo uuid u (videos s); tasks := tk; issued := iss |}
  = match status_of i s with
    | Some st => Some st
    | None => if N.eqb uuid i then Some pending else None
    end.
Proof.
  unfold status_of, findVideo, addVideo. simpl.
  induction (videos s) as [|v vs IH]; simpl.
  - unfold hasId; simpl. now destruct (N.eqb uuid i).
  - destruct (hasId i v); [reflexivity | exact IH].
Qed.

Lemma status_some_issued i s st :
  Inv s -> status_of i s = Some st -> In i (issued s).
Proof.
  intros HI H. unfold status_of, findVideo in H.
  destruct (find (hasId i) (videos s)) as [v|] eqn:E; [|discriminate].
  apply find_hasId in E. destruct E as [<- Hin]. now apply (inv_ids HI).
Qed.

Lemma allowed_refl a : allowed a a = true.
Proof. now destruct a. Qed.

Lemma Task_eqb_eq a b : Task_eqb a b = true <-> a = b.
Proof.
  destruct a, b; simpl; rewrite ?N.eqb_eq; split; try congruence;
    try discriminate.
Qed.

Lemma hasTask_In t s : hasTask t s = true <-> In t (tasks s).
Proof.
  unfold hasTask. rewrite existsb_exists. split.
  - intros (x & Hin & Hx). apply Task_eqb_eq in Hx. now subst.
  - intros H. exists t. split; [assumption|]. now apply Task_eqb_eq.
Qed.

Lemma dropTask_In t x l : In x (dropTask t l) -> In x l.
Proof.
  induction l as [|y l IH]; simpl; [auto|].
  destruct (Task_eqb t y); simpl; tauto.
Qed.

Lemma dropTask_ids t l :
  NoDup (map task_id l) -> In t l ->
  NoDup (map task_id (dropTask t l)) /\
  ~ In (task_id t) (map task_id (dropTask t l)).
Proof.
  induction l as [|y l IH]; simpl; [tauto|].
  intros Hd Hin. apply NoDup_cons_iff in Hd. destruct Hd as [Hn Hd].
  destruct (Task_eqb t y) eqn:E.
  - apply Task_eqb_eq in E. subst y. auto.
  - destruct Hin as [-> | Hin].
    { rewrite (proj2 (Task_eqb_eq t t) eq_refl) in E. discriminate. }
    destruct (IH Hd Hin) as [Hd' Hn']. simpl. split.
    + constructor; [|assumption]. intros Hy. apply Hn.
      apply in_map_iff in Hy. destruct Hy as (x & Hx & Hxin).
      rewrite <- Hx. apply in_map. eapply dropTask_In; eassumption.
    + intros [Heq | Hin']; [|contradiction].
      apply Hn. rewrite Heq. now apply in_map.
Qed.

(** *** Actions that update one video *)

Section Update.
Variables (s : State) (i : N) (u : Updates) (tk : list Task).
Let s' := {| videos := updateVideo i u (videos s); tasks := tk;
             issued := issued s |}.

Lemma status_update_other j : j <> i -> status_of j s' = status_of j s.
Proof.
  intros Hj. unfold s'. rewrite status_updateVideo.
  apply N.eqb_neq in Hj. now rewrite Hj.
Qed.

Lemma status_update_same :
  status_of i s' = option_map (fun st => over (u_status u) st) (status_of i s).
Proof. unfold s'. now rewrite status_updateVideo, N.eqb_refl. Qed.

Lemma inv_update :
  Inv s ->
  (forall t, In t tk -> In (task_id t) (issued s)) ->
  NoDup (map task_id tk) ->
  (forall t st, In t tk -> status_of (task_id t) s' = Some st ->
                st = expected t) ->
  Inv s'.
Proof.
  intros HI Hids Hnd Hexp. constructor; simpl; try assumption.
  - intros v Hv. apply (in_map id) in Hv. rewrite updateVideo_ids in Hv.
    apply in_map_iff in Hv. destruct Hv as (x & <- & Hx).
    now apply (inv_ids HI).
  - rewrite updateVideo_ids. apply (inv_nodup HI).
Qed.

Lemma step_ok_update :
  (forall a, status_of i s = Some a ->
             allowed a (over (u_status u) a) = true) ->
  forall j, step_ok j s s'.
Proof.
  intros Ha j. unfold step_ok.
  destruct (N.eq_dec j i) as [-> | Hj].
  - rewrite status_update_same.
    destruct (status_of i s) as [a|]; simpl; auto.
  - rewrite (status_update_other Hj).
    destruct (status_of j s); auto using allowed_refl.
Qed.
End Update.

(** A handler in flight finishes: its task goes, the others stay as they
    are. *)
Lemma inv_finish s i u t :
  Inv s -> In t (tasks s) -> task_id t = i ->
  Inv {| videos := updateVideo i u (videos s);
         tasks := dropTask t (tasks s); issued := issued s |}.
Proof.
  intros HI Hin Hid.
  destruct (@dropTask_ids t (tasks s) (inv_tasks_nodup HI) Hin) as [Hnd Hni].
  apply inv_update; auto.
  - intros x Hx. apply (inv_tasks HI). eapply dropTask_In; eassumption.
  - intros x st Hx Hst.
    assert (Hne : task_id x <> i).
    { intros Heq. apply Hni. rewrite Hid, <- Heq. now apply in_map. }
    rewrite status_update_other in Hst by assumption.
    apply (inv_expected HI) with (t := x); [|assumption].
    eapply dropTask_In; eassumption.
Qed.

(** A handler in flight moves on: its task is replaced by [t']. *)
Lemma inv_replace s i u t t' :
  Inv s -> In t (tasks s) -> task_id t = i -> task_id t' = i ->
  u_status u = Some (expected t') ->
  Inv {| videos := updateVideo i u (videos s);
         tasks := t' :: dropTask t (tasks s); issued := issued s |}.
Proof.
  intros HI Hin Hid Hid' Hu.
  destruct (@dropTask_ids t (tasks s) (inv_tasks_nodup HI) Hin) as [Hnd Hni].
  apply inv_update; auto.
  - intros x [<- | Hx].
    + rewrite Hid', <- Hid. now apply (inv_tasks HI).
    + apply (inv_tasks HI). eapply dropTask_In; eassumption.
  - simpl. constructor; [|assumption]. now rewrite Hid', <- Hid.
  - intros x st [<- | Hx] Hst.
    + rewrite Hid', status_update_same, Hu in Hst.
      destruct (status_of i s); simpl in Hst; congruence.
    + assert (Hne : task_id x <> i).
      { intros Heq. apply Hni. rewrite Hid, <- Heq. now apply in_map. }
      rewrite status_update_other in Hst by assumption.
      apply (inv_expected HI) with (t := x); [|assumption].
      eapply dropTask_In; eassumption.
Qed.

(** *** Actions that remove videos *)

Lemma inv_filter s (q : VideoInfo -> bool) :
  Inv s ->
  Inv {| videos := filter q (videos s); tasks := tasks s; issued := issued s |}.
Proof.
  intros HI. constructor; simpl.
  - intros v Hv. apply filter_In in Hv. now apply (inv_ids HI).
  - apply nodup_filter_ids, (inv_nodup HI).
  - apply (inv_tasks HI).
  - apply (inv_tasks_nodup HI).
  - intros t st Hin Hst. apply status_filter in Hst; [|apply (inv_nodup HI)].
    now apply (inv_expected HI) with (t := t).
Qed.

Lemma step_ok_filter s (q : VideoInfo -> bool) j :
  Inv s ->
  step_ok j s {| videos := filter q (videos s); tasks := tasks s;
                 issued := issued s |}.
Proof.
  intros HI. unfold step_ok.
  destruct (status_of j {| videos := filter q (videos s) |}) as [b|] eqn:E.
  - apply status_filter in E; [|apply (inv_nodup HI)]. rewrite E.
    apply allowed_refl.
  - now destruct (status_of j s).
Qed.

Lemma step_ok_refl j s : step_ok j s s.
Proof.
  unfold step_ok. destruct (status_of j s); auto using allowed_refl.
Qed.

(** *** One action *)

Lemma nodup_snoc (l : list N) x : NoDup l -> ~ In x l -> NoDup (l ++ [x]).
Proof.
  induction l as [|y l IH]; simpl; intros Hd Hn.
  - constructor; [tauto | constructor].
  - apply NoDup_cons_iff in Hd. destruct Hd as [Hy Hd].
    constructor; [|apply IH; tauto].
    intros Hin. apply in_app_or in Hin. destruct Hin as [Hin | [-> | []]]; tauto.
Qed.

Lemma task_expected_status s t a :
  Inv s -> hasTask t s = true -> status_of (task_id t) s = Some a ->
  a = expected t.
Proof.
  intros HI Ht Ha. apply hasTask_In in Ht.
  now apply (inv_expected HI) with (t := t).
Qed.

Lemma isReady_status i s : isReady i s = true -> status_of i s = Some ready.
Proof.
  unfold isReady. destruct (status_of i s) as [[]|]; try discriminate.
  reflexivity.
Qed.

Lemma not_issued uuid s :
  existsb (N.eqb uuid) (issued s) = false -> ~ In uuid (issued s).
Proof.
  intros H Hin. assert (existsb (N.eqb uuid) (issued s) = true).
  { apply existsb_exists. exists uuid. split; [assumption | apply N.eqb_refl]. }
  congruence.
Qed.

Lemma perform_AnalyzeSubmit s s' u uuid :
  Inv s -> perform (AnalyzeSubmit u uuid) s = Some s' ->
  Inv s' /\ (forall j, step_ok j s s') /\ incl (issued s) (issued s').
Proof.
  intros HI H. unfold perform in H.
  destruct (existsb (N.eqb uuid) (issued s)) eqn:Ei; [discriminate|].
  apply not_issued in Ei.
  assert (Hsame : Inv s /\ (forall j, step_ok j s s) /\ incl (issued s) (issued s))
    by (split; [assumption | split; [intros; apply step_ok_refl | apply incl_refl]]).
  destruct (negb (trim_nonempty u)); [injection H as <-; exact Hsame|].
  destruct (isUnknown (detectPlatform u)); [injection H as <-; exact Hsame|].
  destruct (maxVideos <=? length (videos s))%nat; [injection H as <-; exact Hsame|].
  destruct (existsb _ (videos s)); [injection H as <-; exact Hsame|].
  injection H as <-. clear Hsame.
  assert (Hnone : status_of uuid s = None).
  { destruct (status_of uuid s) eqn:E; [|reflexivity].
    exfalso. apply Ei. eapply status_some_issued; eassumption. }
  split; [|split].
  - constructor; simpl.
    + intros v Hv. unfold addVideo in Hv. apply in_app_or in Hv.
      destruct Hv as [Hv | [<- | []]]; [right; now apply (inv_ids HI) | now left].
    + unfold addVideo. rewrite map_app. simpl.
      apply nodup_snoc; [apply (inv_nodup HI)|].
      intros Hin. apply Ei. apply in_map_iff in Hin.
      destruct Hin as (v & <- & Hv). now apply (inv_ids HI).
    + intros t [<- | Ht]; [now left | right; now apply (inv_tasks HI)].
    + constructor; [|apply (inv_tasks_nodup HI)].
      intros Hin. apply Ei. apply in_map_iff in Hin.
      destruct Hin as (t & <- & Ht). now apply (inv_tasks HI).
    + intros t st [<- | Ht] Hst; rewrite status_addVideo in Hst.
      * simpl in Hst. rewrite Hnone, N.eqb_refl in Hst. simpl. congruence.
      * assert (Hne : N.eqb uuid (task_id t) = false).
        { apply N.eqb_neq. intros ->. apply Ei. now apply (inv_tasks HI). }
        rewrite Hne in Hst. apply (inv_expected HI) with (t := t); [assumption|].
        destruct (status_of (task_id t) s); [assumption | discriminate].
  - intros j. unfold step_ok. rewrite status_addVideo.
    destruct (status_of j s) as [a|]; [apply allowed_refl|].
    destruct (N.eqb uuid j) eqn:E; [|exact I].
    apply N.eqb_eq in E. subst j. auto.
  - simpl. apply incl_tl, incl_refl.
Qed.

Lemma perform_step a s s' :
  Inv s -> perform a s = Some s' ->
  Inv s' /\ (forall j, step_ok j s s') /\ incl (issued s) (issued s').
Proof.
  intros HI H. destruct a as [u uuid|i|i data|i msg|i|i pc|i|i msg|i| |i quality].
  - eapply perform_AnalyzeSubmit; eassumption.
  - unfold perform in H. destruct (hasTask (Added i) s) eqn:Ht; [|discriminate].
    injection H as <-. split; [|split; [|apply incl_refl]].
    + apply inv_replace with (t := Added i) (t' := AwaitAnalyze i); auto.
      now apply hasTask_In.
    + apply step_ok_update. intros a Ha.
      rewrite (@task_expected_status s (Added i) a HI Ht Ha). reflexivity.
  - unfold perform in H. destruct (hasTask (AwaitAnalyze i) s) eqn:Ht; [|discriminate].
    injection H as <-. split; [|split; [|apply incl_refl]].
    + apply inv_finish with (t := AwaitAnalyze i); auto. now apply hasTask_In.
    + apply step_ok_update. intros a Ha.
      rewrite (@task_expected_status s (AwaitAnalyze i) a HI Ht Ha). reflexivity.
  - unfold perform in H. destruct (hasTask (AwaitAnalyze i) s) eqn:Ht; [|discriminate].
    injection H as <-. split; [|split; [|apply incl_refl]].
    + apply inv_finish with (t := AwaitAnalyze i); auto. now apply hasTask_In.
    + apply step_ok_update. intros a Ha.
      rewrite (@task_expected_status s (AwaitAnalyze i) a HI Ht Ha). reflexivity.
  - unfold perform in H. destruct (isReady i s) eqn:Hr; [|discriminate].
    injection H as <-. apply isReady_status in Hr.
    assert (Hfree : ~ In i (map task_id (tasks s))).
    { intros Hin. apply in_map_iff in Hin. destruct Hin as (t & Hid & Ht).
      rewrite <- Hid in Hr. apply (inv_expected HI) in Hr; [|assumption].
      destruct t; discriminate. }
    split; [|split; [|apply incl_refl]].
    + apply inv_update; auto.
      * intros t [<- | Ht]; [|now apply (inv_tasks HI)].
        simpl. eapply status_some_issued; eassumption.
      * simpl. constructor; [assumption | apply (inv_tasks_nodup HI)].
      * intros t st [<- | Ht] Hst.
        { simpl in Hst. rewrite status_update_same, Hr in Hst.
          simpl in Hst. simpl. congruence. }
        { assert (Hne : task_id t <> i).
          { intros Heq. apply Hfree. rewrite <- Heq. now apply in_map. }
          rewrite status_update_other in Hst by assumption.
          now apply (inv_expected HI) with (t := t). }
    + apply step_ok_update. intros a Ha. rewrite Hr in Ha.
      injection Ha as <-. reflexivity.
  - unfold perform in H. destruct (hasTask (AwaitDownload i) s) eqn:Ht; [|discriminate].
    injection H as <-. split; [|split; [|apply incl_refl]].
    + apply inv_update; auto.
      * apply (inv_tasks HI).
      * apply (inv_tasks_nodup HI).
      * intros t st Hin Hst. apply (inv_expected HI) with (t := t); auto.
        destruct (N.eq_dec (task_id t) i) as [Heq | Hne].
        { rewrite Heq, status_update_same in Hst. rewrite Heq.
          destruct (status_of i s); assumption. }
        { now rewrite status_update_other in Hst. }
    + apply step_ok_update. intros a _. apply allowed_refl.
  - unfold perform in H. destruct (hasTask (AwaitDownload i) s) eqn:Ht; [|discriminate].
    injection H as <-. split; [|split; [|apply incl_refl]].
    + apply inv_finish with (t := AwaitDownload i); auto. now apply hasTask_In.
    + apply step_ok_update. intros a Ha.
      rewrite (@task_expected_status s (AwaitDownload i) a HI Ht Ha). reflexivity.
  - unfold perform in H. destruct (hasTask (AwaitDownload i) s) eqn:Ht; [|discriminate].
    injection H as <-. split; [|split; [|apply incl_refl]].
    + apply inv_finish with (t := AwaitDownload i); auto. now apply hasTask_In.
    + apply step_ok_update. intros a Ha.
      rewrite (@task_expected_status s (AwaitDownload i) a HI Ht Ha). reflexivity.
  - unfold perform in H. injection H as <-. split; [|split; [|apply incl_refl]].
    + now apply inv_filter.
    + intros j. now apply step_ok_filter.
  - unfold perform in H. injection H as <-. split; [|split; [|apply incl_refl]].
    + now apply inv_filter.
    + intros j. now apply step_ok_filter.
  - unfold perform in H. destruct (isReady i s) eqn:Hr; [|discriminate].
    injection H as <-. split; [|split; [|apply incl_refl]].
    + apply inv_update; auto.
      * apply (inv_tasks HI).
      * apply (inv_tasks_nodup HI).
      * intros t st Hin Hst. apply (inv_expected HI) with (t := t); auto.
        destruct (N.eq_dec (task_id t) i) as [Heq | Hne].
        { rewrite Heq, status_update_same in Hst. rewrite Heq.
          destruct (status_of i s); assumption. }
        { now rewrite status_update_other in Hst. }
    + apply step_ok_update. intros a _. apply allowed_refl.
Qed.

Lemma inv_init : Inv init.
Proof.
  constructor; simpl; try tauto; constructor.
Qed.

(** *** Executions *)

Lemma run_cons a acts s states :
  run (a :: acts) s = Some states ->
  exists s1 states1, perform a s = Some s1 /\ run acts s1 = Some states1 /\
                     states = s :: states1.
Proof.
  simpl. destruct (perform a s) as [s1|]; [|discriminate].
  destruct (run acts s1) as [states1|] eqn:E; [|discriminate].
  simpl. intros H. injection H as <-.
  exists s1, states1. split; [reflexivity|]. split; [exact E | reflexivity].
Qed.

Lemma run_head acts s states :
  run acts s = Some states -> nth_error states 0 = Some s.
Proof.
  destruct acts as [|a acts]; simpl.
  - intros H; injection H as <-; reflexivity.
  - destruct (perform a s); [|discriminate].
    destruct (run acts s0); [|discriminate].
    simpl. intros H; injection H as <-; reflexivity.
Qed.

Lemma run_inv acts : forall s states,
  Inv s -> run acts s = Some states ->
  forall n sn, nth_error states n = Some sn -> Inv sn.
Proof.
  induction acts as [|a acts IH]; intros s states HI Hrun n sn Hn.
  - simpl in Hrun. injection Hrun as <-.
    destruct n as [|[|n]]; simpl in Hn; try discriminate. congruence.
  - apply run_cons in Hrun. destruct Hrun as (s1 & states1 & Hp & Hr & ->).
    destruct n as [|n]; simpl in Hn; [congruence|].
    destruct (perform_step _ HI Hp) as (HI1 & _ & _).
    eapply IH; eassumption.
Qed.

Lemma run_steps acts : forall s states,
  Inv s -> run acts s = Some states ->
  forall n a b, nth_error states n = Some a -> nth_error states (S n) = Some b ->
  forall j, step_ok j a b.
Proof.
  induction acts as [|x acts IH]; intros s states HI Hrun n a b Ha Hb j.
  - simpl in Hrun. injection Hrun as <-.
    destruct n as [|n]; simpl in Hb; discriminate.
  - apply run_cons in Hrun. destruct Hrun as (s1 & states1 & Hp & Hr & ->).
    destruct (perform_step _ HI Hp) as (HI1 & Hok & _).
    destruct n as [|n]; simpl in Ha, Hb.
    + injection Ha as <-.
      assert (b = s1); [|subst; apply Hok].
      pose proof (run_head _ _ Hr) as Hh. simpl in Hh. congruence.
    + eapply IH; eassumption.
Qed.

Lemma run_suffix acts : forall s states m sm,
  run acts s = Some states -> nth_error states m = Some sm ->
  exists acts', run acts' sm = Some (skipn m states).
Proof.
  induction acts as [|a acts IH]; intros s states m sm Hrun Hm.
  - simpl in Hrun. injection Hrun as <-.
    destruct m as [|[|m]]; simpl in Hm; try discriminate.
    injection Hm as <-. exists []. reflexivity.
  - destruct m as [|m].
    + pose proof (run_head _ _ Hrun) as Hh. rewrite Hh in Hm.
      injection Hm as <-. exists (a :: acts). exact Hrun.
    + apply run_cons in Hrun. destruct Hrun as (s1 & states1 & Hp & Hr & ->).
      simpl in Hm. simpl. eapply IH; eassumption.
Qed.

Lemma analysed_back a b :
  allowed a b = true -> analysed (Some b) ->
  analysed (Some a) \/ a = analyzing.
Proof.
  unfold analysed.
  destruct a, b; simpl; intros H [Hb|[Hb|[Hb|Hb]]]; try discriminate; auto 6.
Qed.

(** A status that follows a finished analysis was preceded by
    [analyzing]. *)
Lemma run_analysed i acts : forall s states,
  Inv s -> run acts s = Some states ->
  forall n sn, nth_error states n = Some sn -> analysed (status_of i sn) ->
  analysed (status_of i s) \/
  exists m s0, m < n /\ nth_error states m = Some s0 /\
               status_of i s0 = Some analyzing.
Proof.
  induction acts as [|a acts IH]; intros s states HI Hrun n sn Hn Han.
  - simpl in Hrun. injection Hrun as <-.
    destruct n as [|[|n]]; simpl in Hn; try discriminate.
    injection Hn as <-. now left.
  - pose proof (run_head _ _ Hrun) as Hh.
    apply run_cons in Hrun. destruct Hrun as (s1 & states1 & Hp & Hr & ->).
    destruct n as [|n]; simpl in Hn.
    { injection Hn as <-. now left. }
    destruct (perform_step _ HI Hp) as (HI1 & Hok & _).
    destruct (IH _ _ HI1 Hr _ _ Hn Han) as [H1 | (m & s0 & Hm & Hs0 & Hst)].
    + specialize (Hok i). unfold step_ok in Hok.
      destruct (status_of i s1) as [b|] eqn:Eb.
      * destruct (status_of i s) as [a0|] eqn:Ea.
        { destruct (@analysed_back a0 b Hok H1) as [Ha | ->]; [now left|].
          right. exists 0, s. repeat split; [lia | assumption]. }
        { destruct Hok as [-> _]. unfold analysed in H1.
          destruct H1 as [H1|[H1|[H1|H1]]]; discriminate. }
      * unfold analysed in H1. destruct H1 as [H1|[H1|[H1|H1]]]; discriminate.
    + right. exists (S m), s0. repeat split; [lia | assumption | assumption].
Qed.

Lemma past_download_step i s s' :
  step_ok i s s' -> In i (issued s) -> past_download (status_of i s) ->
  past_download (status_of i s').
Proof.
  unfold step_ok, past_download. intros Hok Hi Hp.
  destruct (status_of i s') as [b|]; [|now left].
  destruct (status_of i s) as [a|].
  - destruct a, b; simpl in Hok; try discriminate; auto;
      destruct Hp as [Hp|[Hp|[Hp|Hp]]]; discriminate.
  - destruct Hok as [_ Hn]. contradiction.
Qed.

(** Once a video is downloading, done or failed, or gone, it stays so. *)
Lemma run_past_download i acts : forall s states,
  Inv s -> In i (issued s) -> past_download (status_of i s) ->
  run acts s = Some states ->
  forall n sn, nth_error states n = Some sn -> past_download (status_of i sn).
Proof.
  induction acts as [|a acts IH]; intros s states HI Hi Hp Hrun n sn Hn.
  - simpl in Hrun. injection Hrun as <-.
    destruct n as [|[|n]]; simpl in Hn; try discriminate. congruence.
  - apply run_cons in Hrun. destruct Hrun as (s1 & states1 & Hp1 & Hr & ->).
    destruct n as [|n]; simpl in Hn; [congruence|].
    destruct (perform_step _ HI Hp1) as (HI1 & Hok & Hincl).
    eapply IH; try eassumption.
    + now apply Hincl.
    + eapply past_download_step; eauto.
Qed.

End UIFacts.
Import UIFacts.

(** C9.  Along every execution of the components from the empty store, the
    status of a video [i] only follows the transitions
    pending -> analyzing -> ready | error and
    ready -> downloading -> completed | error (or stays as it is), and a
    video enters the store as pending; a video that is downloading was
    analyzing at an earlier point; and a video that was downloading is
    never analyzing afterwards. *)
Theorem C9_status_transitions :
  forall (acts : list UI.Action) (states : list UI.State),
    UI.run acts UI.init = Some states ->
    forall i : N,
      (forall n s s',
         nth_error states n = Some s -> nth_error states (S n) = Some s' ->
         match UI.status_of i s, UI.status_of i s' with
         | Some a, Some b => UI.allowed a b = true
         | None, Some b => b = Store.pending
         | _, None => True
         end) /\
      (forall n s,
         nth_error states n = Some s ->
         UI.status_of i s = Some Store.downloading ->
         exists m s0, m < n /\ nth_error states m = Some s0 /\
                      UI.status_of i s0 = Some Store.analyzing) /\
      (forall m n s s',
         m <= n -> nth_error states m = Some s -> nth_error states n = Some s' ->
         UI.status_of i s = Some Store.downloading ->
         UI.status_of i s' <> Some Store.analyzing).
Proof.
  intros acts states Hrun i. split; [|split].
  - intros n s s' Hs Hs'.
    pose proof (run_steps _ inv_init Hrun _ Hs Hs' i) as Hok.
    unfold step_ok in Hok.
    destruct (UI.status_of i s), (UI.status_of i s'); tauto.
  - intros n s Hs Hd.
    destruct (@run_analysed i _ _ _ inv_init Hrun n s Hs) as [H | H].
    + unfold analysed. rewrite Hd. auto.
    + unfold analysed in H. destruct H as [H|[H|[H|H]]]; discriminate.
    + exact H.
  - intros m n s s' Hmn Hs Hs' Hd Ha.
    destruct (@run_suffix acts UI.init states m s Hrun Hs) as (acts' & Hrun').
    assert (HI : Inv s) by (eapply run_inv; [apply inv_init | eassumption..]).
    assert (Hn : nth_error (skipn m states) (n - m) = Some s').
    { rewrite nth_error_skipn. replace (m + (n - m)) with n by lia. exact Hs'. }
    assert (Hp : past_download (UI.status_of i s')).
    { eapply run_past_download; try eassumption.
      - eapply status_some_issued; eassumption.
      - unfold past_download. rewrite Hd. auto. }
    unfold past_download in Hp. rewrite Ha in Hp.
    destruct Hp as [Hp|[Hp|[Hp|Hp]]]; discriminate.
Qed.

Lemma C9_witness :
  UI.run Samples.sampleActions UI.init = Some Samples.sampleStates /\
  nth_error Samples.sampleStates 4 = Some (nth 4 Samples.sampleStates UI.init) /\
  UI.status_of 1 (nth 4 Samples.sampleStates UI.init) = Some Store.downloading /\
  exists m s0, m < 4 /\ nth_error Samples.sampleStates m = Some s0 /\
               UI.status_of 1 s0 = Some Store.analyzing.
Proof.
  assert (H : UI.run Samples.sampleActions UI.init = Some Samples.sampleStates)
    by (vm_compute; reflexivity).
  assert (Hs : nth_error Samples.sampleStates 4
               = Some (nth 4 Samples.sampleStates UI.init))
    by (vm_compute; reflexivity).
  assert (Hd : UI.status_of 1 (nth 4 Samples.sampleStates UI.init)
               = Some Store.downloading)
    by (vm_compute; reflexivity).
  split; [exact H|]. split; [exact Hs|]. split; [exact Hd|].
  exact (proj1 (proj2 (C9_status_transitions _ H 1%N)) 4 _ Hs Hd).
Defined.

Example run_sample_statuses :
  map (UI.status_of 1) Samples.sampleStates
  = [ None; Some Store.pending; Some Store.analyzing; Some Store.ready;
      Some Store.downloading; Some Store.downloading; Some Store.completed ].
Proof. vm_compute. reflexivity. Qed.

Example download_needs_ready :
  UI.run [UI.AnalyzeSubmit Samples.watchUrl 1; UI.AnalyzeMark 1; UI.DownloadClick 1]
         UI.init = None.
Proof. vm_compute. reflexivity. Qed.

(* ------------------------------------------------------------------ *)
(** ** The model on concrete inputs *)

Example extractYouTubeId_watch :
  Analyze.extractYouTubeId Samples.watchUrl = Some (js "dQw4w9WgXcQ").
Proof. vm_compute. reflexivity. Qed.

Example extractYouTubeId_short_link :
  Analyze.extractYouTubeId (js "https://youtu.be/abc123?t=10") = Some (js "abc123").
Proof. vm_compute. reflexivity. Qed.

Example extractYouTubeId_shorts :
  Analyze.extractYouTubeId (js "https://www.youtube.com/shorts/xyz#top")
  = Some (js "xyz").
Proof. vm_compute. reflexivity. Qed.

Example extractYouTubeId_channel_page :
  Analyze.extractYouTubeId (js "https://www.youtube.com/@someone") = None.
Proof. vm_compute. reflexivity. Qed.

Example parseInt_label : parseInt (js "1080p60") = Some 1080%Z.
Proof. vm_compute. reflexivity. Qed.

Example parseInt_not_a_number : parseInt (js "HD") = None.
Proof. vm_compute. reflexivity. Qed.

Example sort_labels :
  sortBy cmpQuality [js "360p"; js "1080p"; js "720p"]
  = [js "1080p"; js "720p"; js "360p"].
Proof. vm_compute. reflexivity. Qed.

Example encodeURIComponent_url :
  encodeURIComponent (js "https://fb.watch/a b")
  = Some (js "https%3A%2F%2Ffb.watch%2Fa%20b").
Proof. vm_compute. reflexivity. Qed.

Example encodeURIComponent_lone_surrogate :
  encodeURIComponent [104; 55357]%N = None.
Proof. vm_compute. reflexivity. Qed.

Example client_detects_tiktok_video :
  Store.detectPlatform (js "https://www.TikTok.com/@some.user/video/7123") = tiktok.
Proof. vm_compute. reflexivity. Qed.

Example client_rejects_profile_page :
  Store.detectPlatform (js "https://www.tiktok.com/@some.user") = unknown /\
  Route.detectPlatform (js "https://www.tiktok.com/@some.user") = tiktok.
Proof. split; vm_compute; reflexivity. Qed.

Example youtube_download_default_quality :
  exists headers,
    Download.POST Samples.ytdlOnly Samples.watchRequest []
    = (Ok (Stream headers Samples.noBody),
       [EvGetInfo Samples.watchUrl;
        EvYtdl Samples.watchUrl (Samples.fmt 22 (js "720p"))]).
Proof. eexists. vm_compute. reflexivity. Qed.

(* ================================================================== *)
(** * Further properties of the routes *)

Module HandlerFacts.

(** A downloader that returns, returns a stream. *)
Lemma streamVideo_ok W u f tr r tr' :
  Download.streamVideo W u f tr = (Ok r, tr') -> isStream r = true.
Proof.
  unfold Download.streamVideo. unfold_eff. intros H. split_run; reflexivity.
Qed.

Lemma streamChosen_ok W o f tr r tr' :
  Download.streamChosen W o f tr = (Ok r, tr') -> isStream r = true.
Proof.
  unfold Download.streamChosen. destruct o as [u|]; [|discriminate].
  destruct (negb (truthy u)); [discriminate|]. apply streamVideo_ok.
Qed.

Lemma rapid_try_ok W url f pick tr r tr' :
  bind (fetchFromRapidAPI W url)
       (fun data => Download.streamChosen W (pick data) f) tr = (Ok r, tr') ->
  isStream r = true.
Proof.
  unfold bind. destruct (fetchFromRapidAPI W url tr) as [[d|e] t];
    [apply streamChosen_ok | discriminate].
Qed.

(** What a guarded downloader can answer: a stream, or its own message. *)
Lemma guarded_outcome (m : M Response) label message tr :
  (forall r tr', m tr = (Ok r, tr') -> isStream r = true) ->
  (exists r tr', try_catch m (fun _ => emit (EvConsole label) ;;; throw message) tr
                 = (Ok r, tr') /\ isStream r = true) \/
  (exists tr', try_catch m (fun _ => emit (EvConsole label) ;;; throw message) tr
               = (Throw message, tr')).
Proof.
  intros Hm. unfold try_catch. destruct (m tr) as [[r|e] t] eqn:E.
  - left. exists r, t. split; [reflexivity|]. eapply Hm; reflexivity.
  - right. unfold_eff. simpl. eauto.
Qed.

Lemma newResponse_ok headers body tr r tr' :
  newResponse headers body tr = (Ok r, tr') -> isStream r = true.
Proof.
  unfold newResponse. destruct (forallb _ headers); unfold ret, throw;
    intros H; [|discriminate].
  injection H as <- _. reflexivity.
Qed.

Lemma downloadYouTube_try_ok W url q tr r tr' :
  Download.downloadYouTube_try W url q tr = (Ok r, tr') -> isStream r = true.
Proof.
  unfold Download.downloadYouTube_try. unfold_eff. intros H.
  destruct (ytdl_getInfo W tr url) as [info|e]; [|discriminate].
  cbv zeta in H.
  destruct (Download.selectFormat _ q) as [f|]; [|discriminate].
  eapply newResponse_ok; eassumption.
Qed.

(** The four downloaders: a stream, or the platform's message. *)
Lemma download_outcome W p url q tr :
  p <> unknown ->
  let run := match p with
             | youtube => Download.downloadYouTube W url q
             | tiktok => Download.downloadTikTok W url
             | instagram => Download.downloadInstagram W url
             | _ => Download.downloadFacebook W url
             end in
  (exists r tr', run tr = (Ok r, tr') /\ isStream r = true) \/
  (exists tr', run tr = (Throw (downloadFailure p), tr')).
Proof.
  intros Hp. destruct p; simpl; try (now destruct Hp);
    apply guarded_outcome; intros r tr'.
  - apply downloadYouTube_try_ok.
  - apply rapid_try_ok.
  - apply rapid_try_ok.
  - apply rapid_try_ok.
Qed.

(** The three RapidAPI analyzers: metadata, or the platform's message. *)
Lemma analyze_guarded (m : M Metadata) label message tr :
  (exists r tr', try_catch m (fun _ => emit (EvConsole label) ;;; throw message) tr
                 = (Ok r, tr')) \/
  (exists tr', try_catch m (fun _ => emit (EvConsole label) ;;; throw message) tr
               = (Throw message, tr')).
Proof.
  unfold try_catch. destruct (m tr) as [[r|e] t]; [left; eauto|].
  right. unfold_eff. simpl. eauto.
Qed.

End HandlerFacts.
Import HandlerFacts.

(** X1.  Neither route handler ever throws: whatever the request and the
    outside world do, [POST] returns a response, and its status is 200, 400
    or 500. *)
Theorem X1_handlers_always_respond :
  forall (W : World) (request_json : Result ReqJson) (tr : Trace),
    (exists r tr', Analyze.POST W request_json tr = (Ok r, tr') /\
       (response_status r = 200 \/ response_status r = 400 \/
        response_status r = 500)%N) /\
    (exists r tr', Download.POST W request_json tr = (Ok r, tr') /\
       (response_status r = 200 \/ response_status r = 400 \/
        response_status r = 500)%N).
Proof.
  intros W req tr. split.
  - unfold Analyze.POST. unfold try_catch at 1.
    match goal with |- context [match ?m tr with _ => _ end] =>
      destruct (m tr) as [[r|e] t] eqn:E end.
    + exists r, t. split; [reflexivity|].
      unfold bind, lift in E. destruct req as [[|u q]|]; try discriminate.
      destruct u; try (injection E as <- _; simpl; auto).
      destruct (negb (truthy s)); [injection E as <- _; simpl; auto|].
      unfold_eff.
      destruct (detectPlatform s); split_run; simpl; auto.
    + unfold_eff. simpl. do 2 eexists. split; [reflexivity|]. simpl; auto.
  - unfold Download.POST. unfold try_catch at 1.
    match goal with |- context [match ?m tr with _ => _ end] =>
      destruct (m tr) as [[r|e] t] eqn:E end.
    + exists r, t. split; [reflexivity|].
      unfold bind, lift in E. destruct req as [[|u q]|]; try discriminate.
      destruct u; try (injection E as <- _; simpl; auto).
      destruct (negb (truthy s)); [injection E as <- _; simpl; auto|].
      set (q' := match q with VUndefined => VStr (js "720p") | _ => q end) in E.
      destruct (detectPlatform s) eqn:Ep;
        try (injection E as <- _; simpl; auto).
      * assert (Hk : youtube <> unknown) by discriminate.
        destruct (@download_outcome W youtube s q' tr Hk) as
            [(r0 & t0 & H0 & Hs) | (t0 & H0)];
          simpl in H0; rewrite H0 in E; [|discriminate].
        injection E as <- _. destruct r0; try discriminate. simpl; auto.
      * assert (Hk : tiktok <> unknown) by discriminate.
        destruct (@download_outcome W tiktok s q' tr Hk) as
            [(r0 & t0 & H0 & Hs) | (t0 & H0)];
          simpl in H0; rewrite H0 in E; [|discriminate].
        injection E as <- _. destruct r0; try discriminate. simpl; auto.
      * assert (Hk : instagram <> unknown) by discriminate.
        destruct (@download_outcome W instagram s q' tr Hk) as
            [(r0 & t0 & H0 & Hs) | (t0 & H0)];
          simpl in H0; rewrite H0 in E; [|discriminate].
        injection E as <- _. destruct r0; try discriminate. simpl; auto.
      * assert (Hk : facebook <> unknown) by discriminate.
        destruct (@download_outcome W facebook s q' tr Hk) as
            [(r0 & t0 & H0 & Hs) | (t0 & H0)];
          simpl in H0; rewrite H0 in E; [|discriminate].
        injection E as <- _. destruct r0; try discriminate. simpl; auto.
    + unfold_eff. simpl. do 2 eexists. split; [reflexivity|]. simpl; auto.
Qed.

(** X2.  A request whose [url] is missing, not a string, or the empty
    string is answered by both routes with status 400 and the message
    ["URL is required"], and nothing else happens. *)
Theorem X2_missing_url_is_400 :
  forall (W : World) (u q : JsVal) (tr : Trace),
    (forall s, u = VStr s -> s = []) ->
    Analyze.POST W (Ok (BodyFields u q)) tr
      = (Ok (JsonMessage 400 (js "URL is required")), tr) /\
    Download.POST W (Ok (BodyFields u q)) tr
      = (Ok (JsonMessage 400 (js "URL is required")), tr).
Proof.
  intros W u q tr Hu. unfold Analyze.POST, Download.POST. unfold_eff.
  destruct u as [| | | |s|]; simpl; auto.
  rewrite (Hu s eq_refl). simpl. auto.
Qed.

Lemma X2_witness :
  Analyze.POST Samples.offline (Ok (BodyFields (VNum 7) VUndefined)) []
    = (Ok (JsonMessage 400 (js "URL is required")), []) /\
  Download.POST Samples.offline (Ok (BodyFields (VNum 7) VUndefined)) []
    = (Ok (JsonMessage 400 (js "URL is required")), []).
Proof.
  apply (@X2_missing_url_is_400 Samples.offline (VNum 7) VUndefined []).
  intros s H. discriminate.
Defined.

(** X3.  When the request body cannot be read ([request.json()] rejects
    with an error), both routes log once and answer with status 500 and the
    message of that error; a body that is [null] is answered with status
    500 as well.  No network call is made. *)
Theorem X3_unreadable_body_is_500 :
  forall (W : World) (tr : Trace),
    (forall e,
       Analyze.POST W (Throw e) tr
         = (Ok (JsonMessage 500 e), tr ++ [EvConsole (js "Analysis error:")]) /\
       Download.POST W (Throw e) tr
         = (Ok (JsonMessage 500 e), tr ++ [EvConsole (js "Download error:")])) /\
    (exists e,
       Analyze.POST W (Ok BodyNull) tr
         = (Ok (JsonMessage 500 e), tr ++ [EvConsole (js "Analysis error:")]) /\
       Download.POST W (Ok BodyNull) tr
         = (Ok (JsonMessage 500 e), tr ++ [EvConsole (js "Download error:")])).
Proof.
  intros W tr. split.
  - intros e. split; reflexivity.
  - eexists. split; reflexivity.
Qed.

Module YouTubeFacts.

(** The second and third method of [analyzeYouTube] never throw. *)
Lemma analyzeYouTube_total W url tr videoId :
  Analyze.extractYouTubeId url = Some videoId ->
  exists m tr', Analyze.analyzeYouTube W url tr = (Ok m, tr') /\
                platform m = youtube /\
                networkCalls tr' <= networkCalls tr + 2.
Proof.
  intros Hid. destruct (extractYouTubeId_some _ Hid) as [Hne _].
  apply truthy_nonempty in Hne.
  unfold Analyze.analyzeYouTube. rewrite Hid, Hne. unfold_eff. simpl.
  unfold networkCalls.
  repeat match goal with
         | |- context [fetch ?w ?t ?u ?h] => destruct (fetch w t u h) eqn:?; simpl
         | |- context [ok ?r] => destruct (ok r) eqn:?; simpl
         | |- context [json ?r] => destruct (json r) eqn:?; simpl
         | |- context [ytdl_getInfo ?w ?t ?u] =>
             destruct (ytdl_getInfo w t u) eqn:?; simpl
         end;
    do 2 eexists; (split; [reflexivity|]); (split; [reflexivity|]);
    rewrite <- ?app_assoc, !filter_app, !length_app; simpl; lia.
Qed.

End YouTubeFacts.
Import YouTubeFacts.

(** X4.  A URL the server classifies as YouTube but from which no video id
    can be extracted is answered by the analyze route with status 500 and
    the message ["Invalid YouTube URL"]; only the error is logged, and no
    network call is made. *)
Theorem X4_youtube_without_id_is_500 :
  forall (W : World) (url : str) (q : JsVal) (tr : Trace),
    Route.detectPlatform url = youtube ->
    Analyze.extractYouTubeId url = None ->
    Analyze.POST W (Ok (BodyFields (VStr url) q)) tr
    = (Ok (JsonMessage 500 (js "Invalid YouTube URL")),
       tr ++ [EvConsole (js "Analysis error:")]).
Proof.
  intros W url q tr Hp Hid.
  assert (Hurl : truthy url = true)
    by (apply detect_known_truthy; rewrite Hp; discriminate).
  unfold Analyze.POST, Analyze.analyzeYouTube. unfold_eff. simpl.
  rewrite Hurl. simpl. rewrite Hp, Hid. reflexivity.
Qed.

Lemma X4_witness :
  Analyze.POST Samples.offline
    (Ok (BodyFields (VStr (js "https://WWW.YOUTUBE.COM/watch?v=dQw4w9WgXcQ"))
                    VUndefined)) []
  = (Ok (JsonMessage 500 (js "Invalid YouTube URL")),
     [] ++ [EvConsole (js "Analysis error:")]).
Proof.
  apply (@X4_youtube_without_id_is_500 Samples.offline
           (js "https://WWW.YOUTUBE.COM/watch?v=dQw4w9WgXcQ") VUndefined []);
    vm_compute; reflexivity.
Defined.

(** X5.  Once a video id is extracted, the YouTube analysis cannot fail:
    whatever oEmbed and ytdl-core do, the analyze route answers with
    YouTube metadata (status 200), after at most two network calls. *)
Theorem X5_youtube_analysis_never_fails :
  forall (W : World) (url : str) (q : JsVal) (tr : Trace) (videoId : str),
    Analyze.extractYouTubeId url = Some videoId ->
    exists m tr',
      Analyze.POST W (Ok (BodyFields (VStr url) q)) tr = (Ok (JsonMetadata m), tr') /\
      platform m = youtube /\
      networkCalls tr' <= networkCalls tr + 2.
Proof.
  intros W url q tr videoId Hid.
  destruct (extractYouTubeId_some _ Hid) as [_ Hp].
  assert (Hurl : truthy url = true)
    by (apply detect_known_truthy; rewrite Hp; discriminate).
  destruct (@analyzeYouTube_total W url tr videoId Hid) as (m & tr' & Hm & Hpl & Hn).
  exists m, tr'. split; [|auto].
  unfold Analyze.POST. unfold try_catch, bind at 1, lift. simpl.
  rewrite Hurl. simpl. rewrite Hp. unfold bind. rewrite Hm. reflexivity.
Qed.

Lemma X5_witness :
  exists m tr',
    Analyze.POST Samples.offline Samples.watchRequest [] = (Ok (JsonMetadata m), tr') /\
    platform m = youtube /\
    networkCalls tr' <= networkCalls [] + 2.
Proof.
  apply (@X5_youtube_analysis_never_fails Samples.offline Samples.watchUrl
           VUndefined [] (js "dQw4w9WgXcQ")).
  vm_compute; reflexivity.
Defined.

Module QualityFacts.

Lemma dedup_In seen l x :
  In x (dedup seen l) <-> In x l /\ ~ In x seen.
Proof.
  revert seen. induction l as [|y l IH]; intros seen; simpl; [tauto|].
  destruct (existsb (JsString.eqb y) seen) eqn:E.
  - apply existsb_exists in E. destruct E as (z & Hz & Hyz).
    apply str_eqb_eq in Hyz. subst z. rewrite IH. split.
    + tauto.
    + intros [[<- | H] Hn]; [contradiction | tauto].
  - assert (Hy : ~ In y seen).
    { intros Hin. assert (existsb (JsString.eqb y) seen = true); [|congruence].
      apply existsb_exists. exists y. split; [assumption | apply str_eqb_refl]. }
    simpl. rewrite IH. simpl. split.
    + intros [<- | [H Hn]]; [tauto|]. split; [tauto|]. intros Hs. apply Hn. tauto.
    + intros [[<- | H] Hn]; [tauto|].
      destruct (list_eq_dec N.eq_dec y x) as [-> | Hne]; [tauto|].
      right. split; [assumption|]. intros [Heq | Hs]; [congruence | tauto].
Qed.

Lemma dedup_NoDup seen l : NoDup (dedup seen l).
Proof.
  revert seen. induction l as [|y l IH]; intros seen; simpl; [constructor|].
  destruct (existsb (JsString.eqb y) seen); [apply IH|].
  constructor; [|apply IH]. rewrite dedup_In. simpl. tauto.
Qed.

Lemma insertBy_In cmp x l y : In y (insertBy cmp x l) <-> y = x \/ In y l.
Proof.
  induction l as [|z l IH]; simpl; [intuition congruence|].
  destruct (cmp x z <=? 0)%Z; simpl; [intuition congruence|].
  rewrite IH. intuition congruence.
Qed.

Lemma sortBy_In cmp l y : In y (sortBy cmp l) <-> In y l.
Proof.
  induction l as [|z l IH]; simpl; [tauto|].
  rewrite insertBy_In, IH. intuition congruence.
Qed.

Lemma insertBy_NoDup cmp x l :
  NoDup l -> ~ In x l -> NoDup (insertBy cmp x l).
Proof.
  induction l as [|z l IH]; simpl; intros Hd Hn.
  - constructor; [tauto | constructor].
  - destruct (cmp x z <=? 0)%Z.
    + constructor; [simpl; tauto | assumption].
    + apply NoDup_cons_iff in Hd. destruct Hd as [Hz Hd].
      constructor; [|apply IH; tauto].
      rewrite insertBy_In. intros [-> | H]; tauto.
Qed.

Lemma sortBy_NoDup cmp l : NoDup l -> NoDup (sortBy cmp l).
Proof.
  induction l as [|z l IH]; simpl; intros Hd; [constructor|].
  apply NoDup_cons_iff in Hd. destruct Hd as [Hz Hd].
  apply insertBy_NoDup; [auto|]. now rewrite sortBy_In.
Qed.

Lemma sortBy_length cmp l : length (sortBy cmp l) = length l.
Proof.
  induction l as [|z l IH]; simpl; [reflexivity|]. rewrite <- IH.
  generalize (sortBy cmp l). intros m. induction m as [|w m IHm]; simpl; auto.
  destruct (cmp z w <=? 0)%Z; simpl; auto.
Qed.

(** On labels that parse, the comparator is the difference of the
    values. *)
Lemma cmpQuality_value a b :
  parseInt a <> None -> parseInt b <> None ->
  cmpQuality a b = (labelValue b - labelValue a)%Z.
Proof.
  unfold cmpQuality, labelValue.
  destruct (parseInt a), (parseInt b); intros; congruence.
Qed.

Lemma insertBy_sorted x l :
  parseInt x <> None -> Forall (fun y => parseInt y <> None) l ->
  StronglySorted descending l ->
  StronglySorted descending (insertBy cmpQuality x l).
Proof.
  intros Hx Hl Hs. induction Hs as [|z l Hs IH Hz]; simpl.
  - constructor; constructor.
  - apply Forall_cons_iff in Hl. destruct Hl as [Hpz Hl].
    rewrite (@cmpQuality_value x z Hx Hpz).
    destruct (labelValue z - labelValue x <=? 0)%Z eqn:E.
    + apply Z.leb_le in E. constructor; [constructor; assumption|].
      constructor; [unfold descending; lia|].
      eapply Forall_impl; [|exact Hz]. unfold descending. intros; lia.
    + apply Z.leb_gt in E. constructor; [now apply IH|].
      apply Forall_forall. intros y Hy. apply insertBy_In in Hy.
      destruct Hy as [-> | Hy]; [unfold descending; lia|].
      rewrite Forall_forall in Hz. now apply Hz.
Qed.

Lemma sortBy_sorted l :
  Forall (fun y => parseInt y <> None) l ->
  StronglySorted descending (sortBy cmpQuality l).
Proof.
  induction l as [|z l IH]; simpl; intros Hl; [constructor|].
  apply Forall_cons_iff in Hl. destruct Hl as [Hz Hl].
  apply insertBy_sorted; auto.
  apply Forall_forall. intros y Hy. apply sortBy_In in Hy.
  rewrite Forall_forall in Hl. now apply Hl.
Qed.

(** The labels collected from the combined formats. *)
Lemma qualityLabels_In fs q :
  In q (Analyze.qualityLabels fs) <->
  q <> [] /\ exists f, In f fs /\ qualityLabel f = Some q.
Proof.
  unfold Analyze.qualityLabels. rewrite dedup_In, in_flat_map. simpl. split.
  - intros [(f & Hf & Hq) _]. destruct (qualityLabel f) as [l|] eqn:El; [|easy].
    destruct (truthy l) eqn:Et; [|easy]. destruct Hq as [<- | []].
    split; [now apply truthy_nonempty | eauto].
  - intros (Hne & f & Hf & Hq). split; [|tauto]. exists f. split; [assumption|].
    rewrite Hq. apply truthy_nonempty in Hne. rewrite Hne. simpl; auto.
Qed.

End QualityFacts.
Import QualityFacts.

Module FallbackFacts.

Lemma offered_labels info q :
  In q (sortBy cmpQuality
          (Analyze.qualityLabels (filterFormats_videoandaudio (formats info))))
  <-> offered info q.
Proof.
  rewrite sortBy_In, qualityLabels_In. unfold offered.
  split.
  - intros (Hne & f & Hf & Hq). split; [assumption|]. exists f.
    apply combined_In in Hf. tauto.
  - intros (Hne & f & Hf & Hc & Hq). split; [assumption|]. exists f.
    split; [|assumption]. now apply combined_In.
Qed.

(** [analyzeYouTube] after a failed oEmbed attempt, step by step. *)
Ltac after_oembed Hid Hne Hfail :=
  unfold Analyze.analyzeYouTube; rewrite Hid, Hne; unfold_eff; simpl;
  destruct Hfail as [e0 Hf | resp Hf Hok | resp e0 Hf Hok Hj];
  rewrite Hf; simpl; rewrite ?Hok; simpl; rewrite ?Hj; simpl;
  rewrite <- ?app_assoc; simpl.

End FallbackFacts.
Import FallbackFacts.

(** X6.  When the oEmbed attempt yields nothing and ytdl-core fails too,
    the YouTube analysis still succeeds with the basic answer built from
    the video id alone: the title ["YouTube Video"], the [hqdefault]
    thumbnail of that id, duration 0 and the qualities 720p and 360p. *)
Theorem X6_youtube_last_resort :
  forall (W : World) (url videoId : str) (tr tr1 : Trace) (e : str),
    Analyze.extractYouTubeId url = Some videoId ->
    oembed_fails W tr videoId tr1 ->
    ytdl_getInfo W tr1 url = Throw e ->
    Analyze.analyzeYouTube W url tr
    = (Ok {| platform := youtube;
             title := js "YouTube Video";
             thumbnail := js "https://i.ytimg.com/vi/" ++ videoId
                             ++ js "/hqdefault.jpg";
             duration := 0;
             qualities := [js "720p"; js "360p"] |},
       tr1 ++ [EvGetInfo url; EvConsole (js "ytdl-core also failed:")]).
Proof.
  intros W url videoId tr tr1 e Hid Hfail Hinfo.
  destruct (extractYouTubeId_some _ Hid) as [Hne _].
  apply truthy_nonempty in Hne.
  after_oembed Hid Hne Hfail; rewrite <- ?app_assoc in Hinfo; simpl in Hinfo;
    rewrite Hinfo; simpl; rewrite <- ?app_assoc; reflexivity.
Qed.

Lemma X6_witness :
  Analyze.analyzeYouTube Samples.offline Samples.watchUrl []
  = (Ok {| platform := youtube;
           title := js "YouTube Video";
           thumbnail := js "https://i.ytimg.com/vi/" ++ js "dQw4w9WgXcQ"
                           ++ js "/hqdefault.jpg";
           duration := 0;
           qualities := [js "720p"; js "360p"] |},
     ([] ++ [EvFetch (Analyze.oembedUrl (js "dQw4w9WgXcQ")) [];
             EvConsole (js "oEmbed failed, trying ytdl-core:")])
     ++ [EvGetInfo Samples.watchUrl; EvConsole (js "ytdl-core also failed:")]).
Proof.
  apply (@X6_youtube_last_resort Samples.offline Samples.watchUrl
           (js "dQw4w9WgXcQ") [] _ (js "getInfo failed")).
  - vm_compute; reflexivity.
  - apply of_rejected with (e := js "fetch failed"). vm_compute; reflexivity.
  - vm_compute; reflexivity.
Defined.

(** X7.  When the oEmbed attempt yields nothing and ytdl-core answers, the
    YouTube analysis takes the title from the video details, and the
    duration from [lengthSeconds]: the integer it reads as, when that is
    below 2^53 in size, and 0 when it does not read as a number.  Its
    qualities are the non-empty labels of the combined audio+video formats
    (formats with video, audio and a URL), each exactly once; they stand
    from the highest to the lowest number when every one of these labels
    reads as an integer below 2^53; when there is no such label the
    qualities are 720p and 360p. *)
Theorem X7_youtube_ytdl_metadata :
  forall (W : World) (url videoId : str) (tr tr1 : Trace) (info : YtInfo),
    Analyze.extractYouTubeId url = Some videoId ->
    oembed_fails W tr videoId tr1 ->
    ytdl_getInfo W tr1 url = Ok info ->
    exists m,
      Analyze.analyzeYouTube W url tr = (Ok m, tr1 ++ [EvGetInfo url]) /\
      title m = vd_title (videoDetails info) /\
      (forall n, parseInt (vd_lengthSeconds (videoDetails info)) = Some n ->
         safe n -> duration m = n) /\
      (parseInt (vd_lengthSeconds (videoDetails info)) = None ->
         duration m = 0%Z) /\
      ((exists q, offered info q) ->
         NoDup (qualities m) /\
         (forall q, In q (qualities m) <-> offered info q) /\
         ((forall q, offered info q -> reads_safe q) ->
          StronglySorted descending (qualities m))) /\
      ((forall q, ~ offered info q) -> qualities m = [js "720p"; js "360p"]).
Proof.
  intros W url videoId tr tr1 info Hid Hfail Hinfo.
  destruct (extractYouTubeId_some _ Hid) as [Hne _].
  apply truthy_nonempty in Hne.
  pose proof (offered_labels info) as Hoff.
  set (qs := sortBy cmpQuality
               (Analyze.qualityLabels (filterFormats_videoandaudio (formats info))))
    in *.
  assert (Hq : (exists q, offered info q) ->
               NoDup qs /\ (forall q, In q qs <-> offered info q) /\
               ((forall q, offered info q -> reads_safe q) ->
                StronglySorted descending qs) /\ qs <> []).
  { intros (q0 & Hq0). split; [|split; [|split]].
    - apply sortBy_NoDup, dedup_NoDup.
    - exact Hoff.
    - intros Hp. apply sortBy_sorted. apply Forall_forall.
      intros y Hy.
      destruct (Hp y) as (n & Hn & _); [|congruence].
      apply Hoff. unfold qs. now apply sortBy_In.
    - intros Hnil. apply Hoff in Hq0. rewrite Hnil in Hq0. contradiction. }
  assert (Hn : (forall q, ~ offered info q) -> qs = []).
  { intros Hno. destruct qs as [|q0 qs'] eqn:E; [reflexivity|].
    exfalso. apply (Hno q0). apply Hoff. now left. }
  eexists. split.
  - after_oembed Hid Hne Hfail; rewrite <- ?app_assoc in Hinfo; simpl in Hinfo;
      rewrite Hinfo; simpl; rewrite <- ?app_assoc; reflexivity.
  - simpl. fold qs. split; [reflexivity|]. split; [|split; [|split]].
    + intros n Hp _. now rewrite Hp.
    + intros Hp. now rewrite Hp.
    + intros Hex. destruct (Hq Hex) as (H1 & H2 & H3 & H4).
      destruct qs; [now destruct H4|]. auto.
    + intros Hno. now rewrite (Hn Hno).
Qed.

Lemma X7_witness :
  exists m,
    Analyze.analyzeYouTube Samples.ytdlOnly Samples.watchUrl []
    = (Ok m, ([] ++ [EvFetch (Analyze.oembedUrl (js "dQw4w9WgXcQ")) [];
                     EvConsole (js "oEmbed failed, trying ytdl-core:")])
             ++ [EvGetInfo Samples.watchUrl]) /\
    title m = js "Sample: clip!" /\
    duration m = 212%Z /\
    qualities m = [js "720p"; js "360p"].
Proof.
  destruct (@X7_youtube_ytdl_metadata Samples.ytdlOnly Samples.watchUrl
              (js "dQw4w9WgXcQ") []
              ([] ++ [EvFetch (Analyze.oembedUrl (js "dQw4w9WgXcQ")) [];
                      EvConsole (js "oEmbed failed, trying ytdl-core:")])
              Samples.sampleInfo)
    as (m & Hm & Ht & Hd & _).
  - vm_compute; reflexivity.
  - apply of_rejected with (e := js "fetch failed"). vm_compute; reflexivity.
  - vm_compute; reflexivity.
  - exists m. split; [exact Hm|]. split; [exact Ht|]. split.
    + apply Hd; [vm_compute; reflexivity | reflexivity].
    + vm_compute in Hm. injection Hm as <-. reflexivity.
Defined.

Module GreedyFacts.

(** A greedy run of one-character steps, followed by a continuation that
    always succeeds, stops at the first character the step rejects. *)
Lemma star_loop_greedy (A : Type) (p : N -> bool) (k : str -> option A) :
  (forall x, k x <> None) ->
  forall n s, length s <= n ->
    exists w rest,
      s = w ++ rest /\ Forall (fun c => p c = true) w /\
      (rest = [] \/ exists c r, rest = c :: r /\ p c = false) /\
      star_loop (fun s0 k0 => match s0 with
                              | c :: s' => if p c then k0 s' else None
                              | [] => None
                              end) n s k = k rest.
Proof.
  intros Hk n. induction n as [|n IH]; intros s Hn.
  - destruct s; [|simpl in Hn; lia]. exists [], []. simpl. auto.
  - destruct s as [|c s'].
    + exists [], []. simpl. auto.
    + simpl star_loop. destruct (p c) eqn:Ec.
      * assert (Hlt : (length s' <? S (length s'))%nat = true)
          by (apply Nat.ltb_lt; lia).
        simpl length. rewrite Hlt.
        destruct (IH s') as (w & rest & -> & Hw & Hr & Hs);
          [simpl in Hn; lia|].
        exists (c :: w), rest. split; [reflexivity|].
        split; [constructor; assumption|]. split; [assumption|].
        rewrite Hs. destruct (k rest) eqn:Ek; [reflexivity|].
        now apply Hk in Ek.
      * exists [], (c :: s'). split; [reflexivity|]. split; [constructor|].
        split; [right; eauto | reflexivity].
Qed.

Lemma cls_idStop c :
  cls_has false true [CChar 38; CChar 10; CChar 63; CChar 35] c
  = negb (idStop c).
Proof.
  unfold cls_has, idStop, item_has, ceq. cbn [existsb xorb].
  rewrite (N.eqb_sym 38), (N.eqb_sym 10), (N.eqb_sym 63), (N.eqb_sym 35).
  rewrite orb_false_r, !orb_assoc.
  now destruct (_ || _)%bool.
Qed.

(** What the capture group of the id patterns takes from [s1]. *)
Lemma idGroup_capture s1 id :
  mt false Analyze.idGroup s1
     (fun s2 => Some (firstn (length s1 - length s2) s1)) = Some id ->
  exists rest,
    s1 = id ++ rest /\ id <> [] /\ Forall (fun c => idStop c = false) id /\
    (rest = [] \/ exists c r, rest = c :: r /\ idStop c = true).
Proof.
  unfold Analyze.idGroup, Plus. cbn [mt].
  destruct s1 as [|c s']; [discriminate|].
  destruct (cls_has false true [CChar 38; CChar 10; CChar 63; CChar 35] c)
    eqn:Ec; [|discriminate].
  set (k := fun s2 : str => Some (firstn (length (c :: s') - length s2) (c :: s'))).
  destruct (@star_loop_greedy str
              (cls_has false true [CChar 38; CChar 10; CChar 63; CChar 35]) k)
    with (n := length s') (s := s') as (w & rest & Hs & Hw & Hr & Hrun);
    [intros x; discriminate | lia |].
  intros H. pose proof (eq_trans (eq_sym Hrun) H) as Hk. clear H Hrun.
  unfold k in Hk. subst s'.
  assert (Hfirst : firstn (length (c :: w ++ rest) - length rest) (c :: w ++ rest)
                   = c :: w).
  { change (c :: w ++ rest) with ((c :: w) ++ rest).
    rewrite length_app, Nat.add_sub, firstn_app, Nat.sub_diag, firstn_all.
    simpl. now rewrite app_nil_r. }
  rewrite Hfirst in Hk. injection Hk as <-. clear k Hfirst.
  exists rest. split; [reflexivity|]. split; [discriminate|]. split.
  - constructor.
    + rewrite cls_idStop in Ec. now destruct (idStop c).
    + eapply Forall_impl; [|exact Hw]. intros x Hx. cbv beta in Hx.
      rewrite cls_idStop in Hx.
      now destruct (idStop x).
  - destruct Hr as [-> | (x & r & -> & Hx)]; [now left|].
    right. exists x, r. split; [reflexivity|]. rewrite cls_idStop in Hx.
    now destruct (idStop x).
Qed.

Lemma idPrefix_lead pre w :
  pre = Analyze.idPrefix1 \/ pre = Analyze.idPrefix2 ->
  matches false pre w -> idLead w.
Proof.
  unfold idLead. intros [-> | ->] Hw.
  - unfold Analyze.idPrefix1 in Hw.
    apply matches_Alt_inv in Hw. destruct Hw as [Hw|Hw];
      [apply matches_Lit_cs in Hw; auto|].
    apply matches_Alt_inv in Hw. destruct Hw as [Hw|Hw];
      [apply matches_Lit_cs in Hw; auto|].
    apply matches_Alt_inv in Hw. destruct Hw as [Hw|Hw];
      apply matches_Lit_cs in Hw; auto.
  - apply matches_Lit_cs in Hw. auto 6.
Qed.

Lemma lead_idPrefix w :
  idLead w ->
  matches false Analyze.idPrefix1 w \/ matches false Analyze.idPrefix2 w.
Proof.
  unfold idLead, Analyze.idPrefix1, Analyze.idPrefix2.
  intros [-> | [-> | [-> | [-> | ->]]]].
  - left. apply m_alt_l. now apply matches_Lit_cs.
  - left. apply m_alt_r, m_alt_l. now apply matches_Lit_cs.
  - left. apply m_alt_r, m_alt_r, m_alt_l. now apply matches_Lit_cs.
  - left. apply m_alt_r, m_alt_r, m_alt_r. now apply matches_Lit_cs.
  - right. now apply matches_Lit_cs.
Qed.

Lemma match_group1_found pre before lead c r :
  matches false pre lead -> idStop c = false ->
  match_group1 false pre Analyze.idGroup (before ++ lead ++ c :: r) <> None.
Proof.
  intros Hl Hc. unfold match_group1. apply search_complete; [assumption|].
  change (c :: r) with ([c] ++ r). apply mt_complete; [|discriminate].
  unfold Analyze.idGroup, Plus. change [c] with ([c] ++ []).
  constructor; [|constructor]. constructor.
  rewrite cls_idStop, Hc. reflexivity.
Qed.

End GreedyFacts.
Import GreedyFacts.

(** X8.  [extractYouTubeId] finds an id exactly in the URLs that contain
    one of the five lead texts (youtube.com/watch?v=, youtu.be/,
    youtube.com/embed/, youtube.com/v/, youtube.com/shorts/, in this very
    case) followed by a character other than [&], [?], [#] and line feed.
    The id it returns follows such a lead text in the URL, is not empty,
    contains none of these four characters, and runs up to the next one of
    them or to the end of the URL. *)
Theorem X8_extractYouTubeId_shape :
  forall url : str,
    (forall id, Analyze.extractYouTubeId url = Some id ->
       exists before lead rest,
         url = before ++ lead ++ id ++ rest /\ idLead lead /\ id <> [] /\
         Forall (fun c => idStop c = false) id /\
         (rest = [] \/ exists c r, rest = c :: r /\ idStop c = true)) /\
    (Analyze.extractYouTubeId url <> None <->
     exists before lead c r,
       url = before ++ lead ++ c :: r /\ idLead lead /\ idStop c = false).
Proof.
  intros url.
  assert (Hshape : forall id, Analyze.extractYouTubeId url = Some id ->
    exists before lead rest,
      url = before ++ lead ++ id ++ rest /\ idLead lead /\ id <> [] /\
      Forall (fun c => idStop c = false) id /\
      (rest = [] \/ exists c r, rest = c :: r /\ idStop c = true)).
  { intros id H. unfold Analyze.extractYouTubeId in H.
    assert (Hm : exists pre,
               (pre = Analyze.idPrefix1 \/ pre = Analyze.idPrefix2) /\
               match_group1 false pre Analyze.idGroup url = Some id).
    { destruct (match_group1 false Analyze.idPrefix1 Analyze.idGroup url) eqn:E.
      - injection H as ->. eauto.
      - eauto. }
    destruct Hm as (pre & Hpre & Hm). unfold match_group1 in Hm.
    apply search_sound in Hm. destruct Hm as (before & lead & s1 & -> & Hl & Hc).
    apply idGroup_capture in Hc. destruct Hc as (rest & -> & Hne & Hall & Hr).
    exists before, lead, rest. split; [reflexivity|].
    split; [eapply idPrefix_lead; eassumption | auto]. }
  split; [exact Hshape|]. split.
  - intros Hsome. destruct (Analyze.extractYouTubeId url) as [id|] eqn:E;
      [|now destruct Hsome].
    destruct (Hshape id eq_refl) as (before & lead & rest & -> & Hl & Hne & Hall & _).
    destruct id as [|c r]; [now destruct Hne|].
    exists before, lead, c, (r ++ rest). split; [reflexivity|].
    split; [assumption|]. now apply Forall_inv in Hall.
  - intros (before & lead & c & r & -> & Hl & Hc).
    unfold Analyze.extractYouTubeId.
    destruct (match_group1 false Analyze.idPrefix1 Analyze.idGroup _) eqn:E1;
      [discriminate|].
    destruct (lead_idPrefix Hl) as [H1 | H2].
    + exfalso. revert E1. now apply match_group1_found.
    + now apply match_group1_found.
Qed.

Lemma X8_witness : Analyze.extractYouTubeId Samples.watchUrl <> None.
Proof.
  apply (proj2 (X8_extractYouTubeId_shape Samples.watchUrl)).
  exists (js "https://www."), (js "youtube.com/watch?v="), 100%N, (js "Qw4w9WgXcQ").
  split; [reflexivity|]. split; [left; reflexivity | reflexivity].
Defined.

Module RapidFacts.

Lemma or_else_nonempty a b : b <> [] -> or_else a b <> [].
Proof. unfold or_else. destruct a; simpl; [auto | discriminate]. Qed.

Lemma analyzeTikTok_outcome W url tr :
  (exists m tr', Analyze.analyzeTikTok W url tr = (Ok m, tr') /\
                 rapidMetadata tiktok m) \/
  (exists tr', Analyze.analyzeTikTok W url tr
               = (Throw (analyzeFailure tiktok), tr')).
Proof.
  unfold Analyze.analyzeTikTok, try_catch.
  match goal with |- context [match ?m tr with _ => _ end] =>
    destruct (m tr) as [[r|e] t] eqn:E end.
  - left. exists r, t. split; [reflexivity|].
    unfold bind in E. destruct (fetchFromRapidAPI W url tr) as [[d|e] t1];
      [|discriminate].
    destruct (negb (opt_truthy _)); [unfold_eff; discriminate|].
    unfold ret in E. injection E as <- _. unfold rapidMetadata. simpl.
    repeat split. apply or_else_nonempty. discriminate.
  - right. unfold_eff. simpl. eauto.
Qed.

Lemma analyzeInstagram_outcome W url tr :
  (exists m tr', Analyze.analyzeInstagram W url tr = (Ok m, tr') /\
                 rapidMetadata instagram m) \/
  (exists tr', Analyze.analyzeInstagram W url tr
               = (Throw (analyzeFailure instagram), tr')).
Proof.
  unfold Analyze.analyzeInstagram, try_catch.
  match goal with |- context [match ?m tr with _ => _ end] =>
    destruct (m tr) as [[r|e] t] eqn:E end.
  - left. exists r, t. split; [reflexivity|].
    unfold bind in E. destruct (fetchFromRapidAPI W url tr) as [[d|e] t1];
      [|discriminate].
    unfold ret in E. injection E as <- _. unfold rapidMetadata. simpl.
    repeat split. apply or_else_nonempty. discriminate.
  - right. unfold_eff. simpl. eauto.
Qed.

Lemma analyzeFacebook_outcome W url tr :
  (exists m tr', Analyze.analyzeFacebook W url tr = (Ok m, tr') /\
                 rapidMetadata facebook m) \/
  (exists tr', Analyze.analyzeFacebook W url tr
               = (Throw (analyzeFailure facebook), tr')).
Proof.
  unfold Analyze.analyzeFacebook, try_catch.
  match goal with |- context [match ?m tr with _ => _ end] =>
    destruct (m tr) as [[r|e] t] eqn:E end.
  - left. exists r, t. split; [reflexivity|].
    unfold bind in E. destruct (fetchFromRapidAPI W url tr) as [[d|e] t1];
      [|discriminate].
    unfold ret in E. injection E as <- _. unfold rapidMetadata. simpl.
    repeat split. apply or_else_nonempty. discriminate.
  - right. unfold_eff. simpl. eauto.
Qed.

End RapidFacts.
Import RapidFacts.

Module DispatchFacts.

(** The download route on a URL of a supported platform. *)
Lemma download_dispatch W url q tr p :
  Route.detectPlatform url = p -> p <> unknown ->
  Download.POST W (Ok (BodyFields (VStr url) q)) tr
  = match (match p with
           | youtube => Download.downloadYouTube W url
                          match q with VUndefined => VStr (js "720p") | _ => q end
           | tiktok => Download.downloadTikTok W url
           | instagram => Download.downloadInstagram W url
           | _ => Download.downloadFacebook W url
           end) tr with
    | (Ok r, tr') => (Ok r, tr')
    | (Throw e, tr') =>
        (Ok (JsonMessage 500 e), tr' ++ [EvConsole (js "Download error:")])
    end.
Proof.
  intros Hp Hk.
  assert (Hurl : truthy url = true)
    by (apply detect_known_truthy; rewrite Hp; assumption).
  unfold Download.POST. unfold try_catch at 1, bind at 1, lift. simpl.
  rewrite Hurl, Hp. simpl.
  destruct p; try (now destruct Hk);
    match goal with |- context [match ?m tr with _ => _ end] =>
      destruct (m tr) as [[r|e] t] end; reflexivity.
Qed.

(** The analyze route on a URL of a supported platform. *)
Lemma analyze_dispatch W url q tr p :
  Route.detectPlatform url = p -> p <> unknown ->
  Analyze.POST W (Ok (BodyFields (VStr url) q)) tr
  = match (match p with
           | youtube => Analyze.analyzeYouTube W url
           | tiktok => Analyze.analyzeTikTok W url
           | instagram => Analyze.analyzeInstagram W url
           | _ => Analyze.analyzeFacebook W url
           end) tr with
    | (Ok m, tr') => (Ok (JsonMetadata m), tr')
    | (Throw e, tr') =>
        (Ok (JsonMessage 500 e), tr' ++ [EvConsole (js "Analysis error:")])
    end.
Proof.
  intros Hp Hk.
  assert (Hurl : truthy url = true)
    by (apply detect_known_truthy; rewrite Hp; assumption).
  unfold Analyze.POST. unfold try_catch at 1, bind at 1, lift. simpl.
  rewrite Hurl, Hp. simpl. unfold bind, ret.
  destruct p; try (now destruct Hk);
    match goal with |- context [match ?m tr with _ => _ end] =>
      destruct (m tr) as [[r|e] t] end; reflexivity.
Qed.

End DispatchFacts.
Import DispatchFacts.

(** X9.  For a URL of a supported platform the routes report a failure of
    the extractor only under the platform's own fixed message, never under
    the text of the error that caused it.  The download route answers with
    a stream (status 200) or with status 500 and that message.  For TikTok,
    Instagram and Facebook the analyze route answers with metadata of that
    platform (a non-empty title, duration 0, qualities HD and SD) or with
    status 500 and that message. *)
Theorem X9_failures_carry_fixed_messages :
  forall (W : World) (url : str) (q : JsVal) (tr : Trace) (p : Platform),
    Route.detectPlatform url = p -> p <> unknown ->
    ((exists headers body tr',
        Download.POST W (Ok (BodyFields (VStr url) q)) tr
        = (Ok (Stream headers body), tr')) \/
     (exists tr',
        Download.POST W (Ok (BodyFields (VStr url) q)) tr
        = (Ok (JsonMessage 500 (downloadFailure p)), tr'))) /\
    (p <> youtube ->
     (exists m tr',
        Analyze.POST W (Ok (BodyFields (VStr url) q)) tr
        = (Ok (JsonMetadata m), tr') /\ rapidMetadata p m) \/
     (exists tr',
        Analyze.POST W (Ok (BodyFields (VStr url) q)) tr
        = (Ok (JsonMessage 500 (analyzeFailure p)), tr'))).
Proof.
  intros W url q tr p Hp Hk. split.
  - rewrite (@download_dispatch W url q tr p Hp Hk).
    set (q' := match q with VUndefined => VStr (js "720p") | _ => q end).
    pose proof (@download_outcome W p url q' tr Hk) as Ho. simpl in Ho.
    destruct p; try (now destruct Hk);
      (destruct Ho as [(r & t & -> & Hs) | (t & ->)];
       [left; destruct r; try discriminate; eauto | right; eauto]).
  - intros Hy. rewrite (@analyze_dispatch W url q tr p Hp Hk).
    destruct p; try (now destruct Hk); try (now destruct Hy).
    + destruct (analyzeTikTok_outcome W url tr) as [(m & t & -> & Hm) | (t & ->)];
        [left; eauto | right; eauto].
    + destruct (analyzeInstagram_outcome W url tr) as [(m & t & -> & Hm) | (t & ->)];
        [left; eauto | right; eauto].
    + destruct (analyzeFacebook_outcome W url tr) as [(m & t & -> & Hm) | (t & ->)];
        [left; eauto | right; eauto].
Qed.

Lemma X9_witness :
  ((exists headers body tr',
      Download.POST Samples.offline
        (Ok (BodyFields (VStr Samples.tiktokUrl) VUndefined)) []
      = (Ok (Stream headers body), tr')) \/
   (exists tr',
      Download.POST Samples.offline
        (Ok (BodyFields (VStr Samples.tiktokUrl) VUndefined)) []
      = (Ok (JsonMessage 500 (downloadFailure tiktok)), tr'))) /\
  (tiktok <> youtube ->
   (exists m tr',
      Analyze.POST Samples.offline
        (Ok (BodyFields (VStr Samples.tiktokUrl) VUndefined)) []
      = (Ok (JsonMetadata m), tr') /\ rapidMetadata tiktok m) \/
   (exists tr',
      Analyze.POST Samples.offline
        (Ok (BodyFields (VStr Samples.tiktokUrl) VUndefined)) []
      = (Ok (JsonMessage 500 (analyzeFailure tiktok)), tr'))).
Proof.
  apply (@X9_failures_carry_fixed_messages Samples.offline Samples.tiktokUrl
           VUndefined [] tiktok).
  - vm_compute; reflexivity.
  - discriminate.
Defined.

Module DocFacts.

Lemma field_or_reads doc dflt (m : Metadata) :
  dflt <> [] ->
  title m = or_else (Analyze.field_or (d_title doc) dflt) dflt ->
  thumbnail m = Analyze.field_or (d_picture doc) [] ->
  reads doc dflt m.
Proof.
  intros Hd Ht Hp. unfold reads, Analyze.field_or, or_else in *.
  repeat split.
  - intros t E Hne. rewrite E in Ht. apply truthy_nonempty in Hne.
    now rewrite Hne, Hne in Ht.
  - intros [E | E]; rewrite E in Ht; simpl in Ht;
      now destruct (truthy dflt).
  - intros t E. rewrite E in Hp. now destruct t.
  - intros E. now rewrite E in Hp.
Qed.

Lemma or_else_empty l : or_else l [] = l.
Proof. now destruct l. Qed.

End DocFacts.
Import DocFacts.

(** X10.  Once the aggregation API has answered with a document, the
    Instagram and the Facebook analysis succeed whatever the document
    holds, links or not, reading title and thumbnail from it.  The TikTok
    analysis succeeds only when the first link of the document is usable;
    otherwise it logs the response and fails with
    ["Failed to analyze TikTok video"]. *)
Theorem X10_analysis_and_links :
  forall (W : World) (url : str) (tr tr1 : Trace) (doc : Doc),
    fetchFromRapidAPI W url tr = (Ok doc, tr1) ->
    (exists m, Analyze.analyzeInstagram W url tr = (Ok m, tr1) /\
               rapidMetadata instagram m /\ reads doc (js "Instagram Video") m) /\
    (exists m, Analyze.analyzeFacebook W url tr = (Ok m, tr1) /\
               rapidMetadata facebook m /\ reads doc (js "Facebook Video") m) /\
    (forall pick, first_pick doc pick ->
       (usable pick ->
        exists m, Analyze.analyzeTikTok W url tr = (Ok m, tr1) /\
                  rapidMetadata tiktok m /\ reads doc (js "TikTok Video") m) /\
       (~ usable pick ->
        Analyze.analyzeTikTok W url tr
        = (Throw (js "Failed to analyze TikTok video"),
           tr1 ++ [EvConsole (js "RapidAPI Response:");
                   EvConsole (js "TikTok analysis error:")]))).
Proof.
  intros W url tr tr1 doc Hapi. split; [|split].
  - eexists. split; [|split].
    + unfold Analyze.analyzeInstagram, try_catch, bind. rewrite Hapi. reflexivity.
    + unfold rapidMetadata. simpl. repeat split.
      apply or_else_nonempty. discriminate.
    + apply field_or_reads; [discriminate | reflexivity | reflexivity].
  - eexists. split; [|split].
    + unfold Analyze.analyzeFacebook, try_catch, bind. rewrite Hapi. reflexivity.
    + unfold rapidMetadata. simpl. repeat split.
      apply or_else_nonempty. discriminate.
    + apply field_or_reads; [discriminate | reflexivity | reflexivity].
  - intros pick Hp.
    assert (Hrun : Analyze.analyzeTikTok W url tr
                   = match pick with
                     | Some (c :: u) =>
                         (Ok {| platform := tiktok;
                                title := or_else (Analyze.field_or (d_title doc)
                                                    (js "TikTok Video"))
                                                 (js "TikTok Video");
                                thumbnail := Analyze.field_or (d_picture doc) [];
                                duration := 0;
                                qualities := [js "HD"; js "SD"] |}, tr1)
                     | _ =>
                         (Throw (js "Failed to analyze TikTok video"),
                          tr1 ++ [EvConsole (js "RapidAPI Response:");
                                  EvConsole (js "TikTok analysis error:")])
                     end).
    { unfold Analyze.analyzeTikTok, try_catch, bind. rewrite Hapi.
      cbv beta iota zeta.
      destruct Hp as [E | E | l0 rest E]; rewrite E.
      - unfold_eff. simpl. now rewrite <- app_assoc.
      - unfold_eff. simpl. now rewrite <- app_assoc.
      - destruct (l_link l0) as [[|c u]|]; unfold_eff; simpl;
          rewrite <- ?app_assoc; reflexivity. }
    rewrite Hrun. split.
    + intros (u & -> & Hne). destruct u as [|c u]; [now destruct Hne|].
      eexists. split; [reflexivity|]. split.
      * unfold rapidMetadata. simpl. repeat split.
        apply or_else_nonempty. discriminate.
      * apply field_or_reads; [discriminate | reflexivity | reflexivity].
    + intros Hnus. destruct pick as [[|c u]|]; try reflexivity.
      exfalso. apply Hnus. exists (c :: u). split; [reflexivity | discriminate].
Qed.

Lemma X10_witness :
  exists m,
    Analyze.analyzeInstagram Samples.hdEmptyWorld Samples.facebookUrl []
    = (Ok m, [apiRequest Samples.hdEmptyWorld (js "https%3A%2F%2Ffb.watch%2Fabc%2F")]) /\
    rapidMetadata instagram m /\
    reads (Samples.docOf None (Some Samples.hdEmpty)) (js "Instagram Video") m.
Proof.
  apply (@X10_analysis_and_links Samples.hdEmptyWorld Samples.facebookUrl [] _
           (Samples.docOf None (Some Samples.hdEmpty))).
  vm_compute; reflexivity.
Defined.

(** X11.  A TikTok, Instagram or Facebook download whose media fetch
    succeeds is answered with the body of that fetch, passed on as it is,
    under the headers [Content-Type: video/mp4], a [Content-Disposition]
    naming the platform's fixed file, and the upstream [content-length]
    (empty when upstream gave none); the media fetch is the last thing the
    handler does. *)
Theorem X11_relay_passes_body_on :
  forall (W : World) (url : str) (q : JsVal) (tr tr1 : Trace) (doc : Doc)
         (u : str) (resp : FetchResponse) (p : Platform),
    Route.detectPlatform url = p -> viaRapidAPI p ->
    fetchFromRapidAPI W url tr = (Ok doc, tr1) ->
    chosenLink p doc = Some u -> u <> [] ->
    fetch W tr1 u [(js "User-Agent", Download.USER_AGENT)] = Ok resp ->
    ok resp = true ->
    Download.POST W (Ok (BodyFields (VStr url) q)) tr
    = (Ok (Stream
             [(js "Content-Type", js "video/mp4");
              (js "Content-Disposition",
                js "attachment; filename=" ++ [34%N] ++ downloadName p ++ [34%N]);
              (js "Content-Length",
                match content_length resp with Some l => l | None => [] end)]
             (body resp)),
       tr1 ++ [EvFetch u [(js "User-Agent", Download.USER_AGENT)]]).
Proof.
  intros W url q tr tr1 doc u resp p Hp Hv Hapi Hl Hu Hf Hok.
  assert (Hk : p <> unknown) by (destruct Hv as [-> | [-> | ->]]; discriminate).
  rewrite (@download_dispatch W url q tr p Hp Hk).
  destruct (downloaders_after_api _ _ _ Hapi) as (Ht & Hi & Hfb).
  assert (Hsv : forall f,
    Download.streamVideo W u f tr1
    = (Ok (Stream
             [(js "Content-Type", js "video/mp4");
              (js "Content-Disposition", Download.contentDisposition f);
              (js "Content-Length",
                match content_length resp with Some l => l | None => [] end)]
             (body resp)),
       tr1 ++ [EvFetch u [(js "User-Agent", Download.USER_AGENT)]])).
  { intros f. unfold Download.streamVideo. unfold_eff. rewrite Hf, Hok. simpl.
    destruct (content_length resp); [rewrite or_else_empty|]; reflexivity. }
  destruct Hv as [-> | [-> | ->]]; simpl in Hl |- *;
    unfold Download.downloadTikTok, Download.downloadInstagram,
      Download.downloadFacebook, try_catch;
    rewrite ?Ht, ?Hi, ?Hfb, Hl, (streamChosen_usable _ _ _ Hu), Hsv;
    reflexivity.
Qed.

Lemma X11_witness :
  Download.POST Samples.sdThenHdWorld
    (Ok (BodyFields (VStr Samples.facebookUrl) VUndefined)) []
  = (Ok (Stream
           [(js "Content-Type", js "video/mp4");
            (js "Content-Disposition",
              js "attachment; filename=" ++ [34%N] ++ downloadName facebook ++ [34%N]);
            (js "Content-Length",
              match content_length (Samples.mediaResponse 200 (js "OK") Samples.someBytes)
              with Some l => l | None => [] end)]
           (body (Samples.mediaResponse 200 (js "OK") Samples.someBytes))),
     [apiRequest Samples.sdThenHdWorld (js "https%3A%2F%2Ffb.watch%2Fabc%2F")]
     ++ [EvFetch (js "https://cdn.example/hd.mp4")
                 [(js "User-Agent", Download.USER_AGENT)]]).
Proof.
  apply (@X11_relay_passes_body_on Samples.sdThenHdWorld Samples.facebookUrl
           VUndefined [] _ (Samples.docOf None (Some Samples.sdThenHd))
           (js "https://cdn.example/hd.mp4")
           (Samples.mediaResponse 200 (js "OK") Samples.someBytes) facebook);
    try (vm_compute; reflexivity).
  - right; right; reflexivity.
  - discriminate.
Defined.

Module TraceFacts.

Section Within.
Variable allowed : Event -> bool.
Hypothesis allow_console : forall l, allowed (EvConsole l) = true.
Hypothesis allow_fetch : forall u h, allowed (EvFetch u h) = true.
Hypothesis allow_getInfo : forall u, allowed (EvGetInfo u) = true.

Lemma within_silent (A : Type) (m : M A) n :
  (forall tr, snd (m tr) = tr) -> within allowed n m.
Proof.
  intros H tr. exists []. rewrite H, app_nil_r. repeat split. apply Nat.le_0_l.
Qed.

Lemma within_ret (A : Type) (x : A) n : within allowed n (ret x).
Proof. now apply within_silent. Qed.

Lemma within_throw (A : Type) e n : within allowed n (@throw A e).
Proof. now apply within_silent. Qed.

Lemma within_lift (A : Type) (r : Result A) n : within allowed n (lift r).
Proof. now apply within_silent. Qed.

Lemma within_newResponse headers body n :
  within allowed n (newResponse headers body).
Proof.
  apply within_silent. intros tr. unfold newResponse.
  now destruct (forallb _ headers).
Qed.

Lemma within_console l n : within allowed n (emit (EvConsole l)).
Proof.
  intros tr. exists [EvConsole l]. unfold emit, networkCalls. simpl.
  rewrite allow_console. repeat split. apply Nat.le_0_l.
Qed.

Lemma within_fetch W u h n : 1 <= n -> within allowed n (do_fetch W u h).
Proof.
  intros Hn tr. exists [EvFetch u h]. unfold do_fetch, networkCalls. simpl.
  rewrite allow_fetch. repeat split. exact Hn.
Qed.

Lemma within_getInfo W u n : 1 <= n -> within allowed n (Analyze.do_getInfo W u).
Proof.
  intros Hn tr. exists [EvGetInfo u]. unfold Analyze.do_getInfo, networkCalls.
  simpl. rewrite allow_getInfo. repeat split. exact Hn.
Qed.

Lemma within_bind (A B : Type) (m : M A) (f : A -> M B) a b n :
  within allowed a m -> (forall x, within allowed b (f x)) -> a + b <= n ->
  within allowed n (bind m f).
Proof.
  intros Hm Hf Hn tr. unfold bind.
  destruct (Hm tr) as (e1 & H1 & Ha1 & Hc1).
  destruct (m tr) as [[x|e] t]; simpl in H1; subst t.
  - destruct (Hf x (tr ++ e1)) as (e2 & H2 & Ha2 & Hc2).
    exists (e1 ++ e2). rewrite H2, app_assoc. split; [reflexivity|].
    rewrite forallb_app, Ha1, Ha2. split; [reflexivity|].
    unfold networkCalls in *. rewrite filter_app, length_app. lia.
  - exists e1. simpl. repeat split; [assumption|]. lia.
Qed.

Lemma within_try (A : Type) (m : M A) (h : str -> M A) a b n :
  within allowed a m -> (forall e, within allowed b (h e)) -> a + b <= n ->
  within allowed n (try_catch m h).
Proof.
  intros Hm Hh Hn tr. unfold try_catch.
  destruct (Hm tr) as (e1 & H1 & Ha1 & Hc1).
  destruct (m tr) as [[x|e] t]; simpl in H1; subst t.
  - exists e1. simpl. repeat split; [assumption|]. lia.
  - destruct (Hh e (tr ++ e1)) as (e2 & H2 & Ha2 & Hc2).
    exists (e1 ++ e2). rewrite H2, app_assoc. split; [reflexivity|].
    rewrite forallb_app, Ha1, Ha2. split; [reflexivity|].
    unfold networkCalls in *. rewrite filter_app, length_app. lia.
Qed.

(** A catch block that logs and throws adds no network call. *)
Lemma within_rethrow (A : Type) l e n :
  within allowed n (emit (EvConsole l) ;;; @throw A e).
Proof.
  apply within_bind with (a := 0) (b := 0);
    [apply within_console | intros; apply within_throw | apply Nat.le_0_l].
Qed.

Lemma within_log_none (A : Type) l n :
  within allowed n (emit (EvConsole l) ;;; ret (@None A)).
Proof.
  apply within_bind with (a := 0) (b := 0);
    [apply within_console | intros; apply within_ret | apply Nat.le_0_l].
Qed.

Lemma within_fetchFromRapidAPI W url n :
  1 <= n -> within allowed n (fetchFromRapidAPI W url).
Proof.
  intros Hn. unfold fetchFromRapidAPI.
  destruct (negb (truthy (RAPIDAPI_KEY W))); [apply within_throw|].
  destruct (encodeURIComponent url); [|apply within_throw].
  apply within_bind with (a := 1) (b := 0); [now apply within_fetch | | lia].
  intros r. destruct (negb (ok r)); [apply within_throw | apply within_lift].
Qed.

Lemma within_analyzeYouTube W url : within allowed 2 (Analyze.analyzeYouTube W url).
Proof.
  unfold Analyze.analyzeYouTube.
  destruct (Analyze.extractYouTubeId url) as [videoId|]; [|apply within_throw].
  destruct (negb (truthy videoId)); [apply within_throw|].
  apply within_bind with (a := 1) (b := 1); [| |lia].
  - apply within_try with (a := 1) (b := 0); [| |lia].
    + apply within_bind with (a := 1) (b := 0); [now apply within_fetch | |lia].
      intros r. destruct (ok r); [|apply within_ret].
      apply within_bind with (a := 0) (b := 0);
        [apply within_lift | intros; apply within_ret | lia].
    + intros e. apply within_log_none.
  - intros [m|]; [apply within_ret|].
    apply within_bind with (a := 1) (b := 0); [| |lia].
    + apply within_try with (a := 1) (b := 0); [| |lia].
      * apply within_bind with (a := 1) (b := 0);
          [now apply within_getInfo | intros; apply within_ret | lia].
      * intros e. apply within_log_none.
    + intros [m|]; apply within_ret.
Qed.

Lemma within_rapid_analyzers W url :
  within allowed 1 (Analyze.analyzeTikTok W url) /\
  within allowed 1 (Analyze.analyzeInstagram W url) /\
  within allowed 1 (Analyze.analyzeFacebook W url).
Proof.
  unfold Analyze.analyzeTikTok, Analyze.analyzeInstagram, Analyze.analyzeFacebook.
  repeat split; (apply within_try with (a := 1) (b := 0);
                 [|intros; apply within_rethrow | lia]);
    (apply within_bind with (a := 1) (b := 0);
     [now apply within_fetchFromRapidAPI | | lia]); intros data.
  - cbv zeta. destruct (negb (opt_truthy _)); [|apply within_ret].
    apply within_bind with (a := 0) (b := 0);
      [apply within_console | intros; apply within_throw | lia].
  - apply within_ret.
  - apply within_ret.
Qed.

Lemma within_analyze_POST W req : within allowed 2 (Analyze.POST W req).
Proof.
  unfold Analyze.POST.
  apply within_try with (a := 2) (b := 0); [| |lia].
  - apply within_bind with (a := 0) (b := 2); [apply within_lift | | lia].
    intros [|u q]; [apply within_throw|].
    destruct u; try apply within_ret.
    destruct (negb (truthy s)); [apply within_ret|].
    destruct (within_rapid_analyzers W s) as (Ht & Hi & Hf).
    destruct (detectPlatform s); try apply within_ret.
    + apply within_bind with (a := 2) (b := 0);
        [apply within_analyzeYouTube | intros; apply within_ret | lia].
    + apply within_bind with (a := 1) (b := 0);
        [exact Ht | intros; apply within_ret | lia].
    + apply within_bind with (a := 1) (b := 0);
        [exact Hi | intros; apply within_ret | lia].
    + apply within_bind with (a := 1) (b := 0);
        [exact Hf | intros; apply within_ret | lia].
  - intros e. apply within_bind with (a := 0) (b := 0);
      [apply within_console | intros; apply within_ret | lia].
Qed.

End Within.

Lemma within_streamVideo W u f : within anyEvent 1 (Download.streamVideo W u f).
Proof.
  unfold Download.streamVideo.
  apply within_bind with (a := 1) (b := 0); [now apply within_fetch | | lia].
  intros r. destruct (negb (ok r)); [apply within_throw | apply within_ret].
Qed.

Lemma within_streamChosen W o f : within anyEvent 1 (Download.streamChosen W o f).
Proof.
  unfold Download.streamChosen. destruct o as [u|]; [|apply within_throw].
  destruct (negb (truthy u)); [apply within_throw | apply within_streamVideo].
Qed.

Lemma within_ytdl W u f : within anyEvent 1 (Download.do_ytdl W u f).
Proof.
  intros tr. exists [EvYtdl u f]. unfold Download.do_ytdl, networkCalls. simpl.
  repeat split. apply Nat.le_refl.
Qed.

Lemma within_downloaders W url q :
  within anyEvent 2 (Download.downloadYouTube W url q) /\
  within anyEvent 2 (Download.downloadTikTok W url) /\
  within anyEvent 2 (Download.downloadInstagram W url) /\
  within anyEvent 2 (Download.downloadFacebook W url).
Proof.
  unfold Download.downloadYouTube, Download.downloadTikTok,
    Download.downloadInstagram, Download.downloadFacebook,
    Download.downloadYouTube_try, Download.downloadTikTok_try,
    Download.downloadInstagram_try, Download.downloadFacebook_try.
  repeat split; (apply within_try with (a := 2) (b := 0);
                 [|intros; now apply within_rethrow | lia]).
  - apply within_bind with (a := 1) (b := 1); [now apply within_getInfo | | lia].
    intros info. cbv zeta. destruct (Download.selectFormat _ q);
      [|apply within_throw].
    apply within_bind with (a := 1) (b := 0);
      [apply within_ytdl | intros; apply within_newResponse | lia].
  - apply within_bind with (a := 1) (b := 1);
      [now apply within_fetchFromRapidAPI | intros; apply within_streamChosen | lia].
  - apply within_bind with (a := 1) (b := 1);
      [now apply within_fetchFromRapidAPI | intros; apply within_streamChosen | lia].
  - apply within_bind with (a := 1) (b := 1);
      [now apply within_fetchFromRapidAPI | intros; apply within_streamChosen | lia].
Qed.

Lemma within_download_POST W req : within anyEvent 2 (Download.POST W req).
Proof.
  unfold Download.POST.
  apply within_try with (a := 2) (b := 0); [| |lia].
  - apply within_bind with (a := 0) (b := 2); [apply within_lift | | lia].
    intros [|u q]; [apply within_throw|].
    destruct u; try apply within_ret.
    cbv zeta. destruct (negb (truthy s)); [apply within_ret|].
    destruct (within_downloaders W s
                match q with VUndefined => VStr (js "720p") | _ => q end)
      as (Hy & Ht & Hi & Hf).
    destruct (detectPlatform s); try assumption. apply within_ret.
  - intros e. apply within_bind with (a := 0) (b := 0);
      [now apply within_console | intros; apply within_ret | lia].
Qed.

Lemma notYtdl_forallb evs u f :
  forallb notYtdl evs = true -> ~ In (EvYtdl u f) evs.
Proof.
  intros H Hin. rewrite forallb_forall in H. apply H in Hin. discriminate.
Qed.

Lemma analyze_never_streams W req tr headers body tr' :
  Analyze.POST W req tr <> (Ok (Stream headers body), tr').
Proof.
  unfold Analyze.POST. unfold try_catch at 1.
  match goal with |- context [match ?m tr with _ => _ end] =>
    destruct (m tr) as [[r|e] t] eqn:E end.
  - unfold bind, lift in E. destruct req as [[|u q]|]; try discriminate.
    destruct u; try (injection E as <- _; discriminate).
    destruct (negb (truthy s)); [injection E as <- _; discriminate|].
    unfold_eff.
    destruct (detectPlatform s); split_run; discriminate.
  - unfold_eff. simpl. discriminate.
Qed.

End TraceFacts.
Import TraceFacts.

(** X12.  A handler only adds to the trace of what happened, and what it
    adds holds at most two network calls.  The analyze route makes them
    with [fetch] and [ytdl.getInfo] only: it never opens a ytdl-core
    stream, and it never answers with a stream. *)
Theorem X12_at_most_two_network_calls :
  forall (W : World) (request_json : Result ReqJson) (tr : Trace),
    (exists evs,
       snd (Analyze.POST W request_json tr) = tr ++ evs /\
       networkCalls evs <= 2 /\
       (forall u f, ~ In (EvYtdl u f) evs)) /\
    (forall headers body tr',
       Analyze.POST W request_json tr <> (Ok (Stream headers body), tr')) /\
    (exists evs,
       snd (Download.POST W request_json tr) = tr ++ evs /\
       networkCalls evs <= 2).
Proof.
  intros W req tr. split; [|split].
  - destruct (@within_analyze_POST notYtdl) with (W := W) (req := req) (tr := tr)
      as (evs & H1 & H2 & H3); try reflexivity.
    exists evs. split; [assumption|]. split; [assumption|].
    intros u f. now apply notYtdl_forallb.
  - intros. apply analyze_never_streams.
  - destruct (within_download_POST W req tr) as (evs & H1 & _ & H3). eauto.
Qed.

(* ================================================================== *)
(** * Further properties of the components *)

Module QueueFacts.
Import Store UI.

(** What holds at the start and is kept by every action holds all along
    an execution. *)
Lemma run_invariant (P : State -> Prop) :
  (forall a s s', P s -> perform a s = Some s' -> P s') ->
  forall acts s states, P s -> run acts s = Some states ->
  forall sn, In sn states -> P sn.
Proof.
  intros Hstep. induction acts as [|a acts IH]; intros s states HP Hrun sn Hin.
  - simpl in Hrun. injection Hrun as <-. destruct Hin as [<- | []]. exact HP.
  - apply run_cons in Hrun. destruct Hrun as (s1 & states1 & Hp & Hr & ->).
    destruct Hin as [<- | Hin]; [exact HP|].
    eapply IH; [eapply Hstep; eassumption | eassumption | assumption].
Qed.

Lemma updateVideo_In i u vs v' :
  In v' (updateVideo i u vs) ->
  exists v, In v vs /\ (v' = v \/ (id v = i /\ v' = merge v u)).
Proof.
  unfold updateVideo. intros H. apply in_map_iff in H.
  destruct H as (v & Hv & Hin). exists v. split; [assumption|].
  destruct (N.eqb (id v) i) eqn:E; [|now left].
  apply N.eqb_eq in E. right. now split.
Qed.

Lemma updateVideo_urls i u vs : map url (updateVideo i u vs) = map url vs.
Proof.
  unfold updateVideo. rewrite map_map. apply map_ext.
  intros v. now destruct (N.eqb (id v) i).
Qed.

Lemma nodup_filter_map (B : Type) (f : VideoInfo -> B) (q : VideoInfo -> bool) vs :
  NoDup (map f vs) -> NoDup (map f (filter q vs)).
Proof.
  induction vs as [|v vs IH]; simpl; [auto|].
  intros H. apply NoDup_cons_iff in H. destruct H as [Hn Hd].
  destruct (q v); simpl; [|auto].
  constructor; [|auto]. intros Hin. apply Hn.
  apply in_map_iff in Hin. destruct Hin as (x & Hx & Hin).
  apply filter_In in Hin. rewrite <- Hx. apply in_map. tauto.
Qed.

Lemma nodup_snoc_str (l : list str) x : NoDup l -> ~ In x l -> NoDup (l ++ [x]).
Proof.
  induction l as [|y l IH]; simpl; intros Hd Hn.
  - constructor; [tauto | constructor].
  - apply NoDup_cons_iff in Hd. destruct Hd as [Hy Hd].
    constructor.
    + intros Hin. apply in_app_or in Hin. destruct Hin as [Hin | [-> | []]]; tauto.
    + apply IH; tauto.
Qed.

Lemma queue_update s i u tk iss :
  Queue s ->
  Queue {| videos := updateVideo i u (videos s); tasks := tk; issued := iss |}.
Proof.
  intros [Hb Hu Hk]. constructor; simpl.
  - unfold updateVideo. now rewrite length_map.
  - now rewrite updateVideo_urls.
  - intros v' Hin. apply updateVideo_In in Hin.
    destruct Hin as (v & Hv & [-> | [_ ->]]); [now apply Hk|].
    simpl. now apply Hk.
Qed.

Lemma queue_filter s (q : VideoInfo -> bool) tk iss :
  Queue s ->
  Queue {| videos := filter q (videos s); tasks := tk; issued := iss |}.
Proof.
  intros [Hb Hu Hk]. constructor; simpl.
  - eapply Nat.le_trans; [apply filter_length_le | exact Hb].
  - now apply nodup_filter_map.
  - intros v Hin. apply filter_In in Hin. now apply Hk.
Qed.

Lemma queue_step a s s' : Queue s -> perform a s = Some s' -> Queue s'.
Proof.
  intros HQ H.
  destruct a as [u uuid|i|i data|i msg|i|i pc|i|i msg|i| |i quality];
    unfold perform in H.
  - destruct (existsb (N.eqb uuid) (issued s)); [discriminate|].
    destruct (trim_nonempty u) eqn:Et; cbn [negb] in H; [|now injection H as <-].
    destruct (isUnknown (detectPlatform u)) eqn:Eu; [now injection H as <-|].
    destruct (maxVideos <=? length (videos s))%nat eqn:El; [now injection H as <-|].
    destruct (existsb _ (videos s)) eqn:Ed; [now injection H as <-|].
    injection H as <-. destruct HQ as [Hb Hu Hk]. constructor; simpl.
    + unfold addVideo. rewrite length_app. simpl.
      apply Nat.leb_gt in El. lia.
    + unfold addVideo. rewrite map_app. simpl. apply nodup_snoc_str; [assumption|].
      intros Hin. apply in_map_iff in Hin. destruct Hin as (v & Hv & Hin).
      assert (existsb (fun v => JsString.eqb (url v) u) (videos s) = true).
      { apply existsb_exists. exists v. split; [assumption|].
        now apply str_eqb_eq. }
      congruence.
    + intros v Hin. unfold addVideo in Hin. apply in_app_or in Hin.
      destruct Hin as [Hin | [<- | []]]; [now apply Hk|]. simpl.
      split; [assumption|]. split; [reflexivity|].
      intros Heq. rewrite Heq in Eu. discriminate.
  - destruct (hasTask _ s); [|discriminate]. injection H as <-.
    now apply queue_update.
  - destruct (hasTask _ s); [|discriminate]. injection H as <-.
    now apply queue_update.
  - destruct (hasTask _ s); [|discriminate]. injection H as <-.
    now apply queue_update.
  - destruct (isReady i s); [|discriminate]. injection H as <-.
    now apply queue_update.
  - destruct (hasTask _ s); [|discriminate]. injection H as <-.
    now apply queue_update.
  - destruct (hasTask _ s); [|discriminate]. injection H as <-.
    now apply queue_update.
  - destruct (hasTask _ s); [|discriminate]. injection H as <-.
    now apply queue_update.
  - injection H as <-. now apply queue_filter.
  - injection H as <-. now apply queue_filter.
  - destruct (isReady i s); [|discriminate]. injection H as <-.
    now apply queue_update.
Qed.

Lemma queue_init : Queue init.
Proof.
  constructor; simpl; [apply Nat.le_0_l | constructor | tauto].
Qed.

(** A URL the client-side classifier knows is known to the server-side
    one. *)
Lemma client_known_server_known u :
  Store.detectPlatform u <> unknown -> Route.detectPlatform u <> unknown.
Proof.
  intros Hk. rewrite client_detect_unfold in Hk.
  destruct (test true Store.re_youtube u) eqn:E1.
  { apply youtube_refines in E1.
    now apply (@server_rank_le u youtube). }
  destruct (test true Store.re_tiktok u) eqn:E2.
  { apply tiktok_refines in E2.
    now apply (@server_rank_le u tiktok). }
  destruct (test true Store.re_instagram u) eqn:E3.
  { apply instagram_refines in E3.
    now apply (@server_rank_le u instagram). }
  destruct (test true Store.re_facebook u) eqn:E4.
  { apply facebook_refines in E4.
    now apply (@server_rank_le u facebook). }
  now destruct Hk.
Qed.

Lemma trim_nonempty_truthy u : trim_nonempty u = true -> truthy u = true.
Proof. destruct u; [discriminate | reflexivity]. Qed.

End QueueFacts.
Import QueueFacts.

(** X13.  In every state of an execution of the components from the empty
    store, the queue holds at most five videos, no two of them have the
    same URL, and every video has a URL that is not blank, the platform
    the client-side classifier gives for that URL, and a platform other
    than [unknown]. *)
Theorem X13_queue_guards :
  forall (acts : list UI.Action) (states : list UI.State) (s : UI.State),
    UI.run acts UI.init = Some states -> In s states ->
    length (UI.videos s) <= 5 /\
    NoDup (map Store.url (UI.videos s)) /\
    (forall v, In v (UI.videos s) ->
       trim_nonempty (Store.url v) = true /\
       Store.v_platform v = Store.detectPlatform (Store.url v) /\
       Store.v_platform v <> unknown).
Proof.
  intros acts states s Hrun Hin.
  assert (HQ : Queue s).
  { eapply (@run_invariant Queue); [exact queue_step | exact queue_init | |];
      eassumption. }
  destruct HQ as [Hb Hu Hk]. auto.
Qed.

Lemma X13_witness :
  UI.run Samples.sampleActions UI.init = Some Samples.sampleStates /\
  In (nth 4 Samples.sampleStates UI.init) Samples.sampleStates /\
  length (UI.videos (nth 4 Samples.sampleStates UI.init)) <= 5.
Proof.
  assert (H : UI.run Samples.sampleActions UI.init = Some Samples.sampleStates)
    by (vm_compute; reflexivity).
  assert (Hin : In (nth 4 Samples.sampleStates UI.init) Samples.sampleStates)
    by (apply nth_In; vm_compute; lia).
  split; [exact H|]. split; [exact Hin|].
  exact (proj1 (@X13_queue_guards _ _ _ H Hin)).
Defined.

(** X14.  The guards of the client make the 400 answers of the routes
    unreachable from the queue: for a video in the queue of any state the
    components reach, the request that [handleAnalyze] or [handleDownload]
    builds from its URL is answered by the route with status 200 or 500,
    whatever the quality sent and whatever the outside world does. *)
Theorem X14_queued_urls_never_rejected :
  forall (acts : list UI.Action) (states : list UI.State) (s : UI.State)
         (v : Store.VideoInfo),
    UI.run acts UI.init = Some states -> In s states -> In v (UI.videos s) ->
    forall (W : World) (q : JsVal) (tr : Trace),
      (exists r tr',
         Analyze.POST W (Ok (BodyFields (VStr (Store.url v)) q)) tr = (Ok r, tr') /\
         (response_status r = 200 \/ response_status r = 500)%N) /\
      (exists r tr',
         Download.POST W (Ok (BodyFields (VStr (Store.url v)) q)) tr = (Ok r, tr') /\
         (response_status r = 200 \/ response_status r = 500)%N).
Proof.
  intros acts states s v Hrun Hin Hv W q tr.
  assert (HQ : Queue s).
  { eapply (@run_invariant Queue); [exact queue_step | exact queue_init | |];
      eassumption. }
  destruct (q_known HQ v Hv) as (_ & Hp & Hk). rewrite Hp in Hk.
  apply client_known_server_known in Hk.
  split.
  - rewrite (@analyze_dispatch W (Store.url v) q tr _ eq_refl Hk).
    match goal with |- context [match ?m tr with _ => _ end] =>
      destruct (m tr) as [[r|e] t] end.
    + exists (JsonMetadata r), t. split; [reflexivity | now left].
    + do 2 eexists. split; [reflexivity | now right].
  - rewrite (@download_dispatch W (Store.url v) q tr _ eq_refl Hk).
    destruct (@download_outcome W (Route.detectPlatform (Store.url v))
                (Store.url v)
                match q with VUndefined => VStr (js "720p") | _ => q end tr Hk)
      as [(r & t & H & Hs) | (t & H)];
      cbv zeta in H; rewrite H.
    + exists r, t. split; [reflexivity|]. destruct r; try discriminate. now left.
    + do 2 eexists. split; [reflexivity | now right].
Qed.

Lemma X14_witness :
  UI.run Samples.sampleActions UI.init = Some Samples.sampleStates /\
  In Samples.queuedState Samples.sampleStates /\
  In Samples.queuedVideo (UI.videos Samples.queuedState) /\
  exists r tr',
    Download.POST Samples.offline
      (Ok (BodyFields (VStr (Store.url Samples.queuedVideo)) VUndefined)) []
    = (Ok r, tr') /\
    (response_status r = 200 \/ response_status r = 500)%N.
Proof.
  assert (H : UI.run Samples.sampleActions UI.init = Some Samples.sampleStates)
    by (vm_compute; reflexivity).
  assert (Hin : In Samples.queuedState Samples.sampleStates)
    by (apply nth_In; vm_compute; lia).
  assert (Hv : In Samples.queuedVideo (UI.videos Samples.queuedState))
    by (apply nth_In; vm_compute; lia).
  split; [exact H|]. split; [exact Hin|]. split; [exact Hv|].
  exact (proj2 (@X14_queued_urls_never_rejected _ _ _ _ H Hin Hv
                  Samples.offline VUndefined [])).
Defined.

Module CardFacts.
Import Store UI.

Lemma find_in_nodup vs v :
  NoDup (map id vs) -> In v vs -> find (hasId (id v)) vs = Some v.
Proof.
  induction vs as [|x vs IH]; simpl; [tauto|].
  intros Hd Hin. apply NoDup_cons_iff in Hd. destruct Hd as [Hn Hd].
  unfold hasId at 1. destruct Hin as [-> | Hin].
  - now rewrite N.eqb_refl.
  - destruct (N.eqb (id x) (id v)) eqn:E; [|auto].
    exfalso. apply Hn. apply N.eqb_eq in E. rewrite E. now apply in_map.
Qed.

Lemma status_of_in s v :
  Inv s -> In v (videos s) -> status_of (id v) s = Some (status v).
Proof.
  intros HI Hin. unfold status_of, findVideo.
  now rewrite (@find_in_nodup _ _ (inv_nodup HI) Hin).
Qed.

Lemma cards_update s i u tk iss :
  Cards s ->
  (forall v, In v (videos s) -> id v = i -> card v -> card (merge v u)) ->
  Cards {| videos := updateVideo i u (videos s); tasks := tk; issued := iss |}.
Proof.
  intros HC Hm v' Hin. simpl in Hin. apply updateVideo_In in Hin.
  destruct Hin as (v & Hv & [-> | [Hi ->]]); [now apply HC|].
  apply Hm; auto.
Qed.

Lemma cards_filter s (q : VideoInfo -> bool) tk iss :
  Cards s -> Cards {| videos := filter q (videos s); tasks := tk; issued := iss |}.
Proof.
  intros HC v Hin. simpl in Hin. apply filter_In in Hin. now apply HC.
Qed.

(** The status of the video a handler in flight works on. *)
Lemma task_status s t v :
  Inv s -> hasTask t s = true -> In v (videos s) -> id v = task_id t ->
  status v = expected t.
Proof.
  intros HI Ht Hin Hid.
  apply (@task_expected_status s t (status v) HI Ht).
  rewrite <- Hid. now apply status_of_in.
Qed.

Lemma ready_status s v :
  Inv s -> isReady (id v) s = true -> In v (videos s) -> status v = ready.
Proof.
  intros HI Hr Hin. apply isReady_status in Hr.
  rewrite (@status_of_in s v HI Hin) in Hr. congruence.
Qed.

Lemma cards_step a s s' :
  Inv s -> Cards s -> perform a s = Some s' -> Cards s'.
Proof.
  intros HI HC H.
  destruct a as [u uuid|i|i data|i msg|i|i pc|i|i msg|i| |i quality];
    unfold perform in H.
  - destruct (existsb (N.eqb uuid) (issued s)); [discriminate|].
    destruct (negb (trim_nonempty u)); [now injection H as <-|].
    destruct (isUnknown (detectPlatform u)); [now injection H as <-|].
    destruct (maxVideos <=? length (videos s))%nat; [now injection H as <-|].
    destruct (existsb _ (videos s)); [now injection H as <-|].
    injection H as <-. intros v Hin. simpl in Hin. unfold addVideo in Hin.
    apply in_app_or in Hin. destruct Hin as [Hin | [<- | []]]; [now apply HC|].
    unfold card. simpl. repeat split; intros; try discriminate; congruence.
  - destruct (hasTask (Added i) s) eqn:Ht; [|discriminate]. injection H as <-.
    apply cards_update; [assumption|]. intros v Hin Hid Hc.
    pose proof (@task_status s (Added i) v HI Ht Hin Hid) as Hst. simpl in Hst.
    unfold card in *. simpl. rewrite Hst in Hc.
    destruct Hc as (He & _ & Hnew). split; [|split].
    + split; [discriminate|]. intros Hx. apply He in Hx. discriminate.
    + discriminate.
    + intros _. apply Hnew. now left.
  - destruct (hasTask (AwaitAnalyze i) s) eqn:Ht; [|discriminate].
    injection H as <-.
    apply cards_update; [assumption|]. intros v Hin Hid Hc.
    pose proof (@task_status s (AwaitAnalyze i) v HI Ht Hin Hid) as Hst.
    simpl in Hst. unfold card in *. simpl. rewrite Hst in Hc.
    destruct Hc as (He & _ & Hnew). split; [|split].
    + split; [discriminate|]. intros Hx. apply He in Hx. discriminate.
    + discriminate.
    + intros [Hx | Hx]; discriminate.
  - destruct (hasTask (AwaitAnalyze i) s) eqn:Ht; [|discriminate].
    injection H as <-.
    apply cards_update; [assumption|]. intros v Hin Hid Hc.
    unfold card. simpl. split; [|split].
    + split; [discriminate | reflexivity].
    + discriminate.
    + intros [Hx | Hx]; discriminate.
  - destruct (isReady i s) eqn:Hr; [|discriminate]. injection H as <-.
    apply cards_update; [assumption|]. intros v Hin Hid Hc.
    rewrite <- Hid in Hr. pose proof (@ready_status s v HI Hr Hin) as Hst.
    unfold card in *. simpl. rewrite Hst in Hc.
    destruct Hc as (He & _ & Hnew). split; [|split].
    + split; [discriminate|]. intros Hx. apply He in Hx. discriminate.
    + discriminate.
    + intros [Hx | Hx]; discriminate.
  - destruct (hasTask (AwaitDownload i) s) eqn:Ht; [|discriminate].
    injection H as <-.
    apply cards_update; [assumption|]. intros v Hin Hid Hc.
    pose proof (@task_status s (AwaitDownload i) v HI Ht Hin Hid) as Hst.
    simpl in Hst. unfold card in *. simpl. rewrite Hst in *.
    destruct Hc as (He & _ & Hnew). split; [|split].
    + exact He.
    + discriminate.
    + intros [Hx | Hx]; discriminate.
  - destruct (hasTask (AwaitDownload i) s) eqn:Ht; [|discriminate].
    injection H as <-.
    apply cards_update; [assumption|]. intros v Hin Hid Hc.
    pose proof (@task_status s (AwaitDownload i) v HI Ht Hin Hid) as Hst.
    simpl in Hst. unfold card in *. simpl. rewrite Hst in Hc.
    destruct Hc as (He & _ & Hnew). split; [|split].
    + split; [discriminate|]. intros Hx. apply He in Hx. discriminate.
    + reflexivity.
    + intros [Hx | Hx]; discriminate.
  - destruct (hasTask (AwaitDownload i) s) eqn:Ht; [|discriminate].
    injection H as <-.
    apply cards_update; [assumption|]. intros v Hin Hid Hc.
    unfold card. simpl. split; [|split].
    + split; [discriminate | reflexivity].
    + discriminate.
    + intros [Hx | Hx]; discriminate.
  - injection H as <-. now apply cards_filter.
  - injection H as <-. now apply cards_filter.
  - destruct (isReady i s) eqn:Hr; [|discriminate]. injection H as <-.
    apply cards_update; [assumption|]. intros v Hin Hid Hc.
    rewrite <- Hid in Hr. pose proof (@ready_status s v HI Hr Hin) as Hst.
    unfold card in *. simpl. rewrite Hst in *.
    destruct Hc as (He & _ & Hnew). split; [|split].
    + exact He.
    + discriminate.
    + intros [Hx | Hx]; discriminate.
Qed.

Lemma cards_run acts states s :
  run acts init = Some states -> In s states -> Inv s /\ Cards s.
Proof.
  intros Hrun Hin.
  apply (@run_invariant (fun s => Inv s /\ Cards s)) with (4 := Hin) (3 := Hrun).
  - intros a s0 s1 [HI HC] Hp. split.
    + now destruct (perform_step _ HI Hp).
    + eapply cards_step; eassumption.
  - split; [apply inv_init | intros v []].
Qed.

End CardFacts.
Import CardFacts.

(** X15.  What the card of a video shows fits its status, in every state of
    an execution of the components from the empty store: an error message
    is stored exactly when the status is [error]; a video that is
    [completed] stands at 100 percent; and while a video is [pending] or
    [analyzing] its title, thumbnail and qualities are still empty, its
    progress is 0 and its selected quality is the default ["720p"]. *)
Theorem X15_card_fits_status :
  forall (acts : list UI.Action) (states : list UI.State) (s : UI.State)
         (v : Store.VideoInfo),
    UI.run acts UI.init = Some states -> In s states -> In v (UI.videos s) ->
    (Store.status v = Store.error <-> Store.v_error v <> None) /\
    (Store.status v = Store.completed -> Store.progress v = 100%Z) /\
    (Store.status v = Store.pending \/ Store.status v = Store.analyzing ->
       Store.v_title v = [] /\ Store.v_thumbnail v = [] /\
       Store.v_qualities v = [] /\ Store.progress v = 0%Z /\
       Store.selectedQuality v = Some (js "720p")).
Proof.
  intros acts states s v Hrun Hin Hv.
  destruct (@cards_run acts states s Hrun Hin) as [_ HC]. exact (HC v Hv).
Qed.

Lemma X15_witness :
  UI.run Samples.sampleActions UI.init = Some Samples.sampleStates /\
  In Samples.queuedState Samples.sampleStates /\
  In Samples.queuedVideo (UI.videos Samples.queuedState) /\
  (Store.status Samples.queuedVideo = Store.error <->
   Store.v_error Samples.queuedVideo <> None).
Proof.
  assert (H : UI.run Samples.sampleActions UI.init = Some Samples.sampleStates)
    by (vm_compute; reflexivity).
  assert (Hin : In Samples.queuedState Samples.sampleStates)
    by (apply nth_In; vm_compute; lia).
  assert (Hv : In Samples.queuedVideo (UI.videos Samples.queuedState))
    by (apply nth_In; vm_compute; lia).
  split; [exact H|]. split; [exact Hin|]. split; [exact Hv|].
  exact (proj1 (@X15_card_fits_status _ _ _ _ H Hin Hv)).
Defined.

(* ================================================================== *)
(** * Further properties of requests and file names *)

(** X16.  The quality of a request matters to the YouTube download only.
    The analyze route never reads it; the download route answers a URL of
    any other platform the same way whatever quality is sent (so the
    choice between the qualities HD and SD that the analysis of a TikTok,
    Instagram or Facebook video offers changes nothing); and for YouTube a
    request without a quality is answered as one that asks for 720p. *)
Theorem X16_quality_only_for_youtube_download :
  forall (W : World) (url : str) (q q' : JsVal) (tr : Trace),
    Analyze.POST W (Ok (BodyFields (VStr url) q)) tr
      = Analyze.POST W (Ok (BodyFields (VStr url) q')) tr /\
    (Route.detectPlatform url <> youtube ->
     Download.POST W (Ok (BodyFields (VStr url) q)) tr
       = Download.POST W (Ok (BodyFields (VStr url) q')) tr) /\
    Download.POST W (Ok (BodyFields (VStr url) VUndefined)) tr
      = Download.POST W (Ok (BodyFields (VStr url) (VStr (js "720p")))) tr.
Proof.
  intros W url q q' tr. split; [reflexivity|]. split; [|reflexivity].
  intros Hp. unfold Download.POST, try_catch, bind, lift. cbv zeta.
  destruct (negb (truthy url)); [reflexivity|].
  destruct (Route.detectPlatform url); [now destruct Hp | reflexivity..].
Qed.

Lemma X16_witness :
  Route.detectPlatform Samples.tiktokUrl <> youtube /\
  Download.POST Samples.sdThenHdWorld
      (Ok (BodyFields (VStr Samples.tiktokUrl) (VStr (js "HD")))) []
    = Download.POST Samples.sdThenHdWorld
        (Ok (BodyFields (VStr Samples.tiktokUrl) (VStr (js "SD")))) [].
Proof.
  assert (H : Route.detectPlatform Samples.tiktokUrl <> youtube)
    by (vm_compute; discriminate).
  split; [exact H|].
  exact (proj1 (proj2 (@X16_quality_only_for_youtube_download
                         Samples.sdThenHdWorld Samples.tiktokUrl
                         (VStr (js "HD")) (VStr (js "SD")) [])) H).
Defined.

Module CaseFacts.

Lemma canon_cases c :
  ((97 <= c <= 122)%N /\ canon c = (c - 32)%N) \/
  (~ (97 <= c <= 122)%N /\ canon c = c).
Proof.
  unfold canon. destruct ((97 <=? c) && (c <=? 122))%N eqn:E.
  - apply andb_prop in E. destruct E as [E1 E2].
    apply N.leb_le in E1. apply N.leb_le in E2. left. split; [lia | reflexivity].
  - right. split; [|reflexivity]. intros [H1 H2].
    apply N.leb_le in H1. apply N.leb_le in H2. rewrite H1, H2 in E. discriminate.
Qed.

Lemma isLineTerminator_canon c : isLineTerminator (canon c) = isLineTerminator c.
Proof.
  destruct (canon_cases c) as [[Hr ->] | [_ ->]]; [|reflexivity].
  unfold isLineTerminator.
  rewrite !(proj2 (N.eqb_neq _ _)) by lia. reflexivity.
Qed.

Lemma isWord_canon c : isWord (canon c) = isWord c.
Proof.
  destruct (canon_cases c) as [[Hr ->] | [_ ->]]; [|reflexivity].
  unfold isWord.
  rewrite (proj2 (N.leb_le 65 (c - 32))), (proj2 (N.leb_le (c - 32) 90)) by lia.
  rewrite (proj2 (N.leb_le 97 c)), (proj2 (N.leb_le c 122)) by lia.
  simpl. now rewrite !orb_true_r.
Qed.

Lemma cls_has_canon neg items c c' :
  canon c = canon c' -> cls_has true neg items c = cls_has true neg items c'.
Proof.
  intros H. unfold cls_has. f_equal.
  induction items as [|it items IH]; simpl; [reflexivity|].
  rewrite IH. f_equal. destruct it as [p|]; simpl.
  - unfold ceq. now rewrite H.
  - now rewrite <- (isWord_canon c), H, isWord_canon.
Qed.

Lemma map_canon_one c w' :
  map canon [c] = map canon w' -> exists c', w' = [c'] /\ canon c = canon c'.
Proof.
  destruct w' as [|c' [|d w']]; simpl; intros H; try discriminate.
  injection H as H. eauto.
Qed.

(** A word of a pattern with the [i] flag stays one when the case of its
    ASCII letters changes. *)
Lemma matches_same_ci r w :
  matches true r w -> forall w', same_ci w w' -> matches true r w'.
Proof.
  unfold same_ci. induction 1; intros w' Hw.
  - destruct w'; [constructor | discriminate].
  - apply map_canon_one in Hw. destruct Hw as (c' & -> & Hc).
    constructor. unfold ceq in *. now rewrite <- Hc.
  - apply map_canon_one in Hw. destruct Hw as (c' & -> & Hc).
    constructor.
    now rewrite <- (isLineTerminator_canon c'), <- Hc, isLineTerminator_canon.
  - apply map_canon_one in Hw. destruct Hw as (c' & -> & Hc).
    constructor. now rewrite <- (@cls_has_canon neg items c c' Hc).
  - rewrite map_app in Hw. symmetry in Hw. apply map_eq_app in Hw.
    destruct Hw as (a & b & -> & Ha & Hb).
    constructor; [apply IHmatches1 | apply IHmatches2]; now symmetry.
  - apply m_alt_l. auto.
  - apply m_alt_r. auto.
  - destruct w'; [constructor | discriminate].
  - rewrite map_app in Hw. symmetry in Hw. apply map_eq_app in Hw.
    destruct Hw as (a & b & -> & Ha & Hb).
    constructor; [apply IHmatches1 | apply IHmatches2]; now symmetry.
Qed.

Lemma test_same_ci_true r url url' :
  same_ci url url' -> test true r url = true -> test true r url' = true.
Proof.
  intros Hs Ht. apply test_spec in Ht. apply test_spec.
  destruct Ht as (pre & w & suf & -> & Hm).
  unfold same_ci in Hs. rewrite !map_app in Hs. symmetry in Hs.
  apply map_eq_app in Hs. destruct Hs as (pre' & rest & -> & Hp & Hr).
  apply map_eq_app in Hr. destruct Hr as (w' & suf' & -> & Hw & Hsuf).
  exists pre', w', suf'. split; [reflexivity|].
  apply (@matches_same_ci _ _ Hm). unfold same_ci. now symmetry.
Qed.

Lemma test_same_ci r url url' :
  same_ci url url' -> test true r url = test true r url'.
Proof.
  intros Hs.
  destruct (test true r url) eqn:E1.
  - symmetry. eapply test_same_ci_true; eassumption.
  - destruct (test true r url') eqn:E2; [|reflexivity].
    assert (Hs' : same_ci url' url) by (unfold same_ci in *; now symmetry).
    rewrite (@test_same_ci_true r url' url Hs' E2) in E1. discriminate.
Qed.

End CaseFacts.
Import CaseFacts.

(** X17.  Both classifiers ignore the case of ASCII letters: two URLs that
    differ only in that are given the same platform by the server-side
    [detectPlatform] and the same platform by the client-side one. *)
Theorem X17_classification_ignores_case :
  forall url url' : str,
    map canon url = map canon url' ->
    Route.detectPlatform url = Route.detectPlatform url' /\
    Store.detectPlatform url = Store.detectPlatform url'.
Proof.
  intros url url' H. split.
  - unfold Route.detectPlatform.
    now rewrite !(@test_same_ci _ url url' H).
  - rewrite !client_detect_unfold.
    now rewrite !(@test_same_ci _ url url' H).
Qed.

Lemma X17_witness :
  Route.detectPlatform (js "HTTPS://WWW.TikTok.COM/@a/video/1")
    = Route.detectPlatform (js "https://www.tiktok.com/@A/Video/1") /\
  Store.detectPlatform (js "HTTPS://WWW.TikTok.COM/@a/video/1")
    = Store.detectPlatform (js "https://www.tiktok.com/@A/Video/1").
Proof.
  apply X17_classification_ignores_case. vm_compute. reflexivity.
Defined.

Module EscapeFacts.

Lemma hexDigit_unreserved d : (d < 16)%N -> uriUnreserved (hexDigit d) = true.
Proof.
  intros H.
  assert (Hd : (d = 0 \/ d = 1 \/ d = 2 \/ d = 3 \/ d = 4 \/ d = 5 \/ d = 6 \/
                d = 7 \/ d = 8 \/ d = 9 \/ d = 10 \/ d = 11 \/ d = 12 \/
                d = 13 \/ d = 14 \/ d = 15)%N) by lia.
  repeat (destruct Hd as [-> | Hd]; [reflexivity|]). subst d. reflexivity.
Qed.

Lemma pctOctet_escaped b : (b < 256)%N -> Forall escaped (pctOctet b).
Proof.
  intros H. unfold pctOctet.
  apply Forall_cons; [|apply Forall_cons; [|apply Forall_cons; [|apply Forall_nil]]].
  - now right.
  - left. apply hexDigit_unreserved. apply N.Div0.div_lt_upper_bound. lia.
  - left. apply hexDigit_unreserved. apply N.mod_lt. lia.
Qed.

Lemma utf8_octets v : (v < 1114112)%N -> Forall (fun b => (b < 256)%N) (utf8 v).
Proof.
  intros H. unfold utf8.
  assert (H64 : forall x, (128 + x mod 64 < 256)%N).
  { intros x. pose proof (N.mod_lt x 64). lia. }
  destruct (v <? 128)%N eqn:E1; [apply N.ltb_lt in E1; repeat constructor; lia|].
  destruct (v <? 2048)%N eqn:E2.
  { apply N.ltb_lt in E2. repeat constructor; [|apply H64].
    assert (v / 64 < 32)%N by (apply N.Div0.div_lt_upper_bound; lia). lia. }
  destruct (v <? 65536)%N eqn:E3.
  { apply N.ltb_lt in E3. repeat constructor; try apply H64.
    assert (v / 4096 < 16)%N by (apply N.Div0.div_lt_upper_bound; lia). lia. }
  repeat constructor; try apply H64.
  assert (v / 262144 < 5)%N by (apply N.Div0.div_lt_upper_bound; lia). lia.
Qed.

Lemma pctCodePoint_escaped v : (v < 1114112)%N -> Forall escaped (pctCodePoint v).
Proof.
  intros H. unfold pctCodePoint. apply utf8_octets in H.
  induction H as [|b l Hb Hl IH]; cbn [flat_map]; [constructor|].
  apply Forall_app. split; [now apply pctOctet_escaped | exact IH].
Qed.

Lemma range_true lo hi c :
  ((lo <=? c) && (c <=? hi))%N = true -> (lo <= c <= hi)%N.
Proof.
  intros H. apply andb_prop in H. destruct H as [H1 H2].
  apply N.leb_le in H1. apply N.leb_le in H2. lia.
Qed.

Lemma encode_escaped n : forall s e,
  length s <= n -> Forall codeUnit s ->
  encodeURIComponent s = Some e -> Forall escaped e.
Proof.
  induction n as [|n IH]; intros s e Hn Hs He.
  - destruct s; [|simpl in Hn; lia]. injection He as <-. constructor.
  - destruct s as [|c rest]; [injection He as <-; constructor|].
    simpl in Hn. apply Forall_cons_iff in Hs. destruct Hs as [Hc Hrest].
    cbn [encodeURIComponent] in He.
    destruct (uriUnreserved c) eqn:Eu.
    { destruct (encodeURIComponent rest) as [e'|] eqn:Er; [|discriminate].
      injection He as <-. constructor; [now left|].
      apply (IH rest); [lia | assumption | assumption]. }
    destruct ((56320 <=? c) && (c <=? 57343))%N; [discriminate|].
    destruct ((55296 <=? c) && (c <=? 56319))%N eqn:Eh.
    { destruct rest as [|d rest']; [discriminate|].
      destruct ((56320 <=? d) && (d <=? 57343))%N eqn:El; [|discriminate].
      destruct (encodeURIComponent rest') as [e'|] eqn:Er; [|discriminate].
      injection He as <-. apply range_true in Eh. apply range_true in El.
      apply Forall_cons_iff in Hrest. destruct Hrest as [_ Hrest'].
      apply Forall_app. split.
      - apply pctCodePoint_escaped. lia.
      - apply (IH rest'); [simpl in Hn; lia | assumption | assumption]. }
    destruct (encodeURIComponent rest) as [e'|] eqn:Er; [|discriminate].
    injection He as <-. apply Forall_app. split.
    + apply pctCodePoint_escaped. unfold codeUnit in Hc. lia.
    + apply (IH rest); [lia | assumption | assumption].
Qed.

Lemma encode_total s :
  Forall (fun c => isSurrogate c = false) s ->
  exists e, encodeURIComponent s = Some e.
Proof.
  induction 1 as [|c rest Hc Hrest IH]; [now exists []|].
  destruct IH as (e & He). cbn [encodeURIComponent]. rewrite He.
  destruct (uriUnreserved c); [simpl; eauto|].
  assert (H1 : ((56320 <=? c) && (c <=? 57343))%N = false).
  { destruct ((56320 <=? c) && (c <=? 57343))%N eqn:E; [|reflexivity].
    apply range_true in E. unfold isSurrogate in Hc.
    rewrite (proj2 (N.leb_le 55296 c)), (proj2 (N.leb_le c 57343)) in Hc by lia.
    discriminate. }
  assert (H2 : ((55296 <=? c) && (c <=? 56319))%N = false).
  { destruct ((55296 <=? c) && (c <=? 56319))%N eqn:E; [|reflexivity].
    apply range_true in E. unfold isSurrogate in Hc.
    rewrite (proj2 (N.leb_le 55296 c)), (proj2 (N.leb_le c 57343)) in Hc by lia.
    discriminate. }
  rewrite H1, H2. simpl. eauto.
Qed.

Lemma fetchFromRapidAPI_silent W url tr :
  encodeURIComponent url = None -> snd (fetchFromRapidAPI W url tr) = tr.
Proof.
  intros He. unfold fetchFromRapidAPI. rewrite He.
  now destruct (negb (truthy (RAPIDAPI_KEY W))).
Qed.

End EscapeFacts.
Import EscapeFacts.

(** X18.  The URL handed to the aggregation API is always escaped.  For a
    string of 16-bit code units, what [encodeURIComponent] returns holds
    only letters, digits, the marks [- _ . ! ~ * ' ( )] and [%]; for a
    string without surrogates it does return; and every request that
    [fetchFromRapidAPI] sends goes to the one fixed address followed by that
    escaped text, so the URL of the user cannot add a parameter to the
    query or change the path. *)
Theorem X18_api_url_is_escaped :
  forall url : str,
    Forall codeUnit url ->
    (forall e, encodeURIComponent url = Some e -> Forall escaped e) /\
    (Forall (fun c => isSurrogate c = false) url ->
     exists e, encodeURIComponent url = Some e) /\
    (forall (W : World) (tr evs : Trace) (u : str) (h : list (str * str)),
       snd (fetchFromRapidAPI W url tr) = tr ++ evs ->
       In (EvFetch u h) evs ->
       exists e, encodeURIComponent url = Some e /\ u = apiBase ++ e /\
                 Forall escaped e).
Proof.
  intros url Hu. split; [|split].
  - intros e He. now apply (@encode_escaped (length url) url e).
  - apply encode_total.
  - intros W tr evs u h Htr Hin.
    destruct (encodeURIComponent url) as [e|] eqn:He.
    + rewrite (@fetchFromRapidAPI_trace W url tr e He) in Htr.
      apply app_inv_head in Htr. subst evs.
      destruct Hin as [Hin | []]. unfold apiRequest in Hin.
      injection Hin as <- _. exists e. split; [reflexivity|].
      split; [unfold apiBase; now rewrite <- !app_assoc|].
      now apply (@encode_escaped (length url) url e).
    + rewrite (@fetchFromRapidAPI_silent W url tr He) in Htr.
      rewrite <- (app_nil_r tr) in Htr at 1.
      apply app_inv_head in Htr. subst evs. destruct Hin.
Qed.

Lemma X18_witness :
  Forall codeUnit (js "https://fb.watch/a b?x=1&y=2") /\
  Forall escaped (js "https%3A%2F%2Ffb.watch%2Fa%20b%3Fx%3D1%26y%3D2").
Proof.
  assert (H : Forall codeUnit (js "https://fb.watch/a b?x=1&y=2")).
  { apply Forall_forall. intros c Hc. vm_compute in Hc. unfold codeUnit.
    repeat (destruct Hc as [<- | Hc]; [reflexivity|]). destruct Hc. }
  split; [exact H|].
  apply (proj1 (@X18_api_url_is_escaped _ H)). vm_compute. reflexivity.
Defined.

Module FilenameFacts.

Lemma kept_not_mark c :
  kept c = true -> c <> 34%N /\ c <> 47%N /\ c <> 92%N /\ c <> 46%N.
Proof.
  intros H. repeat split; intros ->; vm_compute in H; discriminate.
Qed.

Lemma filter_none (p : N -> bool) l :
  Forall (fun c => p c = false) l -> filter p l = [].
Proof.
  induction 1 as [|c l Hc Hl IH]; simpl; [reflexivity|]. now rewrite Hc.
Qed.

Lemma filter_all (p : N -> bool) l :
  Forall (fun c => p c = true) l -> filter p l = l.
Proof.
  induction 1 as [|c l Hc Hl IH]; simpl; [reflexivity|]. now rewrite Hc, IH.
Qed.

Lemma Forall_firstn (P : N -> Prop) n l : Forall P l -> Forall P (firstn n l).
Proof.
  intros H. revert n. induction H as [|c l Hc Hl IH]; intros [|n]; simpl;
    constructor; auto.
Qed.

Lemma youtubeFilename_kept title :
  Download.youtubeFilename title
  = firstn 50 (filter kept title) ++ js ".mp4".
Proof. reflexivity. Qed.

(** A pattern that starts with a character the text does not start with
    is tried again one place further on. *)
Lemma search_skip (A : Type) i p r1 r2 c s (k : str -> option A) :
  ceq i p c = false ->
  search i (Seq (Seq (Chr p) r1) r2) (c :: s) k
  = search i (Seq (Seq (Chr p) r1) r2) s k.
Proof. intros H. cbn [search mt]. now rewrite H. Qed.

Lemma search_hit (A : Type) i r s (k : str -> option A) a :
  mt i r s k = Some a -> search i r s k = Some a.
Proof. intros H. destruct s; cbn [search]; now rewrite H. Qed.

Lemma mt_Lit_cs (A : Type) l s (k : str -> option A) :
  mt false (Lit l) (l ++ s) k = k s.
Proof.
  induction l as [|c l IH]; [reflexivity|].
  cbn [Lit mt app]. unfold ceq. now rewrite N.eqb_refl.
Qed.

(** [.*] followed by something that accepts the end of the text takes a
    whole line. *)
Lemma star_dot_all (A : Type) (k : str -> option A) a :
  k [] = Some a ->
  forall n s, Forall (fun c => isLineTerminator c = false) s -> length s <= n ->
    star_loop (fun s0 k0 => match s0 with
                            | c :: s' => if isLineTerminator c then None else k0 s'
                            | [] => None
                            end) n s k = Some a.
Proof.
  intros Hk. induction n as [|n IH]; intros s Hs Hn.
  - destruct s; [exact Hk | simpl in Hn; lia].
  - destruct s as [|c s']; cbn [star_loop]; [exact Hk|].
    apply Forall_cons_iff in Hs. destruct Hs as [Hc Hs]. rewrite Hc.
    assert (Hlt : (length s' <? length (c :: s'))%nat = true)
      by (apply Nat.ltb_lt; simpl; lia).
    rewrite Hlt. rewrite (IH s' Hs); [reflexivity | simpl in Hn; lia].
Qed.

Lemma plus_dot_all (A : Type) (k : str -> option A) a s :
  k [] = Some a -> s <> [] ->
  Forall (fun c => isLineTerminator c = false) s ->
  mt false (Plus Dot) s k = Some a.
Proof.
  intros Hk Hne Hs. destruct s as [|c s']; [now destruct Hne|].
  apply Forall_cons_iff in Hs. destruct Hs as [Hc Hs].
  unfold Plus. cbn [mt]. rewrite Hc. now apply star_dot_all.
Qed.

End FilenameFacts.
Import FilenameFacts.

(** X19.  The file name the YouTube download gives is the title cleaned:
    at most 50 code units of the title followed by [.mp4], each of them a
    word character, white space or a hyphen, so the name holds no double
    quote, slash or backslash and no dot but the one of [.mp4].  A title
    with none of these characters (one written in another script, say)
    leaves the bare name [.mp4]; a title of at most 50 of them is kept as
    it is. *)
Theorem X19_youtubeFilename_is_clean :
  forall title : str,
    (exists base,
       Download.youtubeFilename title = base ++ js ".mp4" /\
       length base <= 50 /\
       Forall (fun c => kept c = true /\ c <> 34 /\ c <> 47 /\ c <> 92 /\ c <> 46)%N
              base) /\
    (Forall (fun c => kept c = false) title ->
     Download.youtubeFilename title = js ".mp4") /\
    (Forall (fun c => kept c = true) title -> length title <= 50 ->
     Download.youtubeFilename title = title ++ js ".mp4").
Proof.
  intros title. rewrite youtubeFilename_kept. split; [|split].
  - exists (firstn 50 (filter kept title)). split; [reflexivity|].
    split; [apply firstn_le_length|].
    apply Forall_firstn. apply Forall_forall. intros c Hc.
    apply filter_In in Hc. destruct Hc as [_ Hc].
    split; [assumption | now apply kept_not_mark].
  - intros H. now rewrite (filter_none _ H).
  - intros H Hl. rewrite (filter_all _ H). now rewrite firstn_all2.
Qed.

Lemma X19_witness :
  Forall (fun c => kept c = false) [26085; 26412; 35486]%N /\
  Download.youtubeFilename [26085; 26412; 35486]%N = js ".mp4".
Proof.
  assert (H : Forall (fun c => kept c = false) [26085; 26412; 35486]%N)
    by (repeat constructor).
  split; [exact H|].
  exact (proj1 (proj2 (X19_youtubeFilename_is_clean [26085; 26412; 35486]%N)) H).
Defined.

(** X20.  The name [handleDownload] saves a download under keeps the
    closing quote of the header.  The routes send
    [attachment; filename="<name>"]; in [/filename="?(.+)"?/] the group
    [(.+)] is greedy and the last quote optional, so for a name without line
    terminators [match[1]] is the name followed by the double quote, and
    that is what the client uses, whatever the title. *)
Theorem X20_saved_name_keeps_quote :
  forall name title : str,
    Forall (fun c => isLineTerminator c = false) name ->
    Client.downloadFilename (Some (Download.contentDisposition name)) title
    = name ++ [34%N].
Proof.
  intros name title Hn.
  assert (Hrest : Forall (fun c => isLineTerminator c = false) (name ++ [34%N])).
  { apply Forall_app. split; [assumption | repeat constructor]. }
  assert (Hne : name ++ [34%N] <> []) by (now destruct name).
  unfold Client.downloadFilename, Download.contentDisposition.
  change (js "attachment; filename=")
    with ([97; 116; 116; 97; 99; 104; 109; 101; 110; 116; 59; 32]%N
            ++ js "filename=").
  cbn [app truthy]. unfold Client.match_group1_mid.
  change Client.filenamePre
    with (Seq (Seq (Chr 102) (Lit (js "ilename="))) Client.optQuote).
  rewrite !search_skip by reflexivity.
  change (Seq (Seq (Chr 102) (Lit (js "ilename="))) Client.optQuote)
    with (Seq (Lit (js "filename=")) Client.optQuote).
  erewrite search_hit; [reflexivity|].
  cbn [mt]. rewrite mt_Lit_cs. unfold Client.optQuote. cbn [mt app].
  unfold ceq. rewrite N.eqb_refl.
  erewrite plus_dot_all; [reflexivity | | exact Hne | exact Hrest].
  cbn [mt length]. now rewrite Nat.sub_0_r, firstn_all.
Qed.

Lemma X20_witness :
  Forall (fun c => isLineTerminator c = false) (js "tiktok_video.mp4") /\
  Client.downloadFilename
    (Some (Download.contentDisposition (js "tiktok_video.mp4")))
    (js "A title")
  = js "tiktok_video.mp4" ++ [34%N].
Proof.
  assert (H : Forall (fun c => isLineTerminator c = false) (js "tiktok_video.mp4")).
  { apply Forall_forall. intros c Hc. vm_compute in Hc.
    repeat (destruct Hc as [<- | Hc]; [reflexivity|]). destruct Hc. }
  split; [exact H|].
  exact (@X20_saved_name_keeps_quote (js "tiktok_video.mp4") (js "A title") H).
Defined.

Module DurationFacts.
Import Client.

Lemma size_nat_bound p : (N.pos p < 2 ^ N.of_nat (Pos.size_nat p))%N.
Proof.
  induction p as [p IH|p IH|]; cbn [Pos.size_nat];
    rewrite ?Nat2N.inj_succ, ?N.pow_succ_r'.
  - change (N.pos p~1) with (2 * N.pos p + 1)%N. lia.
  - change (N.pos p~0) with (2 * N.pos p)%N. lia.
  - reflexivity.
Qed.

Lemma toString_fuel n : (n < 2 ^ N.of_nat (N.size_nat n))%N.
Proof. destruct n as [|p]; [reflexivity | apply size_nat_bound]. Qed.

Lemma small_cases (P : N -> bool) (b : nat) :
  forallb P (map N.of_nat (seq 0 b)) = true ->
  forall n, (n < N.of_nat b)%N -> P n = true.
Proof.
  intros H n Hn. rewrite forallb_forall in H. apply H.
  apply in_map_iff. exists (N.to_nat n). split; [apply N2Nat.id|].
  apply in_seq. lia.
Qed.

Lemma digitVal_digit n : (n < 10)%N -> digitVal 10 (48 + n) = Some n.
Proof.
  intros H.
  apply (@small_cases
           (fun n => match digitVal 10 (48 + n) with
                     | Some d => N.eqb d n
                     | None => false
                     end) 10) in H; [|vm_compute; reflexivity].
  destruct (digitVal 10 (48 + n)); [|discriminate].
  apply N.eqb_eq in H. now subst.
Qed.

Lemma decimal_S f n :
  decimal (S f) n
  = if (n <? 10)%N then [(48 + n)%N]
    else decimal f (n / 10) ++ [(48 + n mod 10)%N].
Proof. reflexivity. Qed.

(** Read back, the digits of [n] give [n]. *)
Lemma decimal_digits f : forall n rest,
  (n < 2 ^ N.of_nat f)%N ->
  digits 10 None (decimal (S f) n ++ rest) = digits 10 (Some n) rest.
Proof.
  induction f as [|f IH]; intros n rest Hn; rewrite decimal_S.
  - assert (n = 0%N) by (simpl in Hn; lia). subst. reflexivity.
  - destruct (n <? 10)%N eqn:E.
    + apply N.ltb_lt in E. cbn [app digits]. now rewrite digitVal_digit.
    + apply N.ltb_ge in E. rewrite <- app_assoc. rewrite IH.
      * cbn [app digits]. rewrite digitVal_digit by (apply N.mod_lt; lia).
        f_equal. f_equal. pose proof (N.div_mod n 10). lia.
      * rewrite Nat2N.inj_succ, N.pow_succ_r' in Hn.
        apply N.Div0.div_lt_upper_bound. lia.
Qed.

Lemma decimal_digit f : forall n c,
  In c (decimal f n) -> (48 <= c <= 57)%N.
Proof.
  induction f as [|f IH]; intros n c Hin; [destruct Hin|].
  rewrite decimal_S in Hin. destruct (n <? 10)%N eqn:E.
  - apply N.ltb_lt in E. destruct Hin as [<- | []]. lia.
  - apply in_app_or in Hin. destruct Hin as [Hin | [<- | []]]; [eauto|].
    assert (n mod 10 < 10)%N by (apply N.mod_lt; lia).
    revert H. generalize (n mod 10)%N. intros; lia.
Qed.

Lemma decimal_nonempty f n : decimal (S f) n <> [].
Proof.
  rewrite decimal_S. destruct (n <? 10)%N; [discriminate|].
  intros H. symmetry in H. now apply app_cons_not_nil in H.
Qed.

Lemma toString_digits n rest :
  digits 10 None (toString n ++ rest) = digits 10 (Some n) rest.
Proof. unfold toString. apply decimal_digits, toString_fuel. Qed.

Lemma toString_shape n :
  exists d ds, toString n = d :: ds /\
               Forall (fun c => (48 <= c <= 57)%N) (d :: ds).
Proof.
  unfold toString. destruct (decimal (S (N.size_nat n)) n) as [|d ds] eqn:E.
  - now apply decimal_nonempty in E.
  - exists d, ds. split; [reflexivity|]. rewrite <- E.
    apply Forall_forall. intros c. apply decimal_digit.
Qed.

(** [parseInt] on a text that starts with a decimal digit and goes on
    with a digit or a colon, if it goes on: no white space, no sign and no
    [0x] to take off. *)
Lemma parseInt_digit_first d t :
  (48 <= d <= 57)%N ->
  (forall x t', t = x :: t' -> (48 <= x <= 58)%N) ->
  parseInt (d :: t)
  = match digits 10 None (d :: t) with
    | Some n => Some (Z.of_N n)
    | None => None
    end.
Proof.
  intros Hd Ht.
  assert (Hc : (d = 48 \/ d = 49 \/ d = 50 \/ d = 51 \/ d = 52 \/ d = 53 \/
                d = 54 \/ d = 55 \/ d = 56 \/ d = 57)%N) by lia.
  destruct Hc as [-> | Hc].
  - destruct t as [|x t']; [reflexivity|].
    specialize (Ht x t' eq_refl).
    assert (Hx : (x = 48 \/ x = 49 \/ x = 50 \/ x = 51 \/ x = 52 \/ x = 53 \/
                  x = 54 \/ x = 55 \/ x = 56 \/ x = 57 \/ x = 58)%N) by lia.
    repeat (destruct Hx as [-> | Hx]; [reflexivity|]). subst x. reflexivity.
  - repeat (destruct Hc as [-> | Hc]; [reflexivity|]). subst d. reflexivity.
Qed.

Lemma digits_stop acc rest :
  digits 10 acc (58%N :: rest) = acc.
Proof. reflexivity. Qed.

(** The seconds of a minute in two digits. *)
Lemma seconds_two_digits secs :
  (secs < 60)%N ->
  length (padStart2 (toString secs)) = 2 /\
  parseInt (padStart2 (toString secs)) = Some (Z.of_N secs).
Proof.
  intros H.
  apply (@small_cases
           (fun n => Nat.eqb (length (padStart2 (toString n))) 2 &&
                     match parseInt (padStart2 (toString n)) with
                     | Some z => Z.eqb z (Z.of_N n)
                     | None => false
                     end) 60) in H; [|vm_compute; reflexivity].
  apply andb_prop in H. destruct H as [H1 H2].
  apply Nat.eqb_eq in H1. split; [assumption|].
  destruct (parseInt (padStart2 (toString secs))); [|discriminate].
  apply Z.eqb_eq in H2. now subst.
Qed.

Lemma formatDuration_parts seconds :
  formatDuration seconds
  = toString (seconds / 60) ++ 58%N :: padStart2 (toString (seconds mod 60)).
Proof. reflexivity. Qed.

Lemma lastn_app a b : lastn (length b) (a ++ b) = b.
Proof.
  unfold lastn. rewrite length_app.
  replace (length a + length b - length b) with (length a) by lia.
  rewrite skipn_app, skipn_all, Nat.sub_diag. reflexivity.
Qed.

End DurationFacts.
Import DurationFacts.

(** X21.  A duration shown by [formatDuration] reads back.  For a number
    of seconds that is a non-negative integer below 2^53 the text is the
    minutes in decimal, a colon, and the seconds of the minute in exactly
    two digits: [parseInt] of the text gives the minutes, [parseInt] of its
    last two characters gives the seconds, and two different durations are
    never shown the same way. *)
Theorem X21_formatDuration_reads_back :
  forall seconds : N,
    safeInteger seconds ->
    parseInt (Client.formatDuration seconds) = Some (Z.of_N (seconds / 60)) /\
    parseInt (lastn 2 (Client.formatDuration seconds))
      = Some (Z.of_N (seconds mod 60)) /\
    nth_error (rev (Client.formatDuration seconds)) 2 = Some 58%N /\
    (forall other : N,
       safeInteger other ->
       Client.formatDuration other = Client.formatDuration seconds ->
       other = seconds).
Proof.
  assert (Hmin : forall s,
    parseInt (Client.formatDuration s) = Some (Z.of_N (s / 60))).
  { intros s. rewrite formatDuration_parts.
    destruct (toString_shape (s / 60)) as (d & ds & E & Hd).
    pose proof (toString_digits (s / 60)
                  (58%N :: Client.padStart2 (Client.toString (s mod 60)))) as Hr.
    rewrite E in *. cbn [app] in *.
    apply Forall_cons_iff in Hd. destruct Hd as [Hd Hds].
    rewrite parseInt_digit_first.
    - now rewrite Hr, digits_stop.
    - exact Hd.
    - intros x t' Ht. destruct ds as [|y ds'].
      + injection Ht as <- _. lia.
      + injection Ht as <- _. apply Forall_cons_iff in Hds.
        destruct Hds as [Hy _]. lia. }
  assert (Hsec : forall s,
    parseInt (lastn 2 (Client.formatDuration s)) = Some (Z.of_N (s mod 60))).
  { intros s. rewrite formatDuration_parts.
    destruct (@seconds_two_digits (s mod 60)) as [Hl Hp];
      [apply N.mod_lt; lia|].
    change (Client.toString (s / 60) ++
            58%N :: Client.padStart2 (Client.toString (s mod 60)))
      with (Client.toString (s / 60) ++
            [58%N] ++ Client.padStart2 (Client.toString (s mod 60))).
    rewrite app_assoc, <- Hl, lastn_app. exact Hp. }
  intros seconds _. split; [apply Hmin|]. split; [apply Hsec|]. split.
  - rewrite formatDuration_parts.
    destruct (@seconds_two_digits (seconds mod 60)) as [Hl _];
      [apply N.mod_lt; lia|].
    destruct (Client.padStart2 (Client.toString (seconds mod 60)))
      as [|a [|b [|c l]]]; try discriminate.
    rewrite rev_app_distr. reflexivity.
  - intros other _ Heq.
    pose proof (Hmin other) as H1. pose proof (Hsec other) as H2.
    rewrite Heq, Hmin in H1. rewrite Heq, Hsec in H2.
    injection H1 as H1. injection H2 as H2.
    apply N2Z.inj in H1. apply N2Z.inj in H2.
    rewrite (N.div_mod seconds 60), (N.div_mod other 60) by lia.
    now rewrite H1, H2.
Qed.

Lemma X21_witness :
  safeInteger 3725 /\
  parseInt (Client.formatDuration 3725) = Some (Z.of_N (3725 / 60)) /\
  parseInt (lastn 2 (Client.formatDuration 3725)) = Some (Z.of_N (3725 mod 60)).
Proof.
  assert (H : safeInteger 3725) by reflexivity.
  split; [exact H|].
  destruct (@X21_formatDuration_reads_back 3725%N H) as (H1 & H2 & _).
  split; [exact H1 | exact H2].
Defined.

Example formatDuration_sample : Client.formatDuration 3725 = js "62:05".
Proof. vm_compute. reflexivity. Qed.

Example formatDuration_under_a_minute : Client.formatDuration 7 = js "0:07".
Proof. vm_compute. reflexivity. Qed.

Example downloadFilename_without_header :
  Client.downloadFilename None [] = js "video.mp4".
Proof. vm_compute. reflexivity. Qed.

Module FlightFacts.
Import Store UI.

(** Once an id that was handed out has no video, it never has one again. *)
Lemma gone_step i a s s' :
  Inv s /\ In i (issued s) /\ status_of i s = None ->
  perform a s = Some s' ->
  Inv s' /\ In i (issued s') /\ status_of i s' = None.
Proof.
  intros (HI & Hi & Hn) Hp.
  destruct (perform_step _ HI Hp) as (HI' & Hok & Hincl).
  split; [assumption|]. split; [now apply Hincl|].
  specialize (Hok i). unfold step_ok in Hok. rewrite Hn in Hok.
  destruct (status_of i s'); [|reflexivity]. now destruct Hok.
Qed.

Lemma In_skipn (A : Type) (l : list A) m n x :
  m <= n -> nth_error l n = Some x -> In x (skipn m l).
Proof.
  intros Hmn Hn. apply nth_error_In with (n := n - m).
  rewrite nth_error_skipn. now replace (m + (n - m)) with n by lia.
Qed.

End FlightFacts.
Import FlightFacts.

(** X22.  In every state of an execution of the components from the empty
    store no video has two handlers in flight, and a video with a handler
    in flight has the status that handler left it in (pending before
    [handleAnalyze] has marked it, analyzing while the analysis is awaited,
    downloading while the download is).  A video that was removed never
    comes back: once an id that was handed out has no video in the store,
    nothing a handler still in flight does puts one there. *)
Theorem X22_one_handler_per_video :
  forall (acts : list UI.Action) (states : list UI.State),
    UI.run acts UI.init = Some states ->
    (forall s, In s states ->
       NoDup (map UI.task_id (UI.tasks s)) /\
       (forall t v, In t (UI.tasks s) -> In v (UI.videos s) ->
          Store.id v = UI.task_id t -> Store.status v = expected t)) /\
    (forall m n s s' i,
       m <= n -> nth_error states m = Some s -> nth_error states n = Some s' ->
       In i (UI.issued s) -> UI.status_of i s = None ->
       UI.status_of i s' = None).
Proof.
  intros acts states Hrun. split.
  - intros s Hin. destruct (@cards_run acts states s Hrun Hin) as [HI _].
    split; [apply (inv_tasks_nodup HI)|].
    intros t v Ht Hv Hid. apply (@task_status s t v HI); auto.
    now apply hasTask_In.
  - intros m n s s' i Hmn Hs Hs' Hi Hnone.
    destruct (@run_suffix acts UI.init states m s Hrun Hs) as (acts' & Hrun').
    assert (HI : Inv s).
    { apply (@cards_run acts states s Hrun). eapply nth_error_In; eassumption. }
    assert (Hin : In s' (skipn m states)) by (eapply In_skipn; eassumption).
    apply (@run_invariant
             (fun x => Inv x /\ In i (UI.issued x) /\ UI.status_of i x = None)
             (@gone_step i) acts' s (skipn m states)); auto.
Qed.

Lemma X22_witness :
  UI.run Samples.sampleActions UI.init = Some Samples.sampleStates /\
  In Samples.queuedState Samples.sampleStates /\
  NoDup (map UI.task_id (UI.tasks Samples.queuedState)).
Proof.
  assert (H : UI.run Samples.sampleActions UI.init = Some Samples.sampleStates)
    by (vm_compute; reflexivity).
  assert (Hin : In Samples.queuedState Samples.sampleStates)
    by (apply nth_In; vm_compute; lia).
  split; [exact H|]. split; [exact Hin|].
  exact (proj1 (proj1 (@X22_one_handler_per_video _ _ H) _ Hin)).
Defined.

(* ================================================================== *)
(** * The file name of a YouTube download as a header *)

Example normalizeHeaderValue_strips_both_ends :
  normalizeHeaderValue (js "  a b" ++ [9; 13; 10]%N) = js "a b".
Proof. vm_compute. reflexivity. Qed.

Example youtube_download_skips_formats_not_combined :
  exists headers,
    Download.POST Samples.mixedWorld Samples.watchRequest []
    = (Ok (Stream headers Samples.noBody),
       [EvGetInfo Samples.watchUrl;
        EvYtdl Samples.watchUrl (Samples.fmt 18 (js "360p"))]).
Proof. eexists. vm_compute. reflexivity. Qed.

Example youtube_download_title_with_line_break :
  Download.POST (Samples.titledWorld Samples.lineBreakTitle)
                Samples.watchRequest []
  = (Ok (JsonMessage 500 Download.YOUTUBE_UNAVAILABLE),
     [EvGetInfo Samples.watchUrl;
      EvYtdl Samples.watchUrl (Samples.fmt 22 (js "720p"));
      EvConsole (js "YouTube download error:");
      EvConsole (js "Download error:")]).
Proof. vm_compute. reflexivity. Qed.

Example youtube_download_title_with_wide_space :
  Download.POST (Samples.titledWorld Samples.wideSpaceTitle)
                Samples.watchRequest []
  = (Ok (JsonMessage 500 Download.YOUTUBE_UNAVAILABLE),
     [EvGetInfo Samples.watchUrl;
      EvYtdl Samples.watchUrl (Samples.fmt 22 (js "720p"));
      EvConsole (js "YouTube download error:");
      EvConsole (js "Download error:")]).
Proof. vm_compute. reflexivity. Qed.


(** X23.  A title can break a YouTube download.  The cleaning of the title
    keeps white space, and with it line feeds, carriage returns and the
    white space above 255 (the ideographic space, say).  When the file name
    made from the title holds one of these, [new Response] refuses the
    header inside the [try]: whatever the quality asked for, the route
    answers with status 500 and the fixed message of the YouTube downloader,
    and when there is a combined format the ytdl-core stream has been opened
    by then. *)
Theorem X23_title_can_break_youtube_download :
  forall (W : World) (url : str) (q : JsVal) (tr : Trace) (info : YtInfo)
         (c : N),
    Route.detectPlatform url = youtube ->
    ytdl_getInfo W tr url = Ok info ->
    In c (Download.youtubeFilename (vd_title (videoDetails info))) ->
    (c = 10 \/ c = 13 \/ 255 < c)%N ->
    exists tr',
      Download.POST W (Ok (BodyFields (VStr url) q)) tr
      = (Ok (JsonMessage 500 Download.YOUTUBE_UNAVAILABLE), tr') /\
      ((exists g, In g (formats info) /\ combined g) ->
       exists f, combined f /\
         tr' = tr ++ [EvGetInfo url; EvYtdl url f;
                      EvConsole (js "YouTube download error:");
                      EvConsole (js "Download error:")]).
Proof.
  intros W url q tr info c Hp Hinfo Hc Hbad.
  assert (Hk : youtube <> unknown) by discriminate.
  rewrite (@download_dispatch W url q tr youtube Hp Hk).
  set (q' := match q with VUndefined => VStr (js "720p") | _ => q end).
  assert (Hhdr : nameAccepted info = false).
  { apply (@forallb_false_In headerByte _ c Hc). now apply headerByte_false. }
  pose proof (@downloadYouTube_run W url q' tr info Hinfo) as Hrun.
  destruct (Download.selectFormat
              (filterFormats_videoandaudio (formats info)) q') as [f|] eqn:E.
  - destruct Hrun as (_ & _ & Hfail). rewrite (Hfail Hhdr).
    eexists. split; [reflexivity|]. intros _. exists f. split.
    + apply selectFormat_In in E. now apply combined_In in E.
    + rewrite <- !app_assoc. reflexivity.
  - destruct Hrun as [_ Hfail]. rewrite Hfail.
    eexists. split; [reflexivity|]. intros (g & Hg & Hcg).
    apply selectFormat_none in E.
    assert (Hin : In g (filterFormats_videoandaudio (formats info)))
      by now apply combined_In.
    rewrite E in Hin. destruct Hin.
Qed.

Lemma X23_witness :
  exists tr',
    Download.POST (Samples.titledWorld Samples.lineBreakTitle)
                  Samples.watchRequest []
    = (Ok (JsonMessage 500 Download.YOUTUBE_UNAVAILABLE), tr').
Proof.
  destruct (@X23_title_can_break_youtube_download
              (Samples.titledWorld Samples.lineBreakTitle) Samples.watchUrl
              VUndefined [] (Samples.titledInfo Samples.lineBreakTitle) 10%N)
    as (tr' & H & _).
  - vm_compute; reflexivity.
  - reflexivity.
  - vm_compute. tauto.
  - now left.
  - exists tr'. exact H.
Defined.
